(** * pandas_streaming.df.dataframe: a shallow embedding of [StreamingDataFrame]

    The development follows [pandas_streaming/df/dataframe.py].  A
    [StreamingDataFrame] wraps a function creating an iterator on
    dataframes; every method below is the translation of the method of the
    same name.  The pandas and numpy primitives the class calls are modelled
    in the first modules ([Frame], [Numpy]); the class itself lives in
    [Streaming]. *)

From stdpp Require Import base numbers list strings gmap.

Local Open Scope Z_scope.

(** ** Python values, exceptions and results *)

(** Values that flow through keyword arguments. *)
Inductive pyvalue :=
| PNone
| PBool (b : bool)
| PInt (z : Z)
| PStr (s : string).

Global Instance pyvalue_eq_dec : EqDecision pyvalue.
Proof. solve_decision. Defined.

(** [bool(v)], as used by [if not v]. *)
Definition truthy (v : pyvalue) : bool :=
  match v with
  | PNone => false
  | PBool b => b
  | PInt z => negb (z =? 0)
  | PStr s => negb (bool_decide (s = ""%string))
  end.

(** [isinstance(v, int)] together with the integer read from [v]
    ([bool] is a subclass of [int]). *)
Definition as_int (v : pyvalue) : option Z :=
  match v with
  | PInt z => Some z
  | PBool b => Some (if b then 1 else 0)
  | _ => None
  end.

(** Column types, as listed by [DataFrame.dtypes]. *)
Inductive dtype := int64 | float64 | object_ | bool_.

Global Instance dtype_eq_dec : EqDecision dtype.
Proof. solve_decision. Defined.

Inductive exn_class :=
| StreamingDataFrameSchemaError
| ValueError
| KeyError
| TypeError
| NotImplementedError
| RuntimeError
| AttributeError
| UnboundLocalError.

Global Instance exn_class_eq_dec : EqDecision exn_class.
Proof. solve_decision. Defined.

(** The arguments given to [str.format] when an error message is built. *)
Inductive fmt_arg :=
| FInt (z : Z)
| FNames (l : list string)
| FDiff (l : list (string * dtype * dtype)).

(** A raised exception: its class, the message template and the values
    substituted for [{0}], [{1}], ... *)
Record exn := Raise {
  exn_cls : exn_class;
  exn_msg : string;
  exn_args : list fmt_arg
}.

Inductive result (A : Type) :=
| Ok (a : A)
| Error (e : exn).
Arguments Ok {A} a.
Arguments Error {A} e.

Definition nl : string := String (Ascii.ascii_of_nat 10) EmptyString.

(** ** The state of the outside world

    The only global state the module touches is numpy's random generator.
    It is modelled by the raw outputs the generator still has to deliver;
    an exhausted tape keeps delivering zeros. *)
Definition World := list nat.

Definition draw (w : World) : nat * World :=
  match w with
  | [] => (0%nat, [])
  | e :: w' => (e, w')
  end.

(** Computations that may raise and that read the world. *)
Definition M (A : Type) := World -> result A * World.

Definition ret {A} (a : A) : M A := fun w => (Ok a, w).
Definition raise {A} (e : exn) : M A := fun w => (Error e, w).
Definition bind {A B} (m : M A) (k : A -> M B) : M B :=
  fun w => match m w with
           | (Ok a, w') => k a w'
           | (Error e, w') => (Error e, w')
           end.

Notation "x <- m ;; k" := (bind m (fun x => k))
  (at level 100, m at next level, right associativity).

(** A finished walk through a generator: the items it yielded, then either
    a normal end ([None]) or the exception that interrupted it. *)
Record trace (A : Type) := Trace {
  yielded : list A;
  raised : option exn
}.
Arguments Trace {A} yielded raised.
Arguments yielded {A} t.
Arguments raised {A} t.

Definition finished {A} (l : list A) : trace A := Trace l None.
Definition yield_ {A} (a : A) (t : trace A) : trace A :=
  Trace (a :: yielded t) (raised t).
Definition fail_ {A} (e : exn) : trace A := Trace [] (Some e).

(** ** pandas dataframes *)
Module Frame.

(** A row: its index label and one integer cell per column. *)
Record Row := { label : Z; cells : list Z }.

Record DataFrame := {
  cols : list (string * dtype);
  rows : list Row
}.

Global Instance Row_eq_dec : EqDecision Row.
Proof. solve_decision. Defined.

Global Instance DataFrame_eq_dec : EqDecision DataFrame.
Proof. solve_decision. Defined.

(** [list(df.columns)] and [list(df.dtypes)]. *)
Definition columns (df : DataFrame) : list string := (cols df).*1.
Definition dtypes (df : DataFrame) : list dtype := (cols df).*2.

(** [df.shape[0]]. *)
Definition nrows (df : DataFrame) : nat := length (rows df).

(** [df[i:j]] for [0 <= i <= j <= df.shape[0]], as [read_df] slices. *)
Definition slice (i j : Z) (df : DataFrame) : DataFrame :=
  {| cols := cols df;
     rows := take (Z.to_nat (j - i)) (drop (Z.to_nat i) (rows df)) |}.

(** [df.head(n)], which is [df.iloc[:n]]. *)
Definition df_head (n : Z) (df : DataFrame) : DataFrame :=
  let l := rows df in
  {| cols := cols df;
     rows := if 0 <=? n then take (Z.to_nat n) l
             else take (length l - Z.to_nat (- n)) l |}.

(** [df.tail(n)], which is [df.iloc[0:0]] when [n == 0] and
    [df.iloc[-n:]] otherwise. *)
Definition df_tail (n : Z) (df : DataFrame) : DataFrame :=
  let l := rows df in
  {| cols := cols df;
     rows := if n =? 0 then []
             else if 0 <? n then drop (length l - Z.to_nat n) l
             else drop (Z.to_nat (- n)) l |}.

(** [pandas.concat(frames)] along the rows.  The streaming class only
    concatenates frames that share their columns (the schema check of
    [__iter__] sees to it); this is the case modelled, the columns being
    read from the first frame.  An empty list makes pandas raise. *)
Definition pandas_concat (frames : list DataFrame) : result DataFrame :=
  match frames with
  | [] => Error (Raise ValueError "No objects to concatenate" [])
  | df :: _ => Ok {| cols := cols df; rows := frames ≫= rows |}
  end.

(** Position of a column name. *)
Definition index_of (name : string) (names : list string) : option nat :=
  fst <$> list_find (fun x => x = name) names.

(** *** Group by one column and sum *)

(** Integer columns are [int64]: sums wrap around. *)
Definition wrap64 (z : Z) : Z := (z + 2 ^ 63) `mod` 2 ^ 64 - 2 ^ 63.

(** Columns of type [float64] hold doubles.  A cell [z] of such a column
    stands for the double of value [z]: an integer that 53 bits hold (up
    to a power of two), below [2 ^ 1024] in absolute value.  [round64]
    is the rounding of an integer to the nearest double, ties to even:
    the sum of two such doubles is the rounding of their exact sum. *)
Definition round64 (z : Z) : Z :=
  let a := Z.abs z in
  if a <? 2 ^ 53 then z
  else
    let e := Z.log2 a - 52 in
    let q := a `div` 2 ^ e in
    let r := a `mod` 2 ^ e in
    let half := 2 ^ (e - 1) in
    let q' := if r <? half then q
              else if half <? r then q + 1
              else if Z.even q then q else q + 1 in
    Z.sgn z * (q' * 2 ^ e).

(** [sumx += val] in a column of type [t], and the first value of a
    group, [0 + val].  Columns that are not [float64] are summed as
    integers. *)
Definition add_cell (t : dtype) (a b : Z) : Z :=
  match t with
  | float64 => round64 (a + b)
  | _ => wrap64 (a + b)
  end.

Definition first_cell (t : dtype) (a : Z) : Z :=
  match t with
  | float64 => a
  | _ => wrap64 a
  end.

(** Cell-wise sum of two rows of values of the columns [types], and the
    values of the first row of a group. *)
Fixpoint vadd_typed (types : list dtype) (u v : list Z) : list Z :=
  match u, v with
  | a :: u, b :: v =>
      add_cell (hd int64 types) a b :: vadd_typed (tl types) u v
  | _, _ => []
  end.

Fixpoint vfirst (types : list dtype) (v : list Z) : list Z :=
  match v with
  | [] => []
  | a :: v => first_cell (hd int64 types) a :: vfirst (tl types) v
  end.

(** The same for columns that are all integers. *)
Definition vadd (u v : list Z) : list Z :=
  zip_with (fun a b => wrap64 (a + b)) u v.

(** The object returned by [df.groupby(by=..., as_index=...)]. *)
Record GroupBy := {
  gb_frame : DataFrame;
  gb_by : string;
  gb_key : nat;
  gb_as_index : bool
}.

Definition groupby (by_ : string) (as_index : bool) (df : DataFrame)
  : result GroupBy :=
  match index_of by_ (columns df) with
  | None => Error (Raise KeyError "{0}" [FNames [by_]])
  | Some ki =>
      Ok {| gb_frame := df; gb_by := by_; gb_key := ki;
            gb_as_index := as_index |}
  end.

(** The key of a row and its remaining cells. *)
Definition keyed (ki : nat) (r : Row) : Z * list Z :=
  (default 0 (cells r !! ki), delete ki (cells r)).

(** Groups are kept sorted by key ([sort=True] is the default of
    [groupby]); a row either opens a new group or is added to its
    group.  [types] are the types of the columns that are summed.  The
    sums are taken in the order of the rows, one addition per row (the
    loop of pandas' [group_add]; later versions of pandas also carry a
    compensation term from row to row, see [compensated_sum]). *)
Fixpoint agg_insert_typed (types : list dtype) (k : Z) (v : list Z)
    (acc : list (Z * list Z)) : list (Z * list Z) :=
  match acc with
  | [] => [(k, vfirst types v)]
  | (k', v') :: rest =>
      if k <? k' then (k, vfirst types v) :: acc
      else if k =? k' then (k', vadd_typed types v' v) :: rest
      else (k', v') :: agg_insert_typed types k v rest
  end.

Definition group_sums_typed (types : list dtype) (ki : nat) (l : list Row)
  : list (Z * list Z) :=
  fold_left (fun acc r => agg_insert_typed types (keyed ki r).1 (keyed ki r).2 acc)
    l [].

(** The same for columns that are all integers. *)
Fixpoint agg_insert (k : Z) (v : list Z) (acc : list (Z * list Z))
  : list (Z * list Z) :=
  match acc with
  | [] => [(k, wrap64 <$> v)]
  | (k', v') :: rest =>
      if k <? k' then (k, wrap64 <$> v) :: acc
      else if k =? k' then (k', vadd v' v) :: rest
      else (k', v') :: agg_insert k v rest
  end.

Definition group_sums (ki : nat) (l : list Row) : list (Z * list Z) :=
  fold_left (fun acc r => agg_insert (keyed ki r).1 (keyed ki r).2 acc) l [].

(** The sum of a column of doubles as pandas 1.2 and later compute it
    inside one call: [c] compensates the rounding error of the additions
    made so far.  The compensation is dropped when the call returns. *)
Definition compensated_sum (l : list Z) : Z :=
  (fold_left (fun (sc : Z * Z) val =>
                let y := round64 (val - sc.2) in
                let t := round64 (sc.1 + y) in
                (t, round64 (round64 (t - sc.1) - y)))
     l (0, 0)).1.

(** [gr.sum()].  With [as_index=False] the key comes back as the first
    column and the rows are numbered; with [as_index=True] the key
    becomes the row label. *)
Definition gb_sum (g : GroupBy) : DataFrame :=
  let df := gb_frame g in
  let others := delete (gb_key g) (cols df) in
  let sums := group_sums_typed others.*2 (gb_key g) (rows df) in
  if gb_as_index g then
    {| cols := others;
       rows := (fun kv => {| label := kv.1; cells := kv.2 |}) <$> sums |}
  else
    {| cols := (gb_by g, default int64 (dtypes df !! gb_key g)) :: others;
       rows := imap (fun i kv => {| label := Z.of_nat i;
                                    cells := kv.1 :: kv.2 |}) sums |}.

(** *** Inner join on one column: [df1.merge(df2, on=key)]
    ([how='inner'] is the default of [merge]) *)

(** Overlapping column names receive a suffix. *)
Definition suffixed (sfx : string) (clash : list string)
    (c : string * dtype) : string * dtype :=
  if bool_decide (c.1 ∈ clash) then (c.1 +:+ sfx, c.2) else c.

(** The values of a list, each one once, in the order in which they are
    met first: the codes that the factorizer of the join gives to the
    keys. *)
Fixpoint uniques (ks : list Z) : list Z :=
  match ks with
  | [] => []
  | k :: rest => k :: filter (fun x => x <> k) (uniques rest)
  end.

(** The rows of the join come group by group ([inner_join] of pandas'
    [libjoin], with [sort=False]): the keys in the order in which the left
    frame has them first, and for each key the left rows that have it, in
    their order, each one with the right rows that have it, in their
    order.  This is the join of the versions of pandas that still have
    [pandas.io.json.json_normalize], which the module imports; the order
    of the left rows is kept when no key is repeated on the left, and not
    in general. *)
Definition join_rows (k1 k2 : nat) (l1 l2 : list Row) : list (list Z) :=
  k ← uniques ((fun r => (keyed k1 r).1) <$> l1);
  r1 ← filter (fun r1 => (keyed k1 r1).1 = k) l1;
  r2 ← filter (fun r2 => k = (keyed k2 r2).1) l2;
  [cells r1 ++ (keyed k2 r2).2].

Definition merge (key : string) (df1 df2 : DataFrame) : result DataFrame :=
  match index_of key (columns df1), index_of key (columns df2) with
  | Some k1, Some k2 =>
      let c1 := delete k1 (cols df1) in
      let c2 := delete k2 (cols df2) in
      let left := (fun ic => if bool_decide (ic.1 = k1) then ic.2
                             else suffixed "_x" c2.*1 ic.2)
                    <$> imap pair (cols df1) in
      Ok {| cols := left ++ (suffixed "_y" c1.*1 <$> c2);
            rows := imap (fun i c => {| label := Z.of_nat i; cells := c |})
                      (join_rows k1 k2 (rows df1) (rows df2)) |}
  | _, _ => Error (Raise KeyError "{0}" [FNames [key]])
  end.

(** *** Columns *)

(** [df[names]] for a list of column names. *)
Definition select (names : list string) (df : DataFrame) : result DataFrame :=
  match mapM (fun s => index_of s (columns df)) names with
  | None => Error (Raise KeyError "{0} not in index" [FNames names])
  | Some idx =>
      Ok {| cols := omap (fun i => cols df !! i) idx;
            rows := (fun r => {| label := label r;
                                 cells := omap (fun i => cells r !! i) idx |})
                      <$> rows df |}
  end.

(** [dfc.insert(dfc.shape[1], col, values)]: a new last column; pandas
    refuses a name that is already there. *)
Definition insert_last (col : string) (f : Row -> Z) (df : DataFrame)
  : result DataFrame :=
  if bool_decide (col ∈ columns df) then
    Error (Raise ValueError "cannot insert {0}, already exists" [FNames [col]])
  else
    Ok {| cols := cols df ++ [(col, int64)];
          rows := (fun r => {| label := label r;
                               cells := cells r ++ [f r] |}) <$> rows df |}.

(** [dfc[col] = value]: overwrites the column or appends it. *)
Definition set_column (col : string) (value : Z) (df : DataFrame) : DataFrame :=
  match index_of col (columns df) with
  | Some i =>
      {| cols := <[i := (col, int64)]> (cols df);
         rows := (fun r => {| label := label r;
                              cells := <[i := value]> (cells r) |}) <$> rows df |}
  | None =>
      {| cols := cols df ++ [(col, int64)];
         rows := (fun r => {| label := label r;
                              cells := cells r ++ [value] |}) <$> rows df |}
  end.

End Frame.
Export Frame.

(** ** numpy.random *)
Module Numpy.

(** Floats in [[0, 1)] carry 53 bits: [random()] is [num / 2^53], and the
    numerator is what is returned here. *)
Definition resolution : Z := 2 ^ 53.

(** [numpy.random.random()]. *)
Definition random : M Z :=
  fun w => let '(e, w') := draw w in (Ok (Z.of_nat e `mod` resolution), w').

(** [numpy.random.randint(low, high)]: an integer from [low] (inclusive) to
    [high] (exclusive); an empty interval is refused. *)
Definition randint (low high : Z) : M Z :=
  fun w =>
    if high <=? low then (Error (Raise ValueError "low >= high" []), w)
    else let '(e, w') := draw w in
         (Ok (low + Z.of_nat e `mod` (high - low)), w').

End Numpy.

Module Streaming.

(** [iter_creation]: a function which creates an iterator on dataframes.
    Calling it may consume randomness. *)
Definition factory := World -> trace DataFrame * World.

Record StreamingDataFrame := {
  iter_creation : factory;
  check_schema : bool;
  stable : bool
}.

(** [StreamingDataFrame.__init__]; the defaults are
    [check_schema=True, stable=True]. *)
Definition __init__ (src : factory + StreamingDataFrame)
    (check_schema stable : bool) : StreamingDataFrame :=
  match src with
  | inr other =>
      {| iter_creation := iter_creation other;
         stable := Streaming.stable other;
         check_schema := check_schema |}
  | inl f =>
      {| iter_creation := f; stable := stable; check_schema := check_schema |}
  end.

(** [get_kwargs]: the parameters handed to the constructor of a derived
    frame. *)
Definition get_kwargs (self : StreamingDataFrame) : bool := check_schema self.

Definition names_msg : string :=
  "Column names are different after row {0}" +:+ nl +:+
  "First   chunk: {1}" +:+ nl +:+ "Current chunk: {2}".
Definition types_msg : string :=
  "Column types are different after row {0}" +:+ nl +:+ "{1}".

(** The rows of [errdf] kept by [errdf[errdf['diff']]]. *)
Definition schema_diff (names : list string) (schema1 schema2 : list dtype)
  : list (string * dtype * dtype) :=
  filter (fun x => x.1.2 ≠ x.2) (zip (zip names schema1) schema2).

(** The loop of [__iter__] over the chunks the factory delivers: [sch] is
    the schema of the first chunk once it is known, [rows] the number of
    rows yielded so far. *)
Fixpoint iter_loop (check : bool) (sch : option (list string * list dtype))
    (rows : nat) (its : list DataFrame) (fin : option exn) : trace DataFrame :=
  match its with
  | [] => Trace [] fin
  | it :: rest =>
      match sch with
      | None =>
          yield_ it (iter_loop check (Some (columns it, dtypes it))
                       (rows + nrows it) rest fin)
      | Some (names, types) =>
          if check then
            if bool_decide (columns it ≠ names) then
              fail_ (Raise StreamingDataFrameSchemaError names_msg
                       [FInt (Z.of_nat rows); FNames names; FNames (columns it)])
            else if bool_decide (dtypes it ≠ types) then
              fail_ (Raise StreamingDataFrameSchemaError types_msg
                       [FInt (Z.of_nat rows);
                        FDiff (schema_diff names types (dtypes it))])
            else yield_ it (iter_loop check sch (rows + nrows it) rest fin)
          else yield_ it (iter_loop check sch (rows + nrows it) rest fin)
      end
  end.

(** [StreamingDataFrame.__iter__]. *)
Definition __iter__ (self : StreamingDataFrame) : World -> trace DataFrame * World :=
  fun w =>
    let '(iters, w') := iter_creation self w in
    (iter_loop (check_schema self) None 0 (yielded iters) (raised iters), w').

(** A derived iterator that walks [self] and hands the walk to [k]. *)
Definition walking (self : StreamingDataFrame)
    (k : list DataFrame -> option exn -> trace DataFrame) : factory :=
  fun w =>
    let '(tr, w') := __iter__ self w in (k (yielded tr) (raised tr), w').

(** [range(start, stop, step)]. *)
Definition py_range (start stop step : Z) : result (list Z) :=
  if step =? 0 then
    Error (Raise ValueError "range() arg 3 must not be zero" [])
  else
    let count :=
      if 0 <? step then (stop - start + step - 1) `div` step
      else (start - stop - step - 1) `div` (- step) in
    Ok ((fun k => start + Z.of_nat k * step) <$> seq 0 (Z.to_nat count)).

(** [read_df]: splits a dataframe into chunks.  [chunksize=None] stands
    for the number of rows of [df]. *)
Definition read_df (df : DataFrame) (chunksize : option Z)
    (check_schema : bool) : StreamingDataFrame :=
  let chunksize := default (Z.of_nat (nrows df)) chunksize in
  let size := Z.of_nat (nrows df) in
  let local_iterator : factory := fun w =>
    match py_range 0 size chunksize with
    | Error e => (fail_ e, w)
    | Ok starts =>
        (finished ((fun i => slice i (Z.min size (i + chunksize)) df)
                     <$> starts), w)
    end in
  __init__ (inl local_iterator) check_schema true.

(** A full walk, as done by a [for] loop that never leaves early. *)
Definition collect (self : StreamingDataFrame) : M (list DataFrame) :=
  fun w =>
    let '(tr, w') := __iter__ self w in
    match raised tr with
    | Some e => (Error e, w')
    | None => (Ok (yielded tr), w')
    end.

(** [to_dataframe], [to_df]. *)
Definition to_dataframe (self : StreamingDataFrame) : M DataFrame :=
  fun w =>
    match collect self w with
    | (Ok chunks, w') => (pandas_concat chunks, w')
    | (Error e, w') => (Error e, w')
    end.
Definition to_df := to_dataframe.

(** The loop of [head]: [n] is decremented, [total] accumulated, [st]
    collects the heads; the loop leaves as soon as [total >= n]. *)
Fixpoint head_loop (n total : Z) (st : list DataFrame)
    (its : list DataFrame) (fin : option exn) : result (list DataFrame) :=
  match its with
  | [] => match fin with Some e => Error e | None => Ok st end
  | df :: rest =>
      let h := df_head n df in
      let total := total + Z.of_nat (nrows h) in
      let st := st ++ [h] in
      if n <=? total then Ok st
      else head_loop (n - Z.of_nat (nrows h)) total st rest fin
  end.

(** [head]; the Python method returns [None] when there is no chunk. *)
Definition head (self : StreamingDataFrame) (n : Z) : M (option DataFrame) :=
  fun w =>
    let '(tr, w') := __iter__ self w in
    match head_loop n 0 [] (yielded tr) (raised tr) with
    | Error e => (Error e, w')
    | Ok [] => (Ok None, w')
    | Ok [h] => (Ok (Some h), w')
    | Ok st =>
        match pandas_concat st with
        | Ok df => (Ok (Some df), w')
        | Error e => (Error e, w')
        end
    end.

(** [tail]: [h] is overwritten by every chunk; without any chunk the
    name is unbound at [return h]. *)
Definition tail (self : StreamingDataFrame) (n : Z) : M DataFrame :=
  fun w =>
    match collect self w with
    | (Error e, w') => (Error e, w')
    | (Ok chunks, w') =>
        match last chunks with
        | Some df => (Ok (df_tail n df), w')
        | None =>
            (Error (Raise UnboundLocalError
                      "local variable 'h' referenced before assignment" []),
             w')
        end
    end.

(** *** Derived frames: one pandas call per chunk *)

(** [map(lambda df: op(df), self)]: an exception raised by [op] ends the
    walk at that chunk. *)
Fixpoint map_loop (op : DataFrame -> result DataFrame)
    (its : list DataFrame) (fin : option exn) : trace DataFrame :=
  match its with
  | [] => Trace [] fin
  | df :: rest =>
      match op df with
      | Ok d => yield_ d (map_loop op rest fin)
      | Error e => fail_ e
      end
  end.

(** [where], [apply], [applymap]: [op] stands for the pandas method
    applied with the caller's arguments. *)
Definition where_ (self : StreamingDataFrame)
    (df_where : DataFrame -> result DataFrame) : StreamingDataFrame :=
  __init__ (inl (walking self (map_loop df_where))) (get_kwargs self) true.

Definition apply (self : StreamingDataFrame)
    (df_apply : DataFrame -> result DataFrame) : StreamingDataFrame :=
  __init__ (inl (walking self (map_loop df_apply))) (get_kwargs self) true.

Definition applymap (self : StreamingDataFrame)
    (df_applymap : DataFrame -> result DataFrame) : StreamingDataFrame :=
  __init__ (inl (walking self (map_loop df_applymap))) (get_kwargs self) true.

(** [fillna]: [inplace] defaults to [True] here; either way the filled
    chunk is what comes out. *)
Definition fillna (self : StreamingDataFrame)
    (df_fillna : gmap string pyvalue -> DataFrame -> result DataFrame)
    (kwargs : gmap string pyvalue) : StreamingDataFrame :=
  let iterate_na :=
    if truthy (default (PBool true) (kwargs !! "inplace")) then
      map_loop (df_fillna (<["inplace" := PBool true]> kwargs))
    else map_loop (df_fillna kwargs) in
  __init__ (inl (walking self iterate_na)) (get_kwargs self) true.

(** The argument of [__getitem__]. *)
Inductive item := ItemList (names : list string) | ItemOther (v : pyvalue).

Definition __getitem__ (self : StreamingDataFrame) (args : list item)
  : result StreamingDataFrame :=
  match args with
  | [ItemList names] =>
      Ok (__init__ (inl (walking self (map_loop (select names))))
            (get_kwargs self) true)
  | _ => Error (Raise NotImplementedError
                  "Only a list of columns is supported." [])
  end.

(** The [value] argument of [add_column]. *)
Inductive column_value :=
| ByFunction (f : Row -> Z)
| ByFrame
| ByConstant (z : Z).

Definition add_column (self : StreamingDataFrame) (col : pyvalue)
    (value : column_value) : result StreamingDataFrame :=
  match col with
  | PStr col =>
      match value with
      | ByFunction f =>
          Ok (__init__ (inl (walking self (map_loop (insert_last col f))))
                (get_kwargs self) true)
      | ByFrame =>
          Error (Raise NotImplementedError
                   "Unable set a new column based on a datadframe." [])
      | ByConstant z =>
          Ok (__init__ (inl (walking self
                           (map_loop (fun df => Ok (set_column col z df)))))
                (get_kwargs self) true)
      end
  | _ => Error (Raise NotImplementedError
                  "Only a column as a string is supported." [])
  end.

(** *** Group by *)

Definition not_in_memory : exn :=
  Raise NotImplementedError "Out-of-memory group by is not implemented." [].

(** [lambda_agg] and [lambda_agg_agg] default to [gr.sum()]. *)
Definition aggregation := GroupBy -> result DataFrame.
Definition or_sum (f : option aggregation) : aggregation :=
  default (fun gr => Ok (gb_sum gr)) f.

(** [lambda_agg(df.groupby(by=by, as_index=...))]. *)
Definition grouped (agg : aggregation) (by_ : string) (as_index : bool)
    (df : DataFrame) : result DataFrame :=
  match groupby by_ as_index df with
  | Ok gr => agg gr
  | Error e => Error e
  end.

(** The loop of [groupby]: one aggregate per chunk, with
    [as_index=False]. *)
Fixpoint groupby_loop (lambda_agg : aggregation) (by_ : string)
    (agg : list DataFrame) (its : list DataFrame) (fin : option exn)
  : result (list DataFrame) :=
  match its with
  | [] => match fin with Some e => Error e | None => Ok agg end
  | df :: rest =>
      match grouped lambda_agg by_ false df with
      | Ok a => groupby_loop lambda_agg by_ (agg ++ [a]) rest fin
      | Error e => Error e
      end
  end.

(** [groupby]; [as_index] is the keyword argument passed on to pandas
    (pandas' default is [True]). *)
Definition groupby (self : StreamingDataFrame) (by_ : string)
    (lambda_agg lambda_agg_agg : option aggregation) (in_memory : bool)
    (as_index : bool) : M DataFrame :=
  fun w =>
    if negb in_memory then (Error not_in_memory, w)
    else
      let '(tr, w') := __iter__ self w in
      match groupby_loop (or_sum lambda_agg) by_ [] (yielded tr) (raised tr) with
      | Error e => (Error e, w')
      | Ok agg =>
          match pandas_concat agg with
          | Error e => (Error e, w')
          | Ok conc => (grouped (or_sum lambda_agg_agg) by_ as_index conc, w')
          end
      end.

(** [iterate_cum]: [agg] is [None] before the first chunk, afterwards
    the concatenation of the aggregates seen so far. *)
Fixpoint iterate_cum (lambda_agg lambda_agg_agg : aggregation) (by_ : string)
    (as_index : bool) (agg : option DataFrame)
    (its : list DataFrame) (fin : option exn) : trace DataFrame :=
  match its with
  | [] => Trace [] fin
  | df :: rest =>
      match grouped lambda_agg by_ false df with
      | Error e => fail_ e
      | Ok gragg =>
          let lagg :=
            match agg with
            | None => Ok gragg
            | Some agg => pandas_concat [agg; gragg]
            end in
          match lagg with
          | Error e => fail_ e
          | Ok lagg =>
              match grouped lambda_agg_agg by_ as_index lagg with
              | Error e => fail_ e
              | Ok out =>
                  yield_ out (iterate_cum lambda_agg lambda_agg_agg by_
                                as_index (Some lagg) rest fin)
              end
          end
      end
  end.

(** [iterate_streaming]: every chunk is aggregated on its own, twice with
    [lambda_agg]. *)
Definition iterate_streaming (lambda_agg : aggregation) (by_ : string)
    (as_index : bool) : list DataFrame -> option exn -> trace DataFrame :=
  map_loop (fun df =>
              match grouped lambda_agg by_ false df with
              | Ok gragg => grouped lambda_agg by_ as_index gragg
              | Error e => Error e
              end).

Definition groupby_streaming (self : StreamingDataFrame) (by_ : string)
    (lambda_agg lambda_agg_agg : option aggregation) (in_memory : bool)
    (strategy : string) (as_index : bool) : result StreamingDataFrame :=
  if negb in_memory then Error not_in_memory
  else if bool_decide (strategy = "cum"%string) then
    Ok (__init__ (inl (walking self
                     (iterate_cum (or_sum lambda_agg) (or_sum lambda_agg_agg)
                        by_ as_index None)))
          (get_kwargs self) true)
  else if bool_decide (strategy = "streaming"%string) then
    Ok (__init__ (inl (walking self (iterate_streaming (or_sum lambda_agg)
                                   by_ as_index)))
          (get_kwargs self) true)
  else Error (Raise ValueError "Unknown strategy '{0}'" [FNames [strategy]]).

(** *** Merge *)

(** An operand is either a dataframe or a streaming dataframe. *)
Inductive table :=
| InMemory (df : DataFrame)
| Streamed (sdf : StreamingDataFrame).

(** The inner loop of [iterator_merge], for one chunk [df1] of the left
    frame. *)
Fixpoint merge_inner (key : string) (df1 : DataFrame)
    (its2 : list DataFrame) (fin2 : option exn) : trace DataFrame :=
  match its2 with
  | [] => Trace [] fin2
  | df2 :: rest =>
      match Frame.merge key df1 df2 with
      | Ok df => yield_ df (merge_inner key df1 rest fin2)
      | Error e => fail_ e
      end
  end.

(** The outer loop: the right frame is walked again for every chunk of
    the left one. *)
Fixpoint merge_outer (key : string) (sdf2 : StreamingDataFrame)
    (its1 : list DataFrame) (fin1 : option exn) (w : World)
  : trace DataFrame * World :=
  match its1 with
  | [] => (Trace [] fin1, w)
  | df1 :: rest =>
      let '(tr2, w2) := __iter__ sdf2 w in
      let t := merge_inner key df1 (yielded tr2) (raised tr2) in
      match raised t with
      | Some e => (t, w2)
      | None =>
          let '(t', w') := merge_outer key sdf2 rest fin1 w2 in
          (Trace (yielded t ++ yielded t') (raised t'), w')
      end
  end.

Definition iterator_merge (key : string) (sdf1 sdf2 : StreamingDataFrame)
  : factory :=
  fun w =>
    let '(tr1, w1) := __iter__ sdf1 w in
    merge_outer key sdf2 (yielded tr1) (raised tr1) w1.

(** [merge(right, on=key)]. *)
Definition merge (self : StreamingDataFrame) (right : table) (key : string)
  : StreamingDataFrame :=
  let right :=
    match right with
    | InMemory df => read_df df (Some (Z.of_nat (nrows df))) true
    | Streamed sdf => sdf
    end in
  __init__ (inl (iterator_merge key self right)) (get_kwargs self) true.

(** *** Concatenation *)

(** [others]: one operand or a list of operands. *)
Inductive operands :=
| One (t : table)
| Several (l : list table).

Definition names_differ : string :=
  "Frame others[{0}] do not have the same column names or the same order.".
Definition types_differ : string :=
  "Frame others[{0}] do not have the same column types.".

(** The inner loop of [iterator_concat] over the chunks of one operand:
    [i] is the counter of [enumerate(obj)], [check] is cleared after the
    first chunk.  [sch] is [None] when [this] yielded nothing;
    [list(None)] then raises. *)
Fixpoint concat_obj (sch : option (list string * list dtype)) (check : bool)
    (i : nat) (its : list DataFrame) (fin : option exn) : trace DataFrame :=
  match its with
  | [] => Trace [] fin
  | df :: rest =>
      if check then
        match sch with
        | None => fail_ (Raise TypeError "'NoneType' object is not iterable" [])
        | Some (columns0, dtypes0) =>
            if bool_decide (columns0 ≠ columns df) then
              fail_ (Raise ValueError names_differ [FInt (Z.of_nat i)])
            else if bool_decide (dtypes0 ≠ dtypes df) then
              fail_ (Raise ValueError types_differ [FInt (Z.of_nat i)])
            else yield_ df (concat_obj sch false (S i) rest fin)
        end
      else yield_ df (concat_obj sch false (S i) rest fin)
  end.

(** The loop over [lothers]. *)
Fixpoint concat_others (sch : option (list string * list dtype))
    (lothers : list StreamingDataFrame) (w : World) : trace DataFrame * World :=
  match lothers with
  | [] => (Trace [] None, w)
  | obj :: rest =>
      let '(tr, w1) := __iter__ obj w in
      let t := concat_obj sch true 0 (yielded tr) (raised tr) in
      match raised t with
      | Some e => (t, w1)
      | None =>
          let '(t', w') := concat_others sch rest w1 in
          (Trace (yielded t ++ yielded t') (raised t'), w')
      end
  end.

Definition iterator_concat (this : StreamingDataFrame)
    (lothers : list StreamingDataFrame) : factory :=
  fun w =>
    let '(tr, w1) := __iter__ this w in
    match raised tr with
    | Some e => (tr, w1)
    | None =>
        let sch := (fun df => (columns df, dtypes df)) <$> yielded tr !! 0%nat in
        let '(t', w') := concat_others sch lothers w1 in
        (Trace (yielded tr ++ yielded t') (raised t'), w')
    end.

Definition change_type (obj : table) : StreamingDataFrame :=
  match obj with
  | InMemory df => read_df df (Some (Z.of_nat (nrows df))) true
  | Streamed sdf => sdf
  end.

Definition as_list (others : operands) : list table :=
  match others with
  | One t => [t]
  | Several l => l
  end.

Definition _concatv (self : StreamingDataFrame) (others : operands)
  : StreamingDataFrame :=
  let others := change_type <$> as_list others in
  __init__ (inl (iterator_concat self others)) (get_kwargs self) true.

(** What iterating an operand of [zip] delivers: the chunks of a
    streaming dataframe, but the column labels of a dataframe. *)
Definition zipped (t : table) (w : World)
  : trace (DataFrame + string) * World :=
  match t with
  | Streamed sdf =>
      let '(tr, w') := __iter__ sdf w in
      (Trace (inl <$> yielded tr) (raised tr), w')
  | InMemory df => (finished (inr <$> columns df), w)
  end.

(** One round of [zip]: an item from every iterator, in order; the first
    iterator that has none ends the zip, with its exception if it
    raised. *)
Fixpoint zip_next {A} (ts : list (trace A))
  : list A * list (trace A) + option exn :=
  match ts with
  | [] => inl ([], [])
  | t :: rest =>
      match yielded t with
      | [] => inr (raised t)
      | x :: xs =>
          match zip_next rest with
          | inl (items, rest') => inl (x :: items, Trace xs (raised t) :: rest')
          | inr fin => inr fin
          end
      end
  end.

(** [pandas.concat(list(dfs), axis=1)] for frames with as many rows. *)
Definition concat_columns (dfs : list DataFrame) : DataFrame :=
  match dfs with
  | [] => {| cols := []; rows := [] |}
  | df :: rest =>
      foldl (fun acc d =>
               {| cols := cols acc ++ cols d;
                  rows := zip_with (fun r r' => {| label := label r;
                                                   cells := cells r ++ cells r' |})
                            (rows acc) (rows d) |}) df rest
  end.

Definition shape0 (x : DataFrame + string) : result nat :=
  match x with
  | inl df => Ok (nrows df)
  | inr _ => Error (Raise AttributeError
                      "'str' object has no attribute 'shape'" [])
  end.

Definition different_size : exn :=
  Raise RuntimeError
    "StreamingDataFram cannot merge DataFrame with different size or chunksize" [].

(** The body of the loop of [iterateh] for one tuple [dfs]. *)
Definition concath_step (dfs : list (DataFrame + string)) : result DataFrame :=
  match mapM (fun x => match shape0 x with Ok n => Some n | Error _ => None end) dfs with
  | None => Error (Raise AttributeError
                     "'str' object has no attribute 'shape'" [])
  | Some nrows =>
      if bool_decide (foldr Nat.min (default 0%nat (nrows !! 0%nat)) nrows
                      ≠ foldr Nat.max 0%nat nrows)
      then Error different_size
      else Ok (concat_columns (omap (fun x => match x with
                                              | inl df => Some df
                                              | inr _ => None end) dfs))
  end.

(** [iterateh]: the loop over [zip(self, *others)]; [its] are the chunks
    of [self]. *)
Fixpoint iterateh (its : list (DataFrame + string)) (fin : option exn)
    (others : list (trace (DataFrame + string))) : trace DataFrame :=
  match its with
  | [] => Trace [] fin
  | df :: rest =>
      match zip_next others with
      | inr fin' => Trace [] fin'
      | inl (items, others') =>
          match concath_step (df :: items) with
          | Ok d => yield_ d (iterateh rest fin others')
          | Error e => fail_ e
          end
      end
  end.

(** The iterators of the operands are created in order. *)
Fixpoint zipped_all (ts : list table) (w : World)
  : list (trace (DataFrame + string)) * World :=
  match ts with
  | [] => ([], w)
  | t :: rest =>
      let '(tr, w1) := zipped t w in
      let '(trs, w') := zipped_all rest w1 in
      (tr :: trs, w')
  end.

Definition _concath (self : StreamingDataFrame) (others : operands)
  : StreamingDataFrame :=
  let others := as_list others in
  __init__ (inl (fun w =>
               let '(tr, w1) := zipped (Streamed self) w in
               let '(trs, w') := zipped_all others w1 in
               (iterateh (yielded tr) (raised tr) trs, w')))
    (get_kwargs self) true.

(** [concat(others, axis)]. *)
Definition concat (self : StreamingDataFrame) (others : operands) (axis : Z)
  : result StreamingDataFrame :=
  if axis =? 1 then Ok (_concath self others)
  else if axis =? 0 then Ok (_concatv self others)
  else Error (Raise ValueError "axis must be 0 or 1" []).

(** *** Sampling *)

Definition no_cache : exn :=
  Raise ValueError "cache=False is not available for reservoir sampling." [].

(** The body of the double loop of pass 1 for row [ir] of chunk [i];
    the state is [(indices, seen)].  [x * n < seen - n] is compared on
    the numerator of [x].  [indices[k] = ...] is always in range, [k]
    coming from [randint(0, len(indices) - 1)]. *)
Definition reservoir_visit (n : pyvalue) (i ir : nat)
    (st : list (nat * nat) * Z) : M (list (nat * nat) * Z) :=
  let '(indices, seen) := st in
  let seen := seen + 1 in
  match as_int n with
  | None =>
      raise (Raise TypeError
               "'<' not supported between instances of 'int' and 'NoneType'" [])
  | Some n =>
      if Z.of_nat (length indices) <? n then ret (indices ++ [(i, ir)], seen)
      else
        x <- Numpy.random ;;
        if x * n <? (seen - n) * Numpy.resolution then
          k <- Numpy.randint 0 (Z.of_nat (length indices) - 1) ;;
          ret (<[Z.to_nat k := (i, ir)]> indices, seen)
        else ret (indices, seen)
  end.

(** [for ir, _ in enumerate(df.iterrows())]. *)
Fixpoint reservoir_rows (n : pyvalue) (i ir : nat) (rws : list Row)
    (st : list (nat * nat) * Z) : M (list (nat * nat) * Z) :=
  match rws with
  | [] => ret st
  | _ :: rest =>
      st' <- reservoir_visit n i ir st ;;
      reservoir_rows n i (S ir) rest st'
  end.

(** [for i, df in enumerate(self)]. *)
Fixpoint reservoir_chunks (n : pyvalue) (i : nat) (its : list DataFrame)
    (fin : option exn) (st : list (nat * nat) * Z)
  : M (list (nat * nat) * Z) :=
  match its with
  | [] => match fin with Some e => raise e | None => ret st end
  | df :: rest =>
      st' <- reservoir_rows n i 0 (rows df) st ;;
      reservoir_chunks n (S i) rest fin st'
  end.

(** Pass 1: the identifiers [(chunk, row)] kept in the reservoir. *)
Definition reservoir_select (self : StreamingDataFrame) (n : pyvalue)
  : M (list (nat * nat)) :=
  fun w =>
    let '(tr, w1) := __iter__ self w in
    match reservoir_chunks n 0 (yielded tr) (raised tr) ([], 0) w1 with
    | (Ok (indices, _), w') => (Ok indices, w')
    | (Error e, w') => (Error e, w')
    end.

(** A cell of a column of type [object] holds a Python object.  The
    objects that end up in such a cell here are the [Series] of rows, as
    [iterrows] yields them; the cell is modelled by a number that
    identifies the [Series]: its index (the column names), its name (the
    label of the row) and its values. *)
Definition series_cell (schema : list (string * dtype)) (r : Row) : Z :=
  Z.pos (encode (schema.*1, label r, cells r)).

(** [pandas.DataFrame(buffer)]: [buffer] holds the pairs [(label, Series)]
    that [iterrows] yields, the [Series] with the columns of the chunk it
    was read from.  A list of pairs makes a frame of two columns, named
    [0] and [1] (the strings ["0"] and ["1"] here), the labels in the
    first and the [Series] in the second, and its rows are numbered from
    [0]. *)
Definition buffer_cols : list (string * dtype) :=
  [("0"%string, int64); ("1"%string, object_)].

Definition frame_of_buffer (buffer : list (list (string * dtype) * Row))
  : DataFrame :=
  match buffer with
  | [] => {| cols := []; rows := [] |}
  | _ =>
      {| cols := buffer_cols;
         rows := imap (fun i b => {| label := Z.of_nat i;
                                     cells := [label b.2; series_cell b.1 b.2] |})
                   buffer |}
  end.

(** The inner loop of [reservoir_iterate]: returns the frames yielded
    while reading the rows of chunk [i] and the buffer that is left. *)
Fixpoint reservoir_take (indices : gset (nat * nat)) (chunksize : nat)
    (i ir : nat) (schema : list (string * dtype)) (rws : list Row)
    (buffer : list (list (string * dtype) * Row))
  : list DataFrame * list (list (string * dtype) * Row) :=
  match rws with
  | [] => ([], buffer)
  | row :: rest =>
      if bool_decide ((i, ir) ∈ indices) then
        let buffer := buffer ++ [(schema, row)] in
        if (chunksize <=? length buffer)%nat then
          let '(out, b) :=
            reservoir_take indices chunksize i (S ir) schema rest [] in
          (frame_of_buffer buffer :: out, b)
        else reservoir_take indices chunksize i (S ir) schema rest buffer
      else reservoir_take indices chunksize i (S ir) schema rest buffer
  end.

(** Pass 2, [reservoir_iterate]: walks [self] again and keeps the rows
    whose identifier was selected. *)
Fixpoint reservoir_iterate (indices : gset (nat * nat)) (chunksize : nat)
    (i : nat) (buffer : list (list (string * dtype) * Row))
    (its : list DataFrame) (fin : option exn) : trace DataFrame :=
  match its with
  | [] =>
      match fin with
      | Some e => fail_ e
      | None =>
          if (0 <? length buffer)%nat then finished [frame_of_buffer buffer]
          else finished []
      end
  | df :: rest =>
      let '(out, buffer') :=
        reservoir_take indices chunksize i 0 (cols df) (rows df) buffer in
      let t := reservoir_iterate indices chunksize (S i) buffer' rest fin in
      Trace (out ++ yielded t) (raised t)
  end.

(** [_reservoir_sampling(cache, n, random_state)]; [random_state] is not
    used by the method. *)
Definition _reservoir_sampling (self : StreamingDataFrame) (cache : bool)
    (n : pyvalue) (random_state : option pyvalue) : M StreamingDataFrame :=
  if negb cache then raise no_cache
  else
    indices <- reservoir_select self n ;;
    let indices : gset (nat * nat) := list_to_set indices in
    ret (__init__
           (inl (walking self (reservoir_iterate indices 1000 0 [])))
           true true).

Section Sample.

(** [df.sample] with the keyword arguments [kwargs] of pandas, which draws from numpy's generator. *)
Variable df_sample : gmap string pyvalue -> DataFrame -> M DataFrame.

(** [map] of [df.sample] over [self]. *)
Fixpoint sample_loop (kwargs : gmap string pyvalue) (its : list DataFrame)
    (fin : option exn) (w : World) : trace DataFrame * World :=
  match its with
  | [] => (Trace [] fin, w)
  | df :: rest =>
      match df_sample kwargs df w with
      | (Error e, w1) => (fail_ e, w1)
      | (Ok d, w1) =>
          let '(t, w') := sample_loop kwargs rest fin w1 in (yield_ d t, w')
      end
  end.

(** The last branch of [sample]: neither reservoir nor cache. *)
Definition sample_iter (self : StreamingDataFrame)
    (kwargs : gmap string pyvalue) : StreamingDataFrame :=
  {| iter_creation := fun w =>
       let '(tr, w1) := __iter__ self w in
       sample_loop kwargs (yielded tr) (raised tr) w1;
     check_schema := get_kwargs self;
     stable := false |}.

(** [sample(reservoir, cache, ...)] with the remaining keywords in [kwargs]; the defaults are
    [reservoir=False, cache=False]. *)
Definition sample (self : StreamingDataFrame) (reservoir cache : bool)
    (kwargs : gmap string pyvalue) : M StreamingDataFrame :=
  if reservoir || bool_decide (is_Some (kwargs !! "n")) then
    if bool_decide (is_Some (kwargs !! "frac")) then
      raise (Raise ValueError
               "frac cannot be specified for reservoir sampling." [])
    else
      match kwargs !! "n" with
      | None => raise (Raise KeyError "{0}" [FNames ["n"%string]])
      | Some n =>
          _reservoir_sampling self cache n (kwargs !! "random_state")
      end
  else if cache then
    let sdf := sample_iter self kwargs in
    df <- to_df sdf ;;
    ret (read_df df (Some (Z.of_nat (nrows df))) true)
  else ret (sample_iter self kwargs).

End Sample.

(** *** Constructors on top of a parser *)

(** [_process_kwargs]: takes [check_schema] out of [kwargs]; returns the
    parameters for the constructor and what is left of [kwargs]. *)
Definition _process_kwargs (kwargs : gmap string pyvalue)
  : gmap string pyvalue * gmap string pyvalue :=
  match kwargs !! "check_schema" with
  | Some v => ({["check_schema"%string := v]}, delete "check_schema"%string kwargs)
  | None => (∅, kwargs)
  end.

(** [StreamingDataFrame(f, **kwargs_create)]. *)
Definition create (f : factory) (kwargs_create : gmap string pyvalue)
  : StreamingDataFrame :=
  __init__ (inl f)
    (truthy (default (PBool true) (kwargs_create !! "check_schema"))) true.

Section Parsers.

(** Python objects handed to the parsers: paths, buffers, lists. *)
Variable pyobject : Type.
(** [isinstance(obj, (list, dict))]. *)
Variable is_records : pyobject -> bool.
Variable json_normalize : pyobject -> DataFrame.
Variable StringIO : string -> pyobject.
(** [JsonIterator2Stream(enumerate_json_items(obj, encoding, lines, flatten))]
    of module [dataframe_io_helpers]. *)
Variable json_stream : pyobject -> option pyvalue -> bool -> bool -> pyobject.
(** [pandas.read_csv] and [pandas.read_json] with positional and keyword
    arguments. *)
Variable pandas_read_csv : list pyobject -> gmap string pyvalue -> factory.
Variable pandas_read_json : list pyobject -> gmap string pyvalue -> factory.

Definition iterator_must_be_true : exn :=
  Raise ValueError "If specified, iterator must be True." [].
Definition chunksize_must_not_be_none : exn :=
  Raise ValueError "If specified, chunksize must not be None." [].

(** The keyword arguments [read_csv] and [read_str] give to the parser. *)
Definition csv_kwargs (kwargs : gmap string pyvalue)
  : result (gmap string pyvalue * gmap string pyvalue) :=
  if negb (truthy (default (PBool true) (kwargs !! "iterator"))) then
    Error iterator_must_be_true
  else if negb (truthy (default (PInt 100000) (kwargs !! "chunksize"))) then
    Error chunksize_must_not_be_none
  else
    let '(kwargs_create, kwargs) := _process_kwargs kwargs in
    let kwargs := <["iterator"%string := PBool true]> kwargs in
    let kwargs :=
      if bool_decide (is_Some (kwargs !! "chunksize")) then kwargs
      else <["chunksize"%string := PInt 100000]> kwargs in
    Ok (kwargs_create, kwargs).

Definition read_csv (args : list pyobject) (kwargs : gmap string pyvalue)
  : result StreamingDataFrame :=
  match csv_kwargs kwargs with
  | Error e => Error e
  | Ok (kwargs_create, kwargs) =>
      Ok (create (pandas_read_csv args kwargs) kwargs_create)
  end.

Definition read_str (text : string) (kwargs : gmap string pyvalue)
  : result StreamingDataFrame :=
  match csv_kwargs kwargs with
  | Error e => Error e
  | Ok (kwargs_create, kwargs) =>
      let buffer := StringIO text in
      Ok (create (pandas_read_csv [buffer] kwargs) kwargs_create)
  end.

Definition chunksize_positive : exn :=
  Raise ValueError "chunksize must be a positive integer" [].

(** [read_json(args[0], *args[1:], chunksize, flatten, ...)]; [None] for
    [chunksize] stands for the default [100000]. *)
Definition read_json (arg0 : pyobject) (args : list pyobject)
    (chunksize : option pyvalue) (flatten : bool)
    (kwargs : gmap string pyvalue) : result StreamingDataFrame :=
  let chunksize := default (PInt 100000) chunksize in
  match as_int chunksize with
  | None => Error chunksize_positive
  | Some c =>
      if c <=? 0 then Error chunksize_positive
      else
        let '(kwargs_create, kwargs) := _process_kwargs kwargs in
        let check_schema :=
          truthy (default (PBool true) (kwargs_create !! "check_schema")) in
        if is_records arg0 then
          if flatten then Ok (read_df (json_normalize arg0) None check_schema)
          else Error (Raise NotImplementedError
                        "Cannot retrieve size to infer chunksize for type={0}" [])
        else if bool_decide (kwargs !! "lines" = Some (PStr "stream")) then
          let kwargs := delete "lines"%string kwargs in
          let st := json_stream arg0 (kwargs !! "encoding") true flatten in
          Ok (create (pandas_read_json (st :: args)
                        (<["chunksize"%string := chunksize]>
                           (<["lines"%string := PBool true]> kwargs)))
                kwargs_create)
        else if truthy (default (PBool false) (kwargs !! "lines")) then
          if flatten then
            Error (Raise NotImplementedError
                     "flatten==True is implemented with option lines='stream'" [])
          else
            Ok (create (pandas_read_json (arg0 :: args)
                          (<["chunksize"%string := chunksize]> kwargs))
                  kwargs_create)
        else
          let st := json_stream arg0 (kwargs !! "encoding") false flatten in
          let kwargs := delete "lines"%string kwargs in
          Ok (create (pandas_read_json (st :: args)
                        (<["chunksize"%string := chunksize]>
                           (<["lines"%string := PBool true]> kwargs)))
                kwargs_create)
  end.

End Parsers.

End Streaming.

Import Streaming.

(** ** Accessors of [StreamingDataFrame]

    The remaining methods of the class that read a streaming dataframe.
    They live in a module of their own, [columns] and [dtypes] being also
    the names of the accessors of a dataframe. *)
Module Accessors.

(** [shape]: the rows are added up, the number of columns is the largest
    one seen. *)
Definition shape (self : StreamingDataFrame) : M (nat * nat) :=
  chunks <- collect self ;;
  ret (foldl (fun acc it => ((acc.1 + nrows it)%nat,
                             Nat.max (length (cols it)) acc.2))
         (0%nat, 0%nat) chunks).

(** [for it in self: return f(it)]: only the first chunk is asked for; the
    method returns [None] when there is none.  The generator is dropped
    after its first chunk; the world returned here is the one after a
    full walk, which is the same for a source that leaves the random
    generator alone. *)
Definition of_first {A} (f : DataFrame -> A) (self : StreamingDataFrame)
  : M (option A) :=
  fun w =>
    let '(tr, w') := __iter__ self w in
    match yielded tr with
    | it :: _ => (Ok (Some (f it)), w')
    | [] =>
        match raised tr with
        | Some e => (Error e, w')
        | None => (Ok None, w')
        end
    end.

(** [columns] and [dtypes]. *)
Definition columns : StreamingDataFrame -> M (option (list string)) :=
  of_first Frame.columns.
Definition dtypes : StreamingDataFrame -> M (option (list dtype)) :=
  of_first Frame.dtypes.

(** [iterrows]: the rows of every chunk, one after the other. *)
Definition iterrows (self : StreamingDataFrame) : World -> trace Row * World :=
  fun w =>
    let '(tr, w') := __iter__ self w in
    (Trace (yielded tr ≫= rows) (raised tr), w').

(** The loop of [is_stable] over [zip(self, self)]: [zip] asks the first
    walk, then the second one, for their next chunk before the body looks
    at [i]. *)
Fixpoint stable_loop (n : option nat) (i : nat)
    (l1 : list DataFrame) (fin1 : option exn)
    (l2 : list DataFrame) (fin2 : option exn) : result bool :=
  match l1 with
  | [] => match fin1 with Some e => Error e | None => Ok true end
  | a :: l1 =>
      match l2 with
      | [] => match fin2 with Some e => Error e | None => Ok true end
      | b :: l2 =>
          if match n with Some n => (n <=? i)%nat | None => false end
          then Ok true
          else if bool_decide (a = b) then stable_loop n (S i) l1 fin1 l2 fin2
          else Ok false
      end
  end.

(** [is_stable(do_check, n)]; the defaults are [do_check=False, n=10].
    The two walks are run one after the other here.  [zip] interleaves
    them, which makes a difference only for a source that reads the
    random generator; the statements below are about sources that leave
    it alone. *)
Definition is_stable (self : StreamingDataFrame) (do_check : bool)
    (n : option nat) : M bool :=
  fun w =>
    if do_check then
      let '(tr1, w1) := __iter__ self w in
      let '(tr2, w2) := __iter__ self w1 in
      (stable_loop n 0 (yielded tr1) (raised tr1) (yielded tr2) (raised tr2), w2)
    else (Ok (stable self), w).

Section Astype.

(** [astype] of pandas on one value of a column of type [has], asked as
    [exp]: the value in the new type, or the exception that pandas raises
    when the value cannot be converted (a text that is no number, asked
    as [int64]). *)
Variable convert : dtype -> dtype -> Z -> result Z.








End Astype.

Section ToCsv.

(** [df.to_csv(st, header=...)]: pandas writes the header line when asked
    to, then one line per row, formatted from the types of the columns. *)
Variable header_line : list (string * dtype) -> string.
Variable row_line : list (string * dtype) -> Row -> string.

Definition df_to_csv (header : bool) (df : DataFrame) : string :=
  (if header then header_line (cols df) else ""%string)
  +:+ foldr (fun r s => row_line (cols df) r +:+ s) ""%string (rows df).

(** The loop of [to_csv]: [kwargs['header'] = False] once the first chunk
    is written. *)
Fixpoint to_csv_loop (header : bool) (its : list DataFrame) : string :=
  match its with
  | [] => ""%string
  | df :: rest => df_to_csv header df +:+ to_csv_loop false rest
  end.

(** [to_csv(path_or_buf=None, header=...)]: the text written to the
    [StringIO]; [header] defaults to [True] in pandas. *)
Definition to_csv (self : StreamingDataFrame) (header : bool) : M string :=
  chunks <- collect self ;; ret (to_csv_loop header chunks).

End ToCsv.

End Accessors.

(** * Vocabulary of the statements *)

(** A source that delivers the same chunks, without exception, whenever
    it is called, and leaves the random generator alone (what [read_df]
    and the parsers of a file give). *)
Definition delivers (self : StreamingDataFrame) (chunks : list DataFrame) : Prop :=
  forall w, iter_creation self w = (finished chunks, w).

(** All chunks have the columns (names and types) of [first]. *)
Definition same_schema (first : DataFrame) (chunks : list DataFrame) : Prop :=
  Forall (fun c => columns c = columns first /\ dtypes c = dtypes first) chunks.

(** The rows of a table, chunk after chunk, and their number. *)
Definition all_rows (chunks : list DataFrame) : list Row := chunks ≫= rows.
Definition total_rows (chunks : list DataFrame) : nat :=
  sum_list_with nrows chunks.

(** [chunks] is a way of cutting the dataframe [df] into pieces. *)
Definition chunking (df : DataFrame) (chunks : list DataFrame) : Prop :=
  Forall (fun c => cols c = cols df) chunks /\ all_rows chunks = rows df.

(** A table derived from [parent] by one of the transformation methods. *)
Inductive derived (parent : StreamingDataFrame) : StreamingDataFrame -> Prop :=
| derived_where op : derived parent (where_ parent op)
| derived_apply op : derived parent (apply parent op)
| derived_applymap op : derived parent (applymap parent op)
| derived_merge right key : derived parent (merge parent right key)
| derived_concat others axis t :
    concat parent others axis = Ok t -> derived parent t
| derived_getitem args t :
    __getitem__ parent args = Ok t -> derived parent t
| derived_add_column col value t :
    add_column parent col value = Ok t -> derived parent t
| derived_fillna df_fillna kwargs : derived parent (fillna parent df_fillna kwargs)
| derived_groupby_streaming by_ agg agg_agg in_memory strategy as_index t :
    groupby_streaming parent by_ agg agg_agg in_memory strategy as_index = Ok t ->
    derived parent t.

(** The last chunk a streaming dataframe yields, for a caller that walks
    it to the end. *)
Definition final_chunk (sdf : StreamingDataFrame) : M (option DataFrame) :=
  chunks <- collect sdf ;; ret (last chunks).

(** [self.to_dataframe().groupby(by, as_index=...).sum()]: pandas' group by
    on the materialized table. *)
Definition single_pass (self : StreamingDataFrame) (by_ : string)
    (as_index : bool) : M DataFrame :=
  df <- to_dataframe self ;;
  fun w => (grouped (or_sum None) by_ as_index df, w).

(** The rows of chunk [i], from row [ir] on, whose identifier is in
    [indices]. *)
Fixpoint picked (indices : gset (nat * nat)) (i ir : nat) (rws : list Row)
  : list Row :=
  match rws with
  | [] => []
  | r :: rest =>
      if bool_decide ((i, ir) ∈ indices) then r :: picked indices i (S ir) rest
      else picked indices i (S ir) rest
  end.

(** The selected rows of a table, chunks being counted from [i]. *)
Fixpoint picked_chunks (indices : gset (nat * nat)) (i : nat)
    (chunks : list DataFrame) : list Row :=
  match chunks with
  | [] => []
  | c :: rest => picked indices i 0 (rows c) ++ picked_chunks indices (S i) rest
  end.

(** ** Auxiliary definitions of the proofs *)

(** Inserting a list of keyed rows into groups. *)
Definition ins_all (acc : list (Z * list Z)) (kvs : list (Z * list Z))
  : list (Z * list Z) :=
  fold_left (fun acc kv => agg_insert kv.1 kv.2 acc) kvs acc.

(** Rows of [gr.sum()] with [as_index=False]. *)
Definition numbered_rows (sums : list (Z * list Z)) : list Row :=
  imap (fun i kv => {| label := Z.of_nat i; cells := kv.1 :: kv.2 |}) sums.

(** The frame [gr.sum()] builds from the sums of the groups. *)
Definition summed (key : string * dtype) (others : list (string * dtype))
    (as_index : bool) (sums : list (Z * list Z)) : DataFrame :=
  if as_index then
    {| cols := others;
       rows := (fun kv => {| label := kv.1; cells := kv.2 |}) <$> sums |}
  else {| cols := key :: others; rows := numbered_rows sums |}.

(** The aggregate of one chunk, with [as_index=False]. *)
Definition partial (by_ : string) (ki : nat) (c : DataFrame) : DataFrame :=
  gb_sum {| gb_frame := c; gb_by := by_; gb_key := ki; gb_as_index := false |}.

(** The frame [df1.merge(df2)] once the key is found in both frames. *)
Definition merged (key : string) (k1 k2 : nat) (c1 c2 : list (string * dtype))
    (a b : DataFrame) : DataFrame :=
  {| cols := ((fun ic : nat * (string * dtype) =>
                 if bool_decide (ic.1 = k1) then ic.2
                 else suffixed "_x" (delete k2 c2).*1 ic.2)
                <$> imap pair c1) ++ (suffixed "_y" (delete k1 c1).*1 <$> delete k2 c2);
     rows := imap (fun i c => {| label := Z.of_nat i; cells := c |})
               (join_rows k1 k2 (rows a) (rows b)) |}.

(** Groups in the order of their keys. *)
Fixpoint ascending (groups : list (Z * list Z)) : Prop :=
  match groups with
  | [] => True
  | kv :: rest => Forall (fun x => kv.1 < x.1) rest /\ ascending rest
  end.

(** ** Tables of the examples *)

(** A frame given by its columns and the cells of its rows, labelled
    [start], [start + 1], ... *)
Definition frame (start : Z) (c : list (string * dtype)) (l : list (list Z))
  : DataFrame :=
  {| cols := c;
     rows := imap (fun i x => {| label := start + Z.of_nat i; cells := x |}) l |}.

(** A streaming dataframe over chunks given in advance. *)
Definition of_chunks (chunks : list DataFrame) (check : bool) : StreamingDataFrame :=
  __init__ (inl (fun w => (finished chunks, w))) check true.

Definition AB : list (string * dtype) := [("A"%string, int64); ("B"%string, int64)].
Definition BA : list (string * dtype) := [("B"%string, int64); ("A"%string, int64)].
Definition KX : list (string * dtype) := [("K"%string, int64); ("X"%string, int64)].
Definition KY : list (string * dtype) := [("K"%string, int64); ("Y"%string, int64)].
Definition KF : list (string * dtype) := [("K"%string, int64); ("X"%string, float64)].

Definition three_rows : DataFrame := frame 0 AB [[3; 5]; [4; 6]; [3; 7]].


Definition five_rows : DataFrame :=
  frame 0 AB [[1; 1]; [2; 2]; [3; 3]; [4; 4]; [5; 5]].


(** One chunk of two rows and one chunk of three rows. *)
Definition two_rows : StreamingDataFrame :=
  of_chunks [frame 0 AB [[1; 2]; [3; 4]]] true.
Definition three_rows_sdf : StreamingDataFrame := of_chunks [three_rows] true.

(** Four chunks, the third with its columns swapped. *)
Definition c7_chunks : list DataFrame :=
  [frame 0 AB [[1; 2]; [3; 4]]; frame 2 AB [[5; 6]];
   frame 3 BA [[7; 8]]; frame 4 AB [[9; 10]]].

(** Operands of a concatenation: [c5_self] and [c5_good] have columns
    [A, B], [c5_bad] has them swapped. *)
Definition c5_self : StreamingDataFrame := of_chunks [frame 0 AB [[1; 2]]] true.
Definition c5_good : StreamingDataFrame := of_chunks [frame 0 AB [[3; 4]]] true.
Definition c5_bad : StreamingDataFrame := of_chunks [frame 0 BA [[5; 6]]] true.

(** Tables for [head] and [tail]: three chunks of two rows, and a chunk
    of three rows followed by a chunk of one row. *)
Definition six_rows_by_two : list DataFrame :=
  [frame 0 AB [[1; 1]; [2; 2]]; frame 2 AB [[3; 3]; [4; 4]];
   frame 4 AB [[5; 5]; [6; 6]]].
Definition three_then_one : list DataFrame :=
  [frame 0 AB [[1; 1]; [2; 2]; [3; 3]]; frame 3 AB [[4; 4]]].

(** Two tables sharing the column [K], and a way of cutting each. *)
Definition left_table : DataFrame := frame 0 KX [[1; 10]; [2; 20]; [1; 30]].
Definition left_chunks : list DataFrame :=
  [frame 0 KX [[1; 10]; [2; 20]]; frame 2 KX [[1; 30]]].
Definition right_table : DataFrame := frame 0 KY [[1; 7]; [3; 8]; [2; 9]; [1; 6]].
Definition right_chunks : list DataFrame :=
  [frame 0 KY [[1; 7]]; frame 1 KY [[3; 8]; [2; 9]]; frame 3 KY [[1; 6]]].

(** A sampler standing for [df.sample]: a row is kept when the generator
    delivers an even number. *)
Fixpoint coin_rows (l : list Row) : M (list Row) :=
  match l with
  | [] => ret []
  | r :: rest =>
      fun w =>
        let '(e, w1) := draw w in
        match coin_rows rest w1 with
        | (Ok kept, w') => (Ok (if Nat.even e then r :: kept else kept), w')
        | (Error x, w') => (Error x, w')
        end
  end.

Definition coin_sample (kwargs : gmap string pyvalue) (df : DataFrame)
  : M DataFrame :=
  l <- coin_rows (rows df) ;; ret {| cols := cols df; rows := l |}.


(** Parsers that deliver nothing, to run the constructors. *)
Definition no_parser (args : list string) (kwargs : gmap string pyvalue)
  : factory := fun w => (finished [], w).

(** The pieces of [c] rows of a list: piece [k] starts at [k * c]. *)
Definition pieces {A} (c count : nat) (l : list A) : list (list A) :=
  (fun k => take c (drop (k * c) l)) <$> seq 0 count.

(** Number of chunks of [n] rows cut by [c]. *)
Definition chunk_count (n : nat) (c : Z) : nat :=
  Z.to_nat ((Z.of_nat n + c - 1) `div` c).

(** The chunks [read_df] cuts. *)
Definition cut (df : DataFrame) (c : Z) : list DataFrame :=
  (fun rws => {| cols := cols df; rows := rws |})
    <$> pieces (Z.to_nat c) (chunk_count (nrows df) c) (rows df).

(** [g] after [f], an exception of [f] coming first. *)
Definition then_ (f g : DataFrame -> result DataFrame) (df : DataFrame)
  : result DataFrame :=
  match f df with
  | Ok d => g d
  | Error e => Error e
  end.

(** Two chunks side by side: the columns of [a], then those of [b], row
    by row. *)
Definition beside (a b : DataFrame) : DataFrame :=
  {| cols := cols a ++ cols b;
     rows := zip_with (fun r r' => {| label := label r;
                                      cells := cells r ++ cells r' |})
               (rows a) (rows b) |}.

(** The chunks have the same row labels. *)
Definition same_labels (p : DataFrame * DataFrame) : Prop :=
  label <$> rows p.1 = label <$> rows p.2.

(** The cell of row [r] in the column called [name], for columns [c]. *)
Definition cell (c : list (string * dtype)) (name : string) (r : Row)
  : option Z :=
  index_of name c.*1 ≫= fun i => cells r !! i.

(** [add_column] with a function, on a chunk without that column. *)
Definition extended (col : string) (f : Row -> Z) (df : DataFrame) : DataFrame :=
  {| cols := cols df ++ [(col, int64)];
     rows := (fun r => {| label := label r; cells := cells r ++ [f r] |})
               <$> rows df |}.

(** [df[names]] once the positions [idx] of the names are known. *)
Definition selected (idx : list nat) (df : DataFrame) : DataFrame :=
  {| cols := omap (fun i => cols df !! i) idx;
     rows := (fun r => {| label := label r;
                          cells := omap (fun i => cells r !! i) idx |})
               <$> rows df |}.

(** The identifiers [(chunk, row)] of the rows of a table, in the order
    of the walk; [i] is the number of the first chunk. *)
Fixpoint identifiers (i : nat) (its : list DataFrame) : list (nat * nat) :=
  match its with
  | [] => []
  | c :: rest =>
      ((fun ir => (i, ir)) <$> seq 0 (nrows c)) ++ identifiers (S i) rest
  end.

(** Pass 1 of the reservoir sampling over a list of identifiers. *)
Fixpoint visit_all (n : pyvalue) (ids : list (nat * nat))
    (st : list (nat * nat) * Z) : M (list (nat * nat) * Z) :=
  match ids with
  | [] => ret st
  | id :: rest =>
      st' <- reservoir_visit n id.1 id.2 st ;; visit_all n rest st'
  end.





(** * Iteration and schema checking *)

Lemma total_rows_cons c l : total_rows (c :: l) = (nrows c + total_rows l)%nat.
Proof. reflexivity. Qed.

Lemma total_rows_nil : total_rows [] = 0%nat.
Proof. reflexivity. Qed.

Lemma iter_loop_conform check names types n pre rest fin :
  Forall (fun c => columns c = names /\ dtypes c = types) pre ->
  iter_loop check (Some (names, types)) n (pre ++ rest) fin =
  Trace (pre ++ yielded (iter_loop check (Some (names, types))
                           (n + total_rows pre) rest fin))
        (raised (iter_loop check (Some (names, types))
                   (n + total_rows pre) rest fin)).
Proof.
  intros Hpre. revert n.
  induction Hpre as [|c pre [Hc Ht] _ IH]; intros n.
  - rewrite total_rows_nil, Nat.add_0_r. simpl.
    by destruct (iter_loop _ _ _ _ _).
  - cbn [app iter_loop].
    rewrite !bool_decide_eq_false_2 by (intros H; by apply H).
    rewrite total_rows_cons, Nat.add_assoc.
    destruct check; rewrite IH; reflexivity.
Qed.

Lemma iter_loop_all check names types n chunks :
  Forall (fun c => columns c = names /\ dtypes c = types) chunks ->
  iter_loop check (Some (names, types)) n chunks None = finished chunks.
Proof.
  intros H. rewrite <- (app_nil_r chunks) at 1.
  rewrite iter_loop_conform by done. simpl. by rewrite app_nil_r.
Qed.

(** Walking a source whose chunks share their schema delivers them all. *)
Lemma iter_delivers self first rest w :
  delivers self (first :: rest) -> same_schema first rest ->
  __iter__ self w = (finished (first :: rest), w).
Proof.
  intros Hd Hs. unfold __iter__. rewrite Hd. cbn.
  by rewrite iter_loop_all.
Qed.

Lemma same_cols_schema (s : list (string * dtype)) (first : DataFrame) chunks :
  cols first = s -> Forall (fun c => cols c = s) chunks -> same_schema first chunks.
Proof.
  intros Hf H. unfold same_schema, columns, dtypes.
  eapply Forall_impl; [exact H|]. intros c Hc. simpl in Hc. by rewrite Hc, Hf.
Qed.

Lemma iter_uniform self chunks (s : list (string * dtype)) w :
  delivers self chunks -> Forall (fun c => cols c = s) chunks ->
  __iter__ self w = (finished chunks, w).
Proof.
  intros Hd Hs. destruct chunks as [|first rest].
  - unfold __iter__. by rewrite Hd.
  - apply Forall_cons in Hs as [Hf Hs].
    apply iter_delivers; [done|]. by eapply same_cols_schema.
Qed.

(** C7. With [check_schema] enabled, the walk stops at the first chunk
    whose column names differ from those of the first chunk: the chunks
    before it (which follow the schema) are yielded, the offending chunk
    and the following ones are not, and the exception is a
    [StreamingDataFrameSchemaError] whose message is built from the number
    of rows of the chunks before the offending one and from both sequences
    of names. *)
Theorem iter_names_mismatch_eager
    (self : StreamingDataFrame) (w w' : World)
    (first : DataFrame) (pre : list DataFrame) (bad : DataFrame)
    (post : list DataFrame) (fin : option exn) :
  check_schema self = true ->
  iter_creation self w = (Trace (first :: pre ++ bad :: post) fin, w') ->
  same_schema first pre ->
  columns bad <> columns first ->
  __iter__ self w =
    (Trace (first :: pre)
       (Some (Raise StreamingDataFrameSchemaError names_msg
                [FInt (Z.of_nat (total_rows (first :: pre)));
                 FNames (columns first); FNames (columns bad)])), w').
Proof.
  intros Hcheck Hsrc Hpre Hbad.
  unfold __iter__. rewrite Hsrc, Hcheck. cbn [yielded raised iter_loop].
  rewrite iter_loop_conform by exact Hpre.
  cbn [iter_loop]. rewrite bool_decide_eq_true_2 by exact Hbad.
  cbn. rewrite app_nil_r.
  reflexivity.
Qed.

Lemma iter_names_mismatch_eager_witness :
  __iter__ (of_chunks c7_chunks true) [] =
    (Trace [frame 0 AB [[1; 2]; [3; 4]]; frame 2 AB [[5; 6]]]
       (Some (Raise StreamingDataFrameSchemaError names_msg
                [FInt 3; FNames ["A"%string; "B"%string];
                 FNames ["B"%string; "A"%string]])), []).
Proof.
  apply (iter_names_mismatch_eager (of_chunks c7_chunks true) [] []
           (frame 0 AB [[1; 2]; [3; 4]]) [frame 2 AB [[5; 6]]]
           (frame 3 BA [[7; 8]]) [frame 4 AB [[9; 10]]] None).
  - reflexivity.
  - reflexivity.
  - repeat constructor.
  - discriminate.
Defined.

(** * Flags of derived tables *)

(** C9. Whatever transformation method derives a table from [parent],
    the derived table has the [check_schema] flag of its parent and its
    [stable] flag is [True], whatever the flag of the parent. *)
Theorem derived_flags (parent t : StreamingDataFrame) :
  derived parent t ->
  check_schema t = check_schema parent /\ stable t = true.
Proof.
  destruct 1 as [ | | | | others axis t H | args t H | col value t H | |
                  by_ agg agg_agg in_memory strategy as_index t H ];
    try (split; reflexivity).
  - unfold concat in H. repeat case_match; simplify_eq; split; reflexivity.
  - unfold __getitem__ in H. repeat case_match; simplify_eq; split; reflexivity.
  - unfold add_column in H. repeat case_match; simplify_eq; split; reflexivity.
  - unfold groupby_streaming in H.
    repeat case_match; simplify_eq; split; reflexivity.
Qed.

(** The parent is a random sample without cache, which is not stable. *)
Lemma derived_flags_witness :
  let parent := sample_iter coin_sample (of_chunks [three_rows] false) ∅ in
  stable parent = false /\
  check_schema (where_ parent Ok) = false /\ stable (where_ parent Ok) = true.
Proof.
  split; [reflexivity|].
  apply (derived_flags
           (sample_iter coin_sample (of_chunks [three_rows] false) ∅)
           (where_ (sample_iter coin_sample (of_chunks [three_rows] false) ∅) Ok)).
  constructor.
Defined.

(** * Sampling *)

(** C10. With a keyword [n], [sample] goes to [_reservoir_sampling] even
    with [reservoir=False]; as [cache] is [False] unless given, the call
    raises a [ValueError] and nothing is sampled. *)
Theorem sample_n_without_cache_fails
    (df_sample : gmap string pyvalue -> DataFrame -> M DataFrame)
    (self : StreamingDataFrame) (kwargs : gmap string pyvalue) (n : pyvalue)
    (w : World) :
  kwargs !! "n" = Some n ->
  (kwargs !! "frac" = None ->
   forall cache,
     sample df_sample self false cache kwargs =
     _reservoir_sampling self cache n (kwargs !! "random_state")) /\
  (exists e, sample df_sample self false false kwargs w = (Error e, w) /\
             exn_cls e = ValueError).
Proof.
  intros Hn. unfold sample. rewrite Hn.
  rewrite bool_decide_eq_true_2 by eauto. cbn [orb].
  split.
  - intros Hfrac cache. rewrite Hfrac.
    rewrite bool_decide_eq_false_2 by (intros [? ?]; discriminate).
    reflexivity.
  - case_bool_decide; eauto.
Qed.

Lemma sample_n_without_cache_fails_witness :
  sample coin_sample (of_chunks [three_rows] true) false false
    {["n"%string := PInt 2]} [1%nat; 2%nat] = (Error no_cache, [1%nat; 2%nat]).
Proof.
  assert (Hn : ({["n"%string := PInt 2]} : gmap string pyvalue) !! "n"
               = Some (PInt 2)) by (vm_compute; reflexivity).
  assert (Hfrac : ({["n"%string := PInt 2]} : gmap string pyvalue) !! "frac"
                  = None) by (vm_compute; reflexivity).
  destruct (sample_n_without_cache_fails coin_sample
              (of_chunks [three_rows] true) {["n"%string := PInt 2]} (PInt 2)
              [1%nat; 2%nat] Hn) as [Hpath _].
  rewrite (Hpath Hfrac false). reflexivity.
Defined.

(** * Chunk size of the constructors *)

Lemma csv_kwargs_falsy (kwargs : gmap string pyvalue) (v : pyvalue) :
  kwargs !! "chunksize" = Some v -> truthy v = false ->
  exists e, csv_kwargs kwargs = Error e /\ exn_cls e = ValueError.
Proof.
  intros Hc Hv. unfold csv_kwargs. rewrite Hc.
  destruct (negb (truthy (default _ (kwargs !! "iterator")))); [by eauto|].
  simpl. rewrite Hv. simpl. eauto.
Qed.

Lemma csv_kwargs_default (kwargs : gmap string pyvalue) :
  kwargs !! "chunksize" = None ->
  truthy (default (PBool true) (kwargs !! "iterator")) = true ->
  exists kc kw, csv_kwargs kwargs = Ok (kc, kw) /\
                kw !! "chunksize" = Some (PInt 100000).
Proof.
  intros Hc Hi. unfold csv_kwargs. rewrite Hc, Hi. cbn.
  unfold _process_kwargs.
  destruct (kwargs !! "check_schema") eqn:Hs.
  - rewrite bool_decide_eq_false_2.
    + eexists _, _. split; [reflexivity|]. by rewrite lookup_insert_eq.
    + rewrite lookup_insert_ne, lookup_delete_ne, Hc by done.
      by intros [? ?].
  - rewrite bool_decide_eq_false_2.
    + eexists _, _. split; [reflexivity|]. by rewrite lookup_insert_eq.
    + rewrite lookup_insert_ne, Hc by done. by intros [? ?].
Qed.

(** C8, as the code has it.  [read_json] refuses a chunk size that is not
    a positive integer and uses [100000] when none is given; [read_csv] and
    [read_str] refuse a chunk size that is [None], [0] or otherwise false
    and hand [100000] to the parser when none is given; [read_df] without
    a chunk size uses the number of rows of the dataframe. *)
Theorem chunksize_rules
    (pyobject : Type) (is_records : pyobject -> bool)
    (json_normalize : pyobject -> DataFrame) (StringIO : string -> pyobject)
    (json_stream : pyobject -> option pyvalue -> bool -> bool -> pyobject)
    (pandas_read_csv pandas_read_json :
       list pyobject -> gmap string pyvalue -> factory) :
  (forall arg0 args c flatten kwargs,
     (forall z, as_int c = Some z -> z <= 0) ->
     read_json pyobject is_records json_normalize json_stream pandas_read_json
       arg0 args (Some c) flatten kwargs = Error chunksize_positive) /\
  (forall arg0 args flatten kwargs,
     read_json pyobject is_records json_normalize json_stream pandas_read_json
       arg0 args None flatten kwargs =
     read_json pyobject is_records json_normalize json_stream pandas_read_json
       arg0 args (Some (PInt 100000)) flatten kwargs) /\
  (forall args text kwargs v,
     kwargs !! "chunksize" = Some v -> truthy v = false ->
     (exists e, read_csv pyobject pandas_read_csv args kwargs = Error e /\
                exn_cls e = ValueError) /\
     (exists e, read_str pyobject StringIO pandas_read_csv text kwargs = Error e /\
                exn_cls e = ValueError)) /\
  (forall args text kwargs,
     kwargs !! "chunksize" = None ->
     truthy (default (PBool true) (kwargs !! "iterator")) = true ->
     exists kc kw,
       kw !! "chunksize" = Some (PInt 100000) /\
       read_csv pyobject pandas_read_csv args kwargs =
         Ok (create (pandas_read_csv args kw) kc) /\
       read_str pyobject StringIO pandas_read_csv text kwargs =
         Ok (create (pandas_read_csv [StringIO text] kw) kc)) /\
  (forall df check,
     read_df df None check = read_df df (Some (Z.of_nat (nrows df))) check).
Proof.
  repeat split.
  - intros arg0 args c flatten kwargs Hc. unfold read_json. simpl.
    destruct (as_int c) as [z|] eqn:Hz; [|reflexivity].
    specialize (Hc z eq_refl). by rewrite (proj2 (Z.leb_le z 0) Hc).
  - destruct (csv_kwargs_falsy kwargs v) as (e & He & Hcls); [done..|].
    exists e. unfold read_csv. by rewrite He.
  - destruct (csv_kwargs_falsy kwargs v) as (e & He & Hcls); [done..|].
    exists e. unfold read_str. by rewrite He.
  - intros args text kwargs Hc Hi.
    destruct (csv_kwargs_default kwargs Hc Hi) as (kc & kw & Hk & Hl).
    exists kc, kw. unfold read_csv, read_str. by rewrite Hk.
Qed.

Lemma chunksize_rules_witness :
  read_json string (fun _ => false) (fun _ => three_rows) (fun _ _ _ _ => ""%string)
    no_parser ""%string [] (Some (PInt (-5))) false ∅ = Error chunksize_positive /\
  (exists e, read_csv string no_parser [] {["chunksize"%string := PInt 0]} = Error e /\
             exn_cls e = ValueError) /\
  (exists kc kw, kw !! "chunksize" = Some (PInt 100000) /\
     read_csv string no_parser [] ∅ = Ok (create (no_parser [] kw) kc) /\
     read_str string id no_parser ""%string ∅
       = Ok (create (no_parser [id ""%string] kw) kc)).
Proof.
  destruct (chunksize_rules string (fun _ => false) (fun _ => three_rows) id
              (fun _ _ _ _ => ""%string) no_parser no_parser)
    as (Hjson & _ & Hfalsy & Hdefault & _).
  split; [|split].
  - apply Hjson. intros z [= <-]. lia.
  - apply (Hfalsy [] ""%string {["chunksize"%string := PInt 0]} (PInt 0));
      vm_compute; reflexivity.
  - apply (Hdefault [] ""%string ∅); vm_compute; reflexivity.
Defined.

(** C8 does not hold as stated: [read_df] takes a negative chunk size
    (the walk is then empty, without any exception), and without a chunk
    size the chunks of [read_df] are as long as the dataframe, three rows
    for one table and five for another. *)
Lemma chunksize_counterexample :
  __iter__ (read_df three_rows (Some (-1)) true) [] = (finished [], []) /\
  nrows <$> yielded (__iter__ (read_df three_rows None true) []).1 = [3%nat] /\
  nrows <$> yielded (__iter__ (read_df five_rows None true) []).1 = [5%nat].
Proof. repeat split; vm_compute; reflexivity. Qed.

(** * Vertical concatenation *)

Lemma concat_obj_unchecked sch n l fin :
  raised (concat_obj sch false n l fin) = fin.
Proof. revert n; induction l as [|d l IH]; intros n; simpl; [done|apply IH]. Qed.

(** The number substituted in the message of [iterator_concat] is the
    counter of the chunks of the operand, not the position of the operand:
    it is [0] whenever the check raises. *)
Lemma concat_obj_raises_at_zero sch its fin msg (i : Z) rest :
  raised (concat_obj sch true 0 its fin)
    = Some (Raise ValueError msg (FInt i :: rest)) ->
  fin <> Some (Raise ValueError msg (FInt i :: rest)) ->
  i = 0.
Proof.
  destruct its as [|df its]; simpl.
  - intros -> Hfin. by destruct Hfin.
  - destruct sch as [[c0 t0]|]; [|discriminate].
    destruct (bool_decide (c0 <> columns df)); [by intros [= <- <- <-]|].
    destruct (bool_decide (t0 <> dtypes df)); [by intros [= <- <- <-]|].
    simpl. rewrite concat_obj_unchecked. intros -> Hfin. by destruct Hfin.
Qed.

(** C5, at a failing input: the second operand, [others[1]], has other
    column names; the walk yields the chunks of [self] and of [others[0]]
    and raises with a message that names [others[0]]. *)
Theorem concat_names_wrong_operand :
  __iter__ (_concatv c5_self (Several [Streamed c5_good; Streamed c5_bad])) [] =
    (Trace [frame 0 AB [[1; 2]]; frame 0 AB [[3; 4]]]
       (Some (Raise ValueError names_differ [FInt 0])), []).
Proof. vm_compute. reflexivity. Qed.

(** * Reservoir sampling *)

Lemma randint_range low high k w w' :
  Numpy.randint low high w = (Ok k, w') -> low <= k < high.
Proof.
  unfold Numpy.randint. destruct (high <=? low) eqn:H; [discriminate|].
  destruct (draw w) as [e w1]. intros [= <- <-].
  apply Z.leb_gt in H.
  pose proof (Z.mod_pos_bound (Z.of_nat e) (high - low)). lia.
Qed.

(** The slot replaced in pass 1 is never the last one of the reservoir. *)
Lemma reservoir_visit_keeps_last n i ir indices seen indices' seen' w w' :
  (0 < length indices)%nat ->
  reservoir_visit n i ir (indices, seen) w = (Ok (indices', seen'), w') ->
  length indices' = length indices ->
  last indices' = last indices.
Proof.
  intros Hlen. unfold reservoir_visit.
  destruct (as_int n) as [nz|]; [|discriminate].
  destruct (_ <? nz).
  - intros [= <- <- <-]. rewrite length_app. simpl. lia.
  - unfold bind. destruct (Numpy.random w) as [[x|e] w1]; [|discriminate].
    destruct (_ <? _); [|by intros [= <- <- <-]].
    destruct (Numpy.randint _ _ w1) as [[k|e] w2] eqn:Hk; [|discriminate].
    intros [= <- <- <-] _. apply randint_range in Hk.
    rewrite !last_lookup, length_insert.
    apply list_lookup_insert_ne. lia.
Qed.

Lemma reservoir_visit_fill nz i ir indices seen w :
  (Z.of_nat (length indices) <? nz) = true ->
  reservoir_visit (PInt nz) i ir (indices, seen) w
    = (Ok (indices ++ [(i, ir)], seen + 1), w).
Proof. intros H. unfold reservoir_visit. simpl. rewrite H. reflexivity. Qed.

Lemma reservoir_visit_full nz i ir indices seen w :
  (Z.of_nat (length indices) <? nz) = false ->
  reservoir_visit (PInt nz) i ir (indices, seen) w
    = (x <- Numpy.random ;;
        if x * nz <? (seen + 1 - nz) * Numpy.resolution then
          k <- Numpy.randint 0 (Z.of_nat (length indices) - 1) ;;
          ret (<[Z.to_nat k := (i, ir)]> indices, seen + 1)
        else ret (indices, seen + 1)) w.
Proof. intros H. unfold reservoir_visit. simpl. rewrite H. reflexivity. Qed.

(** C4, at failing inputs.  With [n = 2] and three rows, whatever the
    generator delivers, the second slot still holds the second row: only
    the first slot is ever replaced.  With [n = 1] and two rows the call
    raises, [randint(0, 0)] being refused. *)
Theorem reservoir_last_slot_never_replaced (w : World) :
  (exists first,
     (reservoir_select three_rows_sdf (PInt 2) w).1 = Ok [first; (0%nat, 1%nat)]) /\
  _reservoir_sampling two_rows true (PInt 1) None w
    = (Error (Raise ValueError "low >= high" []), (draw w).2).
Proof.
  split.
  - unfold reservoir_select.
    change (__iter__ three_rows_sdf w) with (finished [three_rows], w).
    cbn [yielded raised finished reservoir_chunks three_rows frame rows imap
         reservoir_rows].
    unfold bind.
    rewrite reservoir_visit_fill by reflexivity.
    rewrite reservoir_visit_fill by reflexivity.
    rewrite reservoir_visit_full by reflexivity.
    unfold bind, Numpy.random. destruct (draw w) as [e w1].
    set (full := [] ++ [(0%nat, 0%nat)] ++ [(0%nat, 1%nat)]).
    destruct (_ <? _).
    + unfold Numpy.randint.
      change (Z.of_nat (length full) - 1 <=? 0) with false.
      cbv iota. destruct (draw w1) as [e' w2].
      change (Z.of_nat (length full) - 1 - 0) with 1.
      rewrite Z.mod_1_r. cbn. eauto.
    + cbn. eauto.
  - unfold _reservoir_sampling, reservoir_select, bind.
    cbv beta iota delta [negb].
    change (__iter__ two_rows w) with (finished [frame 0 AB [[1; 2]; [3; 4]]], w).
    cbn [yielded raised finished reservoir_chunks frame rows imap reservoir_rows].
    unfold bind.
    rewrite reservoir_visit_fill by reflexivity.
    rewrite reservoir_visit_full by reflexivity.
    unfold bind, Numpy.random. destruct (draw w) as [e w1].
    assert (H : (Z.of_nat e `mod` Numpy.resolution * 1
                 <? (0 + 1 + 1 - 1) * Numpy.resolution) = true).
    { apply Z.ltb_lt.
      pose proof (Z.mod_pos_bound (Z.of_nat e) Numpy.resolution).
      unfold Numpy.resolution in *. lia. }
    rewrite H. reflexivity.
Qed.

Lemma iter_of_delivers self chunks w :
  delivers self chunks ->
  __iter__ self w = (iter_loop (check_schema self) None 0 chunks None, w).
Proof. intros Hd. unfold __iter__. by rewrite Hd. Qed.

(** Pass 2 yields frames of two columns, of [chunksize] rows but for the
    last one. *)
Lemma frame_of_buffer_shape buffer :
  buffer <> [] ->
  cols (frame_of_buffer buffer) = buffer_cols /\
  nrows (frame_of_buffer buffer) = length buffer.
Proof.
  destruct buffer as [|b buffer]; [done|]. intros _. split; [done|].
  unfold nrows, frame_of_buffer. cbn [rows]. by rewrite length_imap.
Qed.

Lemma reservoir_take_spec indices chunksize i schema rws :
  (0 < chunksize)%nat ->
  forall ir buffer,
    (length buffer < chunksize)%nat ->
    exists out buffer',
      reservoir_take indices chunksize i ir schema rws buffer = (out, buffer') /\
      (total_rows out + length buffer'
       = length buffer + length (picked indices i ir rws))%nat /\
      (length buffer' < chunksize)%nat /\
      Forall (fun d => cols d = buffer_cols /\ nrows d = chunksize) out.
Proof.
  intros Hpos. induction rws as [|row rws IH]; intros ir buffer Hlen.
  - exists [], buffer. cbn [reservoir_take picked length].
    rewrite total_rows_nil. repeat split; [lia|done|constructor].
  - cbn [reservoir_take picked]. case_bool_decide.
    + destruct (Nat.leb_spec chunksize (length (buffer ++ [(schema, row)])))
        as [Hfull|Hroom].
      * destruct (IH (S ir) []) as (out & b & Hrun & Hrows & Hlen' & Hout);
          [simpl; lia|].
        rewrite Hrun. eexists _, _. split; [reflexivity|].
        destruct (frame_of_buffer_shape (buffer ++ [(schema, row)]))
          as [Hc Hn]; [by destruct buffer|].
        rewrite length_app in Hfull, Hn. cbn [length] in *.
        split; [|split; [done|]].
        -- rewrite total_rows_cons, Hn. lia.
        -- constructor; [|done]. split; [done|lia].
      * destruct (IH (S ir) (buffer ++ [(schema, row)]))
          as (out & b & Hrun & Hrows & Hlen' & Hout); [done|].
        rewrite Hrun. eexists _, _. split; [reflexivity|].
        rewrite length_app in Hrows. cbn [length] in *.
        split; [lia|done].
    + apply IH; done.
Qed.

Lemma reservoir_iterate_spec indices chunksize its fin :
  (0 < chunksize)%nat ->
  forall i buffer,
    (length buffer < chunksize)%nat ->
    raised (reservoir_iterate indices chunksize i buffer its fin) = fin /\
    Forall (fun d => cols d = buffer_cols /\ (0 < nrows d <= chunksize)%nat)
      (yielded (reservoir_iterate indices chunksize i buffer its fin)) /\
    (fin = None ->
     total_rows (yielded (reservoir_iterate indices chunksize i buffer its fin))
     = (length buffer + length (picked_chunks indices i its))%nat).
Proof.
  intros Hpos. induction its as [|c its IH]; intros i buffer Hlen.
  - cbn [reservoir_iterate picked_chunks length]. destruct fin as [e|].
    + repeat split; [constructor|done].
    + destruct buffer as [|b buffer].
      * repeat split; constructor.
      * cbn [length Nat.ltb Nat.leb finished yielded raised].
        destruct (frame_of_buffer_shape (b :: buffer)) as [Hc Hn]; [done|].
        split; [done|]. split.
        -- constructor; [|done]. split; [done|]. rewrite Hn. cbn [length] in *. lia.
        -- intros _. rewrite total_rows_cons, total_rows_nil, Hn. reflexivity.
  - cbn [reservoir_iterate picked_chunks].
    destruct (reservoir_take_spec indices chunksize i (cols c) (rows c) Hpos 0%nat
                buffer Hlen) as (out & b & Hrun & Hrows & Hlen' & Hout).
    rewrite Hrun. destruct (IH (S i) b Hlen') as (Hfin & Hall & Htotal).
    cbn [yielded raised]. split; [done|]. split.
    + apply Forall_app. split; [|done].
      eapply Forall_impl; [exact Hout|]. intros d [? ->]. split; [done|lia].
    + intros ->. unfold total_rows in *.
      rewrite sum_list_with_app, Htotal, length_app by done. lia.
Qed.

(** A walk over chunks that have the same columns checks nothing out. *)
Lemma iter_loop_same_cols check (s : list (string * dtype)) chunks fin :
  Forall (fun c => cols c = s) chunks ->
  iter_loop check None 0 chunks fin = Trace chunks fin.
Proof.
  intros H. destruct H as [|first rest Hf Hrest]; [done|].
  cbn [iter_loop]. rewrite <- (app_nil_r rest) at 1.
  rewrite iter_loop_conform by (by apply (same_cols_schema s)).
  cbn [iter_loop yield_ yielded raised]. by rewrite app_nil_r.
Qed.

Lemma reservoir_walk self indices w :
  __iter__ (__init__ (inl (walking self (reservoir_iterate indices 1000 0 [])))
              true true) w
  = (reservoir_iterate indices 1000 0 [] (yielded (__iter__ self w).1)
       (raised (__iter__ self w).1), (__iter__ self w).2).
Proof.
  unfold __iter__ at 1. cbn [iter_creation __init__ check_schema]. unfold walking.
  destruct (__iter__ self w) as [tr w']. cbn [fst snd yielded raised].
  destruct (reservoir_iterate_spec indices 1000 (yielded tr) (raised tr)
              ltac:(lia) 0%nat []) as (Hfin & Hall & _); [simpl; lia|].
  rewrite (iter_loop_same_cols true buffer_cols).
  - by destruct (reservoir_iterate _ _ _ _ _ _).
  - eapply Forall_impl; [exact Hall|]. by intros d [? _].
Qed.




(** * [head] and [tail] *)

Lemma bind_rows_nil : ([] : list DataFrame) ≫= rows = [].
Proof. reflexivity. Qed.

Lemma df_head_rows n df :
  0 <= n -> rows (df_head n df) = take (Z.to_nat n) (rows df).
Proof. intros H. unfold df_head. simpl. by rewrite (proj2 (Z.leb_le 0 n) H). Qed.

Lemma head_loop_spec its : forall n total st,
  0 < n -> 0 <= total ->
  exists st',
    head_loop n total st its None = Ok (st ++ st') /\
    (st' ≫= rows) `prefix_of` (its ≫= rows) /\
    Z.of_nat (length (st' ≫= rows)) <= n /\
    (its <> [] -> st' <> []) /\
    (forall c its', its = c :: its' ->
       n <= Z.of_nat (nrows c) \/ its' = [] ->
       st' ≫= rows = take (Z.to_nat n) (its ≫= rows)).
Proof.
  induction its as [|df its IH]; intros n total st Hn Ht.
  - exists []. simpl. rewrite app_nil_r. repeat split; try done. lia.
  - cbn [head_loop].
    assert (Hh : rows (df_head n df) = take (Z.to_nat n) (rows df))
      by (apply df_head_rows; lia).
    assert (Hlen : nrows (df_head n df) = Nat.min (Z.to_nat n) (nrows df)).
    { unfold nrows. rewrite Hh. apply length_take. }
    destruct (n <=? total + Z.of_nat (nrows (df_head n df))) eqn:Hbreak.
    + exists [df_head n df]. split; [done|].
      rewrite !bind_cons, bind_rows_nil, app_nil_r, Hh.
      split; [|split; [|split]].
      * eapply prefix_app_r, prefix_take.
      * rewrite length_take. lia.
      * done.
      * intros c its' [= <- <-] [Hc| ->].
        -- rewrite take_app_le; [done|]. unfold nrows in Hc. lia.
        -- by rewrite bind_rows_nil, app_nil_r.
    + apply Z.leb_gt in Hbreak.
      assert (Hall : rows (df_head n df) = rows df).
      { rewrite Hh. apply take_ge. unfold nrows in *. lia. }
      destruct (IH (n - Z.of_nat (nrows (df_head n df)))
                  (total + Z.of_nat (nrows (df_head n df)))
                  (st ++ [df_head n df])) as (st' & Hrun & Hpre & Hle & Hne & Hex);
        [lia..|].
      exists (df_head n df :: st'). split.
      { rewrite Hrun. by rewrite <- app_assoc. }
      rewrite !bind_cons, Hall.
      split; [|split; [|split]].
      * by apply prefix_app.
      * rewrite length_app. unfold nrows in *. rewrite Hall in *. lia.
      * done.
      * intros c its' [= <- <-] [Hc| ->].
        -- unfold nrows in *. rewrite Hall in *. lia.
        -- destruct st' as [|x st'].
           ++ rewrite !bind_rows_nil, app_nil_r. symmetry. apply take_ge.
              unfold nrows in *. rewrite Hall in *. lia.
           ++ simpl in Hrun. injection Hrun as Hrun.
              rewrite <- (app_nil_r (st ++ [df_head n df])) in Hrun at 1.
              apply app_inv_head in Hrun. discriminate.
Qed.

Lemma total_rows_length chunks : total_rows chunks = length (all_rows chunks).
Proof.
  unfold all_rows. induction chunks as [|c l IH]; [done|].
  rewrite bind_cons, length_app, <- IH. reflexivity.
Qed.

Lemma head_rows self first rest n w :
  delivers self (first :: rest) -> same_schema first rest -> 1 <= n ->
  exists h,
    head self n w = (Ok (Some h), w) /\
    rows h `prefix_of` all_rows (first :: rest) /\
    (length (rows h) <= Z.to_nat n)%nat /\
    ((Z.to_nat n <= nrows first)%nat \/ rest = [] ->
     rows h = take (Z.to_nat n) (all_rows (first :: rest))).
Proof.
  intros Hd Hs Hn. unfold head. rewrite (iter_delivers self first rest) by done.
  cbn [finished yielded raised].
  destruct (head_loop_spec (first :: rest) n 0 []) as (st & Hrun & Hpre & Hle & Hne & Hex);
    [lia..|].
  rewrite Hrun. cbn [app].
  specialize (Hex first rest eq_refl).
  assert (Hex' : (Z.to_nat n <= nrows first)%nat \/ rest = [] ->
                 st ≫= rows = take (Z.to_nat n) (all_rows (first :: rest))).
  { intros [H| ->]; apply Hex; [left; lia|by right]. }
  destruct st as [|h [|h' st]].
  - by destruct Hne.
  - exists h. rewrite bind_singleton in *. repeat split; try done. lia.
  - eexists. split; [reflexivity|]. cbn [rows]. repeat split; try done. lia.
Qed.

Lemma tail_rows self first rest n w :
  delivers self (first :: rest) -> same_schema first rest -> 1 <= n ->
  exists t,
    tail self n w = (Ok t, w) /\
    rows t = drop (total_rows (first :: rest)
                   - Nat.min (Z.to_nat n) (nrows (default first (last rest))))
               (all_rows (first :: rest)).
Proof.
  intros Hd Hs Hn. unfold tail, collect.
  rewrite (iter_delivers self first rest) by done.
  cbn [finished yielded raised].
  assert (Hlast : last (first :: rest) = Some (default first (last rest))).
  { destruct rest as [|c rest] using rev_ind; [done|].
    by rewrite last_snoc, app_comm_cons, last_snoc. }
  rewrite Hlast. eexists. split; [reflexivity|].
  unfold df_tail. cbn [rows].
  assert ((n =? 0) = false) as -> by lia.
  assert ((0 <? n) = true) as -> by lia.
  set (lastc := default first (last rest)) in *.
  assert (Hsplit : exists init, first :: rest = init ++ [lastc]).
  { destruct (first :: rest) as [|a l] using rev_ind; [done|].
    rewrite last_snoc in Hlast. injection Hlast as ->. eauto. }
  destruct Hsplit as [init ->].
  rewrite total_rows_length. unfold all_rows.
  rewrite bind_app, bind_singleton, length_app.
  unfold nrows. rewrite drop_app_ge by lia. f_equal. lia.
Qed.

(** C2, as the code has it.  For a table of at least one chunk and
    [n >= 1]: [head(n)] returns, in their order, the rows of a prefix of the
    table, at most [n] of them, and exactly the first [n] rows of the table
    (all of them if there are fewer) when the first chunk holds [n] rows or
    is the only chunk; [tail(n)] returns the last rows of the table, as many
    as [n] or as the last chunk holds if that is less. *)
Theorem head_tail_rows
    (self : StreamingDataFrame) (first : DataFrame) (rest : list DataFrame)
    (n : Z) (w : World) :
  delivers self (first :: rest) -> same_schema first rest -> 1 <= n ->
  (exists h,
     head self n w = (Ok (Some h), w) /\
     rows h `prefix_of` all_rows (first :: rest) /\
     (length (rows h) <= Z.to_nat n)%nat /\
     ((Z.to_nat n <= nrows first)%nat \/ rest = [] ->
      rows h = take (Z.to_nat n) (all_rows (first :: rest)))) /\
  (exists t,
     tail self n w = (Ok t, w) /\
     rows t = drop (total_rows (first :: rest)
                    - Nat.min (Z.to_nat n) (nrows (default first (last rest))))
                (all_rows (first :: rest))).
Proof.
  intros Hd Hs Hn. split; [by apply head_rows|by apply tail_rows].
Qed.

Lemma head_tail_rows_witness :
  (exists h,
     head (of_chunks three_then_one true) 2 [] = (Ok (Some h), []) /\
     rows h = take 2 (all_rows three_then_one)) /\
  (exists t,
     tail (of_chunks three_then_one true) 2 [] = (Ok t, []) /\
     rows t = drop (4 - 1) (all_rows three_then_one)).
Proof.
  destruct (head_tail_rows (of_chunks three_then_one true)
              (frame 0 AB [[1; 1]; [2; 2]; [3; 3]]) [frame 3 AB [[4; 4]]] 2 [])
    as [(h & Hh & _ & _ & Hex) (t & Ht & Hrows)].
  - intros w. reflexivity.
  - repeat constructor.
  - lia.
  - split.
    + exists h. split; [exact Hh|]. apply Hex. left. vm_compute. lia.
    + exists t. split; [exact Ht|exact Hrows].
Defined.

(** C2 does not hold as stated.  [tail(2)] of a table of four rows whose
    last chunk has one row returns one row; [head(5)] of a table of six
    rows in chunks of two returns four rows. *)
Lemma head_tail_counterexample :
  (exists t,
     tail (of_chunks three_then_one true) 2 [] = (Ok t, []) /\
     length (rows t) = 1%nat /\
     Nat.min 2 (total_rows three_then_one) = 2%nat) /\
  (exists h,
     head (of_chunks six_rows_by_two true) 5 [] = (Ok (Some h), []) /\
     length (rows h) = 4%nat /\
     Nat.min 5 (total_rows six_rows_by_two) = 5%nat).
Proof.
  split; eexists; (split; [reflexivity|]); split; reflexivity.
Qed.

(** * Merge *)

Lemma bind_pointwise_perm {A B} (f g : A -> list B) l :
  (forall a, f a ≡ₚ g a) -> l ≫= f ≡ₚ l ≫= g.
Proof.
  intros H. induction l as [|a l IH]; [done|].
  rewrite !bind_cons. by f_equiv.
Qed.

Lemma elem_of_uniques x ks : x ∈ uniques ks <-> x ∈ ks.
Proof.
  induction ks as [|k ks IH]; [done|]. cbn [uniques].
  rewrite !elem_of_cons, list_elem_of_filter. split.
  - intros [->|[_ Hx]]; [by left|right; by apply IH].
  - intros [->|Hx]; [by left|].
    destruct (decide (x = k)) as [->|Hne]; [by left|].
    right. split; [done|by apply IH].
Qed.

Lemma NoDup_uniques ks : NoDup (uniques ks).
Proof.
  induction ks as [|k ks IH]; [constructor|]. cbn [uniques].
  constructor; [|by apply NoDup_filter].
  rewrite list_elem_of_filter. by intros [Hk _].
Qed.

Section Groups.

Context {A : Type} (key : A -> Z).

Lemma groups_nil (ks : list Z) :
  ks ≫= (fun k => filter (fun r => key r = k) (@nil A)) = [].
Proof. induction ks as [|k ks IH]; [done|]. by rewrite bind_cons, IH. Qed.

Lemma groups_skip (ks : list Z) r l :
  key r ∉ ks ->
  ks ≫= (fun k => filter (fun r => key r = k) (r :: l))
  = ks ≫= (fun k => filter (fun r => key r = k) l).
Proof.
  induction ks as [|k ks IH]; [done|]. intros [Hk Hks]%not_elem_of_cons.
  rewrite !bind_cons, IH by done. by rewrite filter_cons_False.
Qed.

Lemma groups_cons (ks : list Z) r l :
  NoDup ks -> key r ∈ ks ->
  ks ≫= (fun k => filter (fun r => key r = k) (r :: l))
  ≡ₚ r :: ks ≫= (fun k => filter (fun r => key r = k) l).
Proof.
  induction ks as [|k ks IH]; [by intros _ ?%elem_of_nil|].
  intros [Hk Hks]%NoDup_cons Hin. rewrite !bind_cons.
  destruct (decide (key r = k)) as [Heq|Hne].
  - rewrite filter_cons_True by done. rewrite groups_skip by (by rewrite Heq).
    done.
  - rewrite filter_cons_False by done.
    apply elem_of_cons in Hin as [?|Hin]; [done|].
    rewrite IH by done. by rewrite Permutation_middle.
Qed.

(** The groups of a list, one after the other, hold the elements of the
    list. *)
Lemma groups_all (ks : list Z) l :
  NoDup ks -> (forall r, r ∈ l -> key r ∈ ks) ->
  ks ≫= (fun k => filter (fun r => key r = k) l) ≡ₚ l.
Proof.
  intros Hks. induction l as [|r l IH]; intros Hin.
  - by rewrite groups_nil.
  - rewrite groups_cons; [|done|apply Hin; by left].
    f_equiv. apply IH. intros x Hx. apply Hin. by right.
Qed.

End Groups.

Lemma bind_bind {A B C} (f : A -> list B) (g : B -> list C) (l : list A) :
  l ≫= (fun a => f a ≫= g) = (l ≫= f) ≫= g.
Proof.
  induction l as [|a l IH]; [done|]. by rewrite !bind_cons, bind_app, IH.
Qed.

Lemma bind_filter_ext {A B} (P : A -> Prop) `{!forall a, Decision (P a)}
    (f g : A -> list B) (l : list A) :
  (forall a, P a -> f a = g a) -> filter P l ≫= f = filter P l ≫= g.
Proof.
  intros Hfg. induction l as [|a l IH]; [done|]. rewrite filter_cons.
  destruct (decide (P a)); [|done]. by rewrite !bind_cons, IH, Hfg.
Qed.

(** The rows of the join are, in another order, the left rows, each one
    with the right rows of its key. *)
Lemma join_rows_left k1 k2 l1 l2 :
  join_rows k1 k2 l1 l2
  ≡ₚ l1 ≫= (fun r1 =>
       filter (fun r2 => (keyed k1 r1).1 = (keyed k2 r2).1) l2 ≫= fun r2 =>
       [cells r1 ++ (keyed k2 r2).2]).
Proof.
  unfold join_rows.
  rewrite <- (groups_all (fun r => (keyed k1 r).1)
                (uniques ((fun r => (keyed k1 r).1) <$> l1)) l1) at 2.
  - rewrite <- bind_bind. apply bind_pointwise_perm. intros k.
    erewrite bind_filter_ext; [reflexivity|]. by intros r1 <-.
  - apply NoDup_uniques.
  - intros r Hr. apply elem_of_uniques, list_elem_of_fmap. by exists r.
Qed.

Lemma join_rows_nil_r k1 k2 l1 : join_rows k1 k2 l1 [] = [].
Proof.
  apply Permutation_nil_r. rewrite join_rows_left.
  induction l1 as [|r l IH]; [done|]. by rewrite bind_cons, IH.
Qed.

Lemma join_rows_app_l k1 k2 l1 l1' l2 :
  join_rows k1 k2 (l1 ++ l1') l2 ≡ₚ join_rows k1 k2 l1 l2 ++ join_rows k1 k2 l1' l2.
Proof. rewrite !join_rows_left. by rewrite bind_app. Qed.

Lemma join_rows_app_r k1 k2 l1 l2 l2' :
  join_rows k1 k2 l1 (l2 ++ l2') ≡ₚ join_rows k1 k2 l1 l2 ++ join_rows k1 k2 l1 l2'.
Proof.
  rewrite !join_rows_left. induction l1 as [|r l1 IH]; [done|].
  rewrite !bind_cons, IH, filter_app, bind_app.
  rewrite <- !(assoc_L (++)). f_equiv.
  rewrite !(assoc_L (++)). f_equiv. apply Permutation_app_comm.
Qed.

Lemma join_rows_chunks_r k1 k2 l1 (chunks : list DataFrame) :
  chunks ≫= (fun b => join_rows k1 k2 l1 (rows b))
  ≡ₚ join_rows k1 k2 l1 (all_rows chunks).
Proof.
  unfold all_rows. induction chunks as [|b chunks IH].
  - by rewrite join_rows_nil_r.
  - rewrite !bind_cons, join_rows_app_r. by f_equiv.
Qed.

Lemma join_rows_chunks_l k1 k2 (chunks : list DataFrame) l2 :
  chunks ≫= (fun a => join_rows k1 k2 (rows a) l2)
  ≡ₚ join_rows k1 k2 (all_rows chunks) l2.
Proof.
  unfold all_rows. induction chunks as [|a chunks IH]; [done|].
  by rewrite !bind_cons, join_rows_app_l, IH.
Qed.

Lemma cells_imap (l : list (list Z)) :
  cells <$> imap (fun i c => {| label := Z.of_nat i; cells := c |}) l = l.
Proof.
  rewrite fmap_imap. unfold compose. simpl. induction l as [|x l IH]; [done|].
  simpl. f_equal. rewrite <- IH at 2. apply imap_ext. done.
Qed.

Lemma merge_found key k1 k2 a b :
  index_of key (columns a) = Some k1 -> index_of key (columns b) = Some k2 ->
  Frame.merge key a b = Ok (merged key k1 k2 (cols a) (cols b) a b).
Proof. intros H1 H2. unfold Frame.merge. by rewrite H1, H2. Qed.

Lemma merge_inner_all key k1 k2 c2 a chunksB :
  index_of key (columns a) = Some k1 -> index_of key c2.*1 = Some k2 ->
  Forall (fun b => cols b = c2) chunksB ->
  merge_inner key a chunksB None
    = finished (merged key k1 k2 (cols a) c2 a <$> chunksB).
Proof.
  intros H1 H2 HB. induction HB as [|b chunksB Hb _ IH]; [done|].
  cbn [merge_inner]. rewrite (merge_found key k1 k2), IH, Hb; [done|done|].
  unfold columns. by rewrite Hb.
Qed.

Lemma merge_outer_all key k1 k2 c1 c2 right chunksA chunksB w :
  index_of key c1.*1 = Some k1 -> index_of key c2.*1 = Some k2 ->
  Forall (fun a => cols a = c1) chunksA ->
  Forall (fun b => cols b = c2) chunksB ->
  (forall w, __iter__ right w = (finished chunksB, w)) ->
  merge_outer key right chunksA None w
    = (finished (chunksA ≫= fun a => merged key k1 k2 c1 c2 a <$> chunksB), w).
Proof.
  intros H1 H2 HA HB Hr. induction HA as [|a chunksA Ha _ IH]; [done|].
  cbn [merge_outer]. rewrite Hr. cbn [yielded raised finished].
  rewrite (merge_inner_all key k1 k2 c2) by (unfold columns; by rewrite ?Ha).
  cbn [raised finished]. rewrite IH. cbn [yielded raised finished].
  by rewrite bind_cons, Ha.
Qed.

Lemma merged_cells key k1 k2 c1 c2 chunksA chunksB :
  cells <$> all_rows (chunksA ≫= fun a => merged key k1 k2 c1 c2 a <$> chunksB)
  = chunksA ≫= fun a => chunksB ≫= fun b => join_rows k1 k2 (rows a) (rows b).
Proof.
  unfold all_rows. induction chunksA as [|a chunksA IH]; [done|].
  rewrite !bind_cons, bind_app, fmap_app, IH. f_equal.
  clear IH. induction chunksB as [|b chunksB IH]; [done|].
  rewrite fmap_cons, !bind_cons, fmap_app, IH. f_equal.
  apply cells_imap.
Qed.

(** C6. Let [chunksA] cut the table [A] into pieces and [chunksB] cut [B]
    into pieces, and let [A.merge(B, on=key)] succeed.  Walking the merge
    of the two streaming tables ends without exception, and the rows it
    yields are, up to their order, the rows of the merge of [A] and [B]. *)
Theorem merge_chunked
    (self right : StreamingDataFrame) (A B : DataFrame)
    (chunksA chunksB : list DataFrame) (key : string) (joined : DataFrame)
    (w : World) :
  delivers self chunksA -> delivers right chunksB ->
  chunking A chunksA -> chunking B chunksB ->
  Frame.merge key A B = Ok joined ->
  exists out,
    __iter__ (merge self (Streamed right) key) w = (finished out, w) /\
    cells <$> all_rows out ≡ₚ cells <$> rows joined.
Proof.
  intros HdA HdB [HcA HrA] [HcB HrB] HAB.
  unfold Frame.merge in HAB.
  destruct (index_of key (columns A)) as [k1|] eqn:H1; [|discriminate].
  destruct (index_of key (columns B)) as [k2|] eqn:H2; [|discriminate].
  injection HAB as <-.
  exists (chunksA ≫= fun a => merged key k1 k2 (cols A) (cols B) a <$> chunksB).
  split.
  - apply (iter_uniform _ _ (cols (merged key k1 k2 (cols A) (cols B) A B))).
    + intros w0. cbn [merge iter_creation __init__]. unfold iterator_merge.
      rewrite (iter_uniform self chunksA (cols A)) by done.
      cbn [yielded raised finished].
      apply merge_outer_all; try done.
      intros w1. by apply (iter_uniform right chunksB (cols B)).
    + apply Forall_bind. apply Forall_forall. intros a _.
      apply Forall_fmap, Forall_forall. intros b _. reflexivity.
  - rewrite merged_cells. cbn [rows]. rewrite cells_imap, <- HrA, <- HrB.
    rewrite <- join_rows_chunks_l.
    apply bind_pointwise_perm. intros a. apply join_rows_chunks_r.
Qed.

Lemma merge_chunked_witness :
  exists out,
    __iter__ (merge (of_chunks left_chunks true)
                (Streamed (of_chunks right_chunks true)) "K") []
      = (finished out, []) /\
    cells <$> all_rows out
      ≡ₚ [[1; 10; 7]; [1; 10; 6]; [2; 20; 9]; [1; 30; 7]; [1; 30; 6]].
Proof.
  edestruct (merge_chunked (of_chunks left_chunks true)
               (of_chunks right_chunks true) left_table right_table
               left_chunks right_chunks "K") as (out & Hout & Hperm).
  - intros w. reflexivity.
  - intros w. reflexivity.
  - split; [repeat constructor|reflexivity].
  - split; [repeat constructor|reflexivity].
  - reflexivity.
  - exists out. split; [exact Hout|]. rewrite Hperm.
    change ([[1; 10; 7]; [1; 10; 6]; [1; 30; 7]; [1; 30; 6]; [2; 20; 9]]
            ≡ₚ [[1; 10; 7]; [1; 10; 6]; [2; 20; 9]; [1; 30; 7]; [1; 30; 6]]).
    do 2 apply Permutation_skip. symmetry.
    apply (@Permutation_cons_app _ _ [[1; 30; 7]; [1; 30; 6]] [] [2; 20; 9]).
    reflexivity.
Defined.

(** * Group by: batch, cumulative and single pass *)

Lemma wrap64_add_l a b : wrap64 (wrap64 a + b) = wrap64 (a + b).
Proof.
  unfold wrap64. f_equal.
  replace ((a + 2 ^ 63) `mod` 2 ^ 64 - 2 ^ 63 + b + 2 ^ 63)
    with ((a + 2 ^ 63) `mod` 2 ^ 64 + b) by ring.
  rewrite Zplus_mod_idemp_l.
  by rewrite <- Z.add_assoc, (Z.add_comm (2 ^ 63) b), Z.add_assoc.
Qed.

Lemma wrap64_add_r a b : wrap64 (a + wrap64 b) = wrap64 (a + b).
Proof. by rewrite (Z.add_comm a (wrap64 b)), wrap64_add_l, (Z.add_comm b a). Qed.

Lemma wrap64_idemp a : wrap64 (wrap64 a) = wrap64 a.
Proof.
  transitivity (wrap64 (wrap64 a + 0)); [by rewrite Z.add_0_r|].
  by rewrite wrap64_add_l, Z.add_0_r.
Qed.

Lemma vadd_comm u v : vadd u v = vadd v u.
Proof.
  unfold vadd. revert v. induction u as [|a u IH]; intros [|b v]; simpl; try done.
  by rewrite IH, Z.add_comm.
Qed.

Lemma vadd_assoc u v x : vadd (vadd u v) x = vadd u (vadd v x).
Proof.
  unfold vadd. revert v x.
  induction u as [|a u IH]; intros [|b v] [|c x]; simpl; try done.
  rewrite IH, wrap64_add_l, wrap64_add_r. do 2 f_equal. lia.
Qed.

Lemma vadd_wrap_r u v : vadd u (wrap64 <$> v) = vadd u v.
Proof.
  unfold vadd. revert v. induction u as [|a u IH]; intros [|b v]; simpl; try done.
  by rewrite IH, wrap64_add_r.
Qed.

Lemma vadd_wrap_l u v : vadd (wrap64 <$> u) v = vadd u v.
Proof. by rewrite vadd_comm, vadd_wrap_r, vadd_comm. Qed.

Lemma wrap_vadd u v : wrap64 <$> vadd u v = vadd u v.
Proof.
  unfold vadd. revert v. induction u as [|a u IH]; intros [|b v]; simpl; try done.
  by rewrite IH, wrap64_idemp.
Qed.

Lemma wrap_wrap (v : list Z) : wrap64 <$> (wrap64 <$> v) = wrap64 <$> v.
Proof.
  rewrite <- list_fmap_compose. apply list_fmap_ext.
  intros i a _. apply wrap64_idemp.
Qed.

Lemma ins_wrap k v acc : agg_insert k (wrap64 <$> v) acc = agg_insert k v acc.
Proof.
  induction acc as [|[k' v'] acc IH]; cbn [agg_insert].
  - by rewrite wrap_wrap.
  - rewrite wrap_wrap, vadd_wrap_r, IH. done.
Qed.

Lemma ins_twice k v v' acc :
  agg_insert k v (agg_insert k v' acc) = agg_insert k (vadd v' v) acc.
Proof.
  induction acc as [|[k' x] acc IH]; cbn [agg_insert].
  - rewrite Z.ltb_irrefl, Z.eqb_refl. by rewrite wrap_vadd, vadd_wrap_l.
  - destruct (k <? k') eqn:Hlt; cbn [agg_insert].
    + rewrite Z.ltb_irrefl, Z.eqb_refl. by rewrite wrap_vadd, vadd_wrap_l.
    + destruct (k =? k') eqn:Heq; cbn [agg_insert].
      * rewrite Hlt, Heq. by rewrite vadd_assoc.
      * by rewrite Hlt, Heq, IH.
Qed.

Lemma ins_comm k1 v1 k2 v2 acc :
  agg_insert k1 v1 (agg_insert k2 v2 acc)
  = agg_insert k2 v2 (agg_insert k1 v1 acc).
Proof.
  destruct (decide (k1 = k2)) as [->|Hne].
  { by rewrite !ins_twice, vadd_comm. }
  induction acc as [|[k' x] acc IH]; cbn [agg_insert].
  - destruct (Z.ltb_spec k1 k2), (Z.ltb_spec k2 k1),
      (Z.eqb_spec k1 k2), (Z.eqb_spec k2 k1); try lia; done.
  - destruct (Z.ltb_spec k1 k'), (Z.ltb_spec k2 k'),
      (Z.eqb_spec k1 k'), (Z.eqb_spec k2 k'); cbn [agg_insert];
    destruct (Z.ltb_spec k1 k2), (Z.ltb_spec k2 k1),
      (Z.eqb_spec k1 k2), (Z.eqb_spec k2 k1); try lia;
    repeat match goal with
    | |- context [?a <? ?b] => destruct (Z.ltb_spec a b); try lia
    | |- context [?a =? ?b] => destruct (Z.eqb_spec a b); try lia
    end; try done; by rewrite IH.
Qed.

Lemma ins_all_cons acc k v kvs :
  ins_all acc ((k, v) :: kvs) = ins_all (agg_insert k v acc) kvs.
Proof. reflexivity. Qed.

Lemma ins_all_ins k v acc kvs :
  ins_all (agg_insert k v acc) kvs = agg_insert k v (ins_all acc kvs).
Proof.
  revert acc. induction kvs as [|[k' v'] kvs IH]; intros acc; [done|].
  by rewrite !ins_all_cons, ins_comm, IH.
Qed.

Lemma ins_all_snoc acc kvs k v :
  ins_all acc (kvs ++ [(k, v)]) = agg_insert k v (ins_all acc kvs).
Proof. unfold ins_all. by rewrite fold_left_app. Qed.

Lemma ins_all_app acc l1 l2 : ins_all acc (l1 ++ l2) = ins_all (ins_all acc l1) l2.
Proof. unfold ins_all. by rewrite fold_left_app. Qed.

Lemma ins_groups k v groups acc :
  ins_all acc (agg_insert k v groups) = agg_insert k v (ins_all acc groups).
Proof.
  revert acc. induction groups as [|[k' v'] groups IH]; intros acc; cbn [agg_insert].
  - apply ins_wrap.
  - destruct (k <? k'); [|destruct (Z.eqb_spec k k') as [->|]].
    + by rewrite !ins_all_cons, ins_wrap, ins_comm, ins_all_ins.
    + by rewrite !ins_all_cons, <- ins_twice, ins_all_ins.
    + rewrite !ins_all_cons. apply IH.
Qed.

(** Grouping the groups again changes nothing. *)
Lemma ins_all_regroup acc kvs : ins_all acc (ins_all [] kvs) = ins_all acc kvs.
Proof.
  induction kvs as [|[k v] kvs IH] using rev_ind; [done|].
  by rewrite !ins_all_snoc, ins_groups, IH.
Qed.

Lemma ins_all_chunks {A} (f : A -> list (Z * list Z)) acc (chunks : list A) :
  ins_all acc (chunks ≫= fun c => ins_all [] (f c)) = ins_all acc (chunks ≫= f).
Proof.
  revert acc. induction chunks as [|c chunks IH]; intros acc; [done|].
  rewrite !bind_cons, !ins_all_app, ins_all_regroup. apply IH.
Qed.

Lemma group_sums_ins_all ki l : group_sums ki l = ins_all [] (keyed ki <$> l).
Proof.
  unfold group_sums, ins_all. generalize (@nil (Z * list Z)).
  induction l as [|r l IH]; intros acc; [done|]. simpl. apply IH.
Qed.

Lemma keyed_numbered_rows sums : keyed 0 <$> numbered_rows sums = sums.
Proof.
  unfold numbered_rows. rewrite fmap_imap.
  transitivity (imap (fun _ (kv : Z * list Z) => kv) sums).
  - apply imap_ext. intros i [k v] _. reflexivity.
  - induction sums as [|x l IH]; [done|]. simpl. f_equal.
    rewrite <- IH at 2. by apply imap_ext.
Qed.

Lemma fmap_bind_list {A B C} (f : B -> C) (g : A -> list B) (l : list A) :
  f <$> (l ≫= g) = l ≫= fun a => f <$> g a.
Proof.
  induction l as [|a l IH]; [done|]. by rewrite !bind_cons, fmap_app, IH.
Qed.

(** Two levels of sums are one level of sums. *)
Lemma group_sums_two_levels ki (chunks : list DataFrame) :
  group_sums 0 (chunks ≫= fun c => numbered_rows (group_sums ki (rows c)))
  = group_sums ki (all_rows chunks).
Proof.
  rewrite !group_sums_ins_all. unfold all_rows.
  rewrite !fmap_bind_list.
  rewrite <- (ins_all_chunks (fun c => keyed ki <$> rows c)).
  f_equal. apply list_bind_ext; [|done]. intros c.
  by rewrite keyed_numbered_rows, group_sums_ins_all.
Qed.

(** The typed sums over columns without doubles are the integer sums. *)
Lemma add_cell_int t a b : t <> float64 -> add_cell t a b = wrap64 (a + b).
Proof. by destruct t. Qed.

Lemma first_cell_int t a : t <> float64 -> first_cell t a = wrap64 a.
Proof. by destruct t. Qed.

Lemma hd_int types : Forall (fun t => t <> float64) types -> hd int64 types <> float64.
Proof. by destruct 1. Qed.

Lemma tl_int types :
  Forall (fun t => t <> float64) types -> Forall (fun t => t <> float64) (tl types).
Proof. by destruct 1. Qed.

Lemma vadd_typed_int types u v :
  Forall (fun t => t <> float64) types -> vadd_typed types u v = vadd u v.
Proof.
  revert types v. induction u as [|a u IH]; intros types [|b v] H; try done.
  cbn [vadd_typed]. unfold vadd. cbn [zip_with].
  rewrite add_cell_int by (by apply hd_int). f_equal.
  apply IH. by apply tl_int.
Qed.

Lemma vfirst_int types v :
  Forall (fun t => t <> float64) types -> vfirst types v = wrap64 <$> v.
Proof.
  revert types. induction v as [|a v IH]; intros types H; [done|].
  cbn [vfirst fmap list_fmap]. rewrite first_cell_int by (by apply hd_int).
  f_equal. apply IH. by apply tl_int.
Qed.

Lemma agg_insert_typed_int types k v acc :
  Forall (fun t => t <> float64) types ->
  agg_insert_typed types k v acc = agg_insert k v acc.
Proof.
  intros H. induction acc as [|[k' v'] acc IH]; cbn [agg_insert_typed agg_insert].
  - by rewrite vfirst_int.
  - by rewrite vfirst_int, vadd_typed_int, IH.
Qed.

Lemma group_sums_typed_int types ki l :
  Forall (fun t => t <> float64) types ->
  group_sums_typed types ki l = group_sums ki l.
Proof.
  intros H. unfold group_sums_typed, group_sums. generalize (@nil (Z * list Z)).
  induction l as [|r l IH]; intros acc; [done|].
  cbn [fold_left]. by rewrite agg_insert_typed_int, IH.
Qed.

Lemma gb_sum_summed g :
  gb_sum g = summed (gb_by g, default int64 (dtypes (gb_frame g) !! gb_key g))
               (delete (gb_key g) (cols (gb_frame g))) (gb_as_index g)
               (group_sums_typed (delete (gb_key g) (cols (gb_frame g))).*2
                  (gb_key g) (rows (gb_frame g))).
Proof. unfold gb_sum, summed. by destruct (gb_as_index g). Qed.

Lemma index_of_head name names : index_of name (name :: names) = Some 0%nat.
Proof. unfold index_of. cbn. by rewrite decide_True. Qed.

Lemma grouped_sum_found by_ as_index ki df :
  index_of by_ (columns df) = Some ki ->
  grouped (or_sum None) by_ as_index df
  = Ok (gb_sum {| gb_frame := df; gb_by := by_; gb_key := ki;
                  gb_as_index := as_index |}).
Proof. intros H. unfold grouped, Frame.groupby. by rewrite H. Qed.

(** The second level, on a frame whose first column is the key. *)
Lemma grouped_sum_keyed by_ d others as_index R :
  grouped (or_sum None) by_ as_index {| cols := (by_, d) :: others; rows := R |}
  = Ok (summed (by_, d) others as_index (group_sums_typed others.*2 0 R)).
Proof.
  rewrite (grouped_sum_found _ _ 0%nat) by apply index_of_head.
  by rewrite gb_sum_summed.
Qed.

Lemma groupby_loop_all by_ ki (first : DataFrame) agg its :
  Forall (fun c => columns c = columns first) its ->
  index_of by_ (columns first) = Some ki ->
  groupby_loop (or_sum None) by_ agg its None = Ok (agg ++ (partial by_ ki <$> its)).
Proof.
  intros Hits Hki. revert agg.
  induction Hits as [|c its Hc _ IH]; intros agg.
  - simpl. by rewrite app_nil_r.
  - cbn [groupby_loop]. rewrite (grouped_sum_found _ _ ki) by (by rewrite Hc).
    rewrite IH, <- app_assoc. reflexivity.
Qed.

Lemma same_schema_columns first chunks :
  same_schema first chunks -> Forall (fun c => columns c = columns first) chunks.
Proof. intros H. eapply Forall_impl; [exact H|]. by intros c [? _]. Qed.

Lemma cols_eq (a b : DataFrame) :
  columns a = columns b -> dtypes a = dtypes b -> cols a = cols b.
Proof.
  unfold columns, dtypes. generalize (cols a) (cols b).
  induction l as [|[s t] l IH]; intros [|[s' t'] l'] Hn Ht; simplify_eq/=; [done|].
  f_equal. by apply IH.
Qed.

Lemma same_schema_cols first rest :
  same_schema first rest -> Forall (fun c => cols c = cols first) rest.
Proof.
  intros H. eapply Forall_impl; [exact H|]. intros c [? ?]. by apply cols_eq.
Qed.

Lemma partial_summed by_ ki c :
  partial by_ ki c
  = summed (by_, default int64 (dtypes c !! ki)) (delete ki (cols c)) false
      (group_sums_typed (delete ki (cols c)).*2 ki (rows c)).
Proof. unfold partial. by rewrite gb_sum_summed. Qed.

(** The rows of the aggregates of chunks that have the columns [c0]. *)
Lemma partial_rows by_ ki c0 (chunks : list DataFrame) :
  Forall (fun c => cols c = c0) chunks ->
  (partial by_ ki <$> chunks) ≫= rows
  = chunks ≫= fun c => numbered_rows (group_sums_typed (delete ki c0).*2 ki (rows c)).
Proof.
  induction 1 as [|c chunks Hc _ IH]; [done|].
  rewrite fmap_cons, !bind_cons, IH. f_equal.
  rewrite partial_summed, Hc. done.
Qed.

(** The second level of sums: what [groupby] and the strategy ['cum']
    sum, the aggregates of the chunks one after the other. *)
Lemma groupby_two_levels self first rest by_ as_index ki w :
  delivers self (first :: rest) -> same_schema first rest ->
  index_of by_ (columns first) = Some ki ->
  groupby self by_ None None true as_index w
  = (Ok (summed (by_, default int64 (dtypes first !! ki)) (delete ki (cols first))
           as_index
           (group_sums_typed (delete ki (cols first)).*2 0
              ((partial by_ ki <$> first :: rest) ≫= rows))), w).
Proof.
  intros Hd Hs Hki. unfold groupby. cbn [negb].
  rewrite (iter_delivers self first rest) by done. cbn [yielded raised finished].
  rewrite (groupby_loop_all by_ ki first).
  2:{ constructor; [done|]. by apply same_schema_columns. }
  2:{ done. }
  cbn [app fmap list_fmap pandas_concat].
  rewrite (partial_summed by_ ki first) at 1. cbn [summed cols].
  by rewrite grouped_sum_keyed.
Qed.

(** The materialized table, grouped in one pass. *)
Lemma groupby_single_pass self first rest by_ as_index ki w :
  delivers self (first :: rest) -> same_schema first rest ->
  index_of by_ (columns first) = Some ki ->
  single_pass self by_ as_index w
  = (Ok (summed (by_, default int64 (dtypes first !! ki)) (delete ki (cols first))
           as_index
           (group_sums_typed (delete ki (cols first)).*2 ki
              (all_rows (first :: rest)))), w).
Proof.
  intros Hd Hs Hki. unfold single_pass, bind, to_dataframe, collect.
  rewrite (iter_delivers self first rest) by done.
  cbn [yielded raised finished pandas_concat].
  rewrite (grouped_sum_found _ _ ki) by done.
  by rewrite gb_sum_summed.
Qed.

(** For integer columns two levels of sums are one level of sums. *)
Lemma two_levels_int by_ ki (first : DataFrame) rest :
  same_schema first rest ->
  Forall (fun c => c.2 <> float64) (delete ki (cols first)) ->
  group_sums_typed (delete ki (cols first)).*2 0
    ((partial by_ ki <$> first :: rest) ≫= rows)
  = group_sums_typed (delete ki (cols first)).*2 ki (all_rows (first :: rest)).
Proof.
  intros Hs Hint.
  assert (Htypes : Forall (fun t => t <> float64) (delete ki (cols first)).*2)
    by (by apply Forall_fmap).
  rewrite (partial_rows by_ ki (cols first))
    by (constructor; [done|by apply same_schema_cols]).
  rewrite !group_sums_typed_int by done.
  rewrite <- group_sums_two_levels. f_equal.
  apply list_bind_ext; [|done]. intros c. by rewrite group_sums_typed_int.
Qed.

Lemma cols_summed key others as_index sums sums' :
  cols (summed key others as_index sums) = cols (summed key others as_index sums').
Proof. by destruct as_index. Qed.

(** The cumulative strategy: chunk [k] sums the aggregates of the first
    [k + 1] chunks. *)
Lemma iterate_cum_running by_ ki first as_index d others its :
  Forall (fun c => columns c = columns first) its ->
  index_of by_ (columns first) = Some ki ->
  forall R,
    iterate_cum (or_sum None) (or_sum None) by_ as_index
      (Some {| cols := (by_, d) :: others; rows := R |}) its None
    = finished ((fun k => summed (by_, d) others as_index
                   (group_sums_typed others.*2 0
                      (R ++ ((partial by_ ki <$> take (S k) its) ≫= rows))))
                <$> seq 0 (length its)).
Proof.
  intros Hits Hki. induction Hits as [|c its Hc _ IH]; intros R; [done|].
  cbn [iterate_cum].
  rewrite (grouped_sum_found _ _ ki) by (by rewrite Hc).
  fold (partial by_ ki c). cbn [pandas_concat cols].
  replace ([{| cols := (by_, d) :: others; rows := R |}; partial by_ ki c] ≫= rows)
    with (R ++ rows (partial by_ ki c))
    by (rewrite !bind_cons; simpl; by rewrite app_nil_r).
  rewrite grouped_sum_keyed, IH.
  cbn [length seq fmap list_fmap].
  unfold yield_, finished. cbn [yielded raised]. f_equal. f_equal.
  - cbn [take]. rewrite take_0. cbn [fmap list_fmap]. rewrite bind_cons.
    change (@nil DataFrame ≫= rows) with (@nil Row). by rewrite app_nil_r.
  - rewrite <- fmap_S_seq, <- list_fmap_compose. apply list_fmap_ext.
    intros i k _. cbn [compose take fmap list_fmap].
    by rewrite bind_cons, app_assoc.
Qed.

Lemma groupby_cum_walk self first rest by_ as_index ki w :
  delivers self (first :: rest) -> same_schema first rest ->
  index_of by_ (columns first) = Some ki ->
  __iter__ (__init__ (inl (walking self
              (iterate_cum (or_sum None) (or_sum None) by_ as_index None)))
              (get_kwargs self) true) w
  = (finished ((fun k => summed (by_, default int64 (dtypes first !! ki))
                   (delete ki (cols first)) as_index
                   (group_sums_typed (delete ki (cols first)).*2 0
                      ((partial by_ ki <$> take (S k) (first :: rest)) ≫= rows)))
               <$> seq 0 (length (first :: rest))), w).
Proof.
  intros Hd Hs Hki.
  set (d := default int64 (dtypes first !! ki)).
  set (others := delete ki (cols first)).
  apply (iter_uniform _ _ (cols (summed (by_, d) others as_index []))).
  - intros w0. cbn [iter_creation __init__]. unfold walking.
    rewrite (iter_delivers self first rest) by done.
    cbn [yielded raised finished iterate_cum].
    rewrite (grouped_sum_found _ _ ki) by done.
    fold (partial by_ ki first). rewrite partial_summed.
    fold d others. cbn [summed]. rewrite grouped_sum_keyed.
    rewrite (iterate_cum_running by_ ki first)
      by (done || by apply same_schema_columns).
    cbn [length seq fmap list_fmap].
    unfold yield_, finished. cbn [yielded raised]. do 2 f_equal. f_equal.
    + cbn [take]. rewrite take_0. cbn [fmap list_fmap]. rewrite bind_cons.
      change (@nil DataFrame ≫= rows) with (@nil Row). rewrite app_nil_r.
      by rewrite partial_summed.
    + rewrite <- fmap_S_seq, <- list_fmap_compose. apply list_fmap_ext.
      intros i k _. cbn [compose take fmap list_fmap].
      rewrite bind_cons. by rewrite partial_summed.
  - apply Forall_fmap, Forall_forall. intros k _. apply cols_summed.
Qed.

(** The cumulative strategy: its last chunk. *)
Lemma groupby_cum self first rest by_ as_index ki w :
  delivers self (first :: rest) -> same_schema first rest ->
  index_of by_ (columns first) = Some ki ->
  exists cum,
    groupby_streaming self by_ None None true "cum" as_index = Ok cum /\
    final_chunk cum w
    = (Ok (Some (summed (by_, default int64 (dtypes first !! ki))
                   (delete ki (cols first)) as_index
                   (group_sums_typed (delete ki (cols first)).*2 0
                      ((partial by_ ki <$> first :: rest) ≫= rows)))), w).
Proof.
  intros Hd Hs Hki. eexists. split; [reflexivity|].
  unfold final_chunk, bind, collect.
  rewrite (groupby_cum_walk self first rest by_ as_index ki) by done.
  cbn [raised yielded finished]. unfold ret. do 2 f_equal.
  change (length (first :: rest)) with (S (length rest)).
  rewrite seq_S, fmap_app. cbn [fmap list_fmap]. rewrite last_snoc.
  rewrite Nat.add_0_l.
  change (S (length rest)) with (length (first :: rest)).
  by rewrite firstn_all.
Qed.

(** A table without any chunk: [pandas.concat] has nothing to
    concatenate, in [groupby] as in [to_dataframe], and the cumulative
    strategy yields nothing. *)
Lemma groupby_without_chunk self by_ as_index w :
  delivers self [] ->
  groupby self by_ None None true as_index w
    = (Error (Raise ValueError "No objects to concatenate" []), w) /\
  single_pass self by_ as_index w
    = (Error (Raise ValueError "No objects to concatenate" []), w) /\
  exists cum,
    groupby_streaming self by_ None None true "cum" as_index = Ok cum /\
    final_chunk cum w = (Ok None, w).
Proof.
  intros Hd. split; [|split].
  - unfold groupby. cbn [negb]. by rewrite (iter_of_delivers self []).
  - unfold single_pass, bind, to_dataframe, collect.
    by rewrite (iter_of_delivers self []).
  - eexists. split; [reflexivity|].
    unfold final_chunk, bind, collect, __iter__.
    cbn [iter_creation __init__]. unfold walking.
    by rewrite (iter_of_delivers self []).
Qed.

(** C1, for integer columns.  For a table of at least one chunk, all
    chunks with the same columns, grouped by one of its columns, the
    columns that are summed being integer columns: the batch strategy
    [groupby], the last chunk yielded by [groupby_streaming] with strategy
    ['cum'], and pandas' group by on the materialized table return the same
    dataframe. *)
Theorem groupby_strategies_agree
    (self : StreamingDataFrame) (first : DataFrame) (rest : list DataFrame)
    (by_ : string) (as_index : bool) (ki : nat) (w : World) :
  delivers self (first :: rest) -> same_schema first rest ->
  index_of by_ (columns first) = Some ki ->
  Forall (fun c => c.2 = int64) (delete ki (cols first)) ->
  exists r cum,
    grouped (or_sum None) by_ as_index
      {| cols := cols first; rows := all_rows (first :: rest) |} = Ok r /\
    groupby self by_ None None true as_index w = (Ok r, w) /\
    groupby_streaming self by_ None None true "cum" as_index = Ok cum /\
    final_chunk cum w = (Ok (Some r), w) /\
    single_pass self by_ as_index w = (Ok r, w).
Proof.
  intros Hd Hs Hki Hint.
  assert (Hnf : Forall (fun c : string * dtype => c.2 <> float64)
                  (delete ki (cols first))).
  { eapply Forall_impl; [exact Hint|]. intros c Hc. by rewrite Hc. }
  destruct (groupby_cum self first rest by_ as_index ki w Hd Hs Hki)
    as (cum & Hcum & Hfinal).
  rewrite (two_levels_int by_ ki first rest Hs Hnf) in Hfinal.
  exists (summed (by_, default int64 (dtypes first !! ki)) (delete ki (cols first))
            as_index
            (group_sums_typed (delete ki (cols first)).*2 ki
               (all_rows (first :: rest)))), cum.
  split; [|split; [|split; [|split]]].
  - rewrite (grouped_sum_found _ _ ki) by done. by rewrite gb_sum_summed.
  - rewrite (groupby_two_levels self first rest by_ as_index ki) by done.
    by rewrite (two_levels_int by_ ki first rest Hs Hnf).
  - exact Hcum.
  - exact Hfinal.
  - by apply groupby_single_pass.
Qed.

Lemma groupby_strategies_agree_witness :
  let sdf := read_df three_rows (Some 1) true in
  let r := {| cols := [("B"%string, int64)];
              rows := [{| label := 3; cells := [12] |};
                       {| label := 4; cells := [6] |}] |} in
  exists cum,
    groupby sdf "A" None None true true [] = (Ok r, []) /\
    groupby_streaming sdf "A" None None true "cum" true = Ok cum /\
    final_chunk cum [] = (Ok (Some r), []) /\
    single_pass sdf "A" true [] = (Ok r, []).
Proof.
  intros sdf r.
  destruct (groupby_strategies_agree sdf (frame 0 AB [[3; 5]])
              [frame 1 AB [[4; 6]]; frame 2 AB [[3; 7]]] "A" true 0%nat [])
    as (r' & cum & Hr & Hbatch & Hcum & Hfinal & Hsingle).
  - intros w. reflexivity.
  - repeat constructor.
  - reflexivity.
  - repeat constructor.
  - vm_compute in Hr. injection Hr as <-.
    exists cum. repeat split; assumption.
Defined.

(** C1 does not hold for columns of doubles: the sum of doubles is
    rounded at every addition, and the two levels of [groupby] do not
    round where one pass does.  One group over two chunks, [1.0] and then
    [1.0, 2^53]: the second chunk sums to [2^53] ([2^53 + 1] is no
    double), so that [groupby] and the last chunk of ['cum'] give [2^53],
    whereas one pass over the three rows gives [2^53 + 2].  The compensated
    sum gives the same values on these columns. *)
Lemma groupby_float_counterexample :
  let sdf := of_chunks [frame 0 KF [[0; 1]];
                        frame 1 KF [[0; 1]; [0; 9007199254740992]]] true in
  let r2 := {| cols := [("X"%string, float64)];
               rows := [{| label := 0; cells := [9007199254740992] |}] |} in
  let r1 := {| cols := [("X"%string, float64)];
               rows := [{| label := 0; cells := [9007199254740994] |}] |} in
  groupby sdf "K" None None true true [] = (Ok r2, []) /\
  (exists cum,
     groupby_streaming sdf "K" None None true "cum" true = Ok cum /\
     final_chunk cum [] = (Ok (Some r2), [])) /\
  single_pass sdf "K" true [] = (Ok r1, []) /\
  r1 <> r2 /\
  compensated_sum [compensated_sum [1]; compensated_sum [1; 9007199254740992]]
  = 9007199254740992 /\
  compensated_sum [1; 1; 9007199254740992] = 9007199254740994.
Proof.
  intros sdf r2 r1. split; [by vm_compute|]. split.
  - eexists. split; [reflexivity|]. by vm_compute.
  - split; [by vm_compute|]. split; [discriminate|]. split; by vm_compute.
Qed.

(** * Reading a dataframe in chunks *)

Lemma pieces_join {A} (c : nat) (l : list A) count :
  (length l <= count * c)%nat -> mjoin (pieces c count l) = l.
Proof.
  unfold pieces. revert l. induction count as [|count IH]; intros l Hl.
  - destruct l; [done|simpl in Hl; lia].
  - cbn [seq fmap list_fmap]. rewrite <- fmap_S_seq, <- list_fmap_compose.
    cbn [mjoin list_join]. rewrite drop_0.
    transitivity (take c l ++ drop c l); [|apply take_drop]. f_equal.
    rewrite <- (IH (drop c l)) by (rewrite length_drop; lia).
    f_equal. apply list_fmap_ext. intros i k _. simpl.
    by rewrite drop_drop, (Nat.add_comm c).
Qed.

Lemma py_range_up size c :
  0 < c -> 0 <= size ->
  py_range 0 size c
  = Ok ((fun k => Z.of_nat k * c) <$> seq 0 (Z.to_nat ((size + c - 1) `div` c))).
Proof.
  intros Hc Hs. unfold py_range.
  assert ((c =? 0) = false) as -> by lia.
  assert ((0 <? c) = true) as -> by lia.
  rewrite Z.sub_0_r. do 2 f_equal.
Qed.

Lemma chunk_count_covers n c :
  0 < c -> (n <= chunk_count n c * Z.to_nat c)%nat.
Proof.
  intros Hc. unfold chunk_count.
  pose proof (Z.div_mod (Z.of_nat n + c - 1) c ltac:(lia)) as Hdm.
  pose proof (Z.mod_pos_bound (Z.of_nat n + c - 1) c Hc) as Hm.
  assert (0 <= (Z.of_nat n + c - 1) `div` c) by (apply Z.div_pos; lia).
  nia.
Qed.

Lemma chunk_count_tight n c k :
  0 < c -> (k < chunk_count n c)%nat -> (k * Z.to_nat c < n)%nat.
Proof.
  intros Hc. unfold chunk_count. intros Hk.
  pose proof (Z.div_mod (Z.of_nat n + c - 1) c ltac:(lia)) as Hdm.
  pose proof (Z.mod_pos_bound (Z.of_nat n + c - 1) c Hc) as Hm.
  assert (0 <= (Z.of_nat n + c - 1) `div` c) by (apply Z.div_pos; lia).
  nia.
Qed.

Lemma read_df_delivers df c check :
  0 < c -> delivers (read_df df (Some c) check) (cut df c).
Proof.
  intros Hc w. unfold read_df. cbn [default iter_creation __init__]. unfold id.
  rewrite py_range_up by lia. f_equal. f_equal.
  unfold cut, pieces, chunk_count. rewrite <- !list_fmap_compose.
  apply list_fmap_ext. intros i k Hk. simpl.
  apply lookup_seq in Hk as [Hki Hk]. simpl in Hki. subst i.
  pose proof (chunk_count_tight (nrows df) c k Hc Hk) as Htight.
  unfold slice, nrows in *. f_equal.
  replace (Z.to_nat (Z.of_nat k * c)) with (k * Z.to_nat c)%nat by nia.
  set (l := drop _ _).
  destruct (Z.min_spec (Z.of_nat (length (rows df))) (Z.of_nat k * c + c))
    as [[Hlt ->]|[Hge ->]].
  - rewrite !take_ge; [done| |]; subst l; rewrite length_drop; nia.
  - f_equal. lia.
Qed.

Lemma cut_cols df c : Forall (fun ch => cols ch = cols df) (cut df c).
Proof. unfold cut. apply Forall_fmap, Forall_forall. by intros. Qed.

Lemma cut_rows df c : 0 < c -> all_rows (cut df c) = rows df.
Proof.
  intros Hc. unfold all_rows, cut. rewrite list_fmap_bind.
  rewrite <- (pieces_join (Z.to_nat c) (rows df) (chunk_count (nrows df) c))
    at 2 by (by apply chunk_count_covers).
  rewrite list_join_bind. apply list_bind_ext; [|done]. by intros.
Qed.

Lemma cut_nonempty df c : 0 < c -> (0 < nrows df)%nat -> cut df c <> [].
Proof.
  intros Hc Hn H. apply (f_equal length) in H. unfold cut, pieces in H.
  rewrite !length_fmap, length_seq in H. simpl in H.
  pose proof (chunk_count_covers (nrows df) c Hc). nia.
Qed.

Lemma read_df_iter df c check w :
  0 < c -> __iter__ (read_df df (Some c) check) w = (finished (cut df c), w).
Proof.
  intros Hc. apply (iter_uniform _ _ (cols df)).
  - by apply read_df_delivers.
  - apply cut_cols.
Qed.

(** X1. [to_dataframe] undoes [read_df]: for a positive chunk size and a
    dataframe with at least one row, materializing the chunks gives the
    dataframe back. *)
Theorem read_df_round_trip df c check w :
  0 < c -> (0 < nrows df)%nat ->
  to_dataframe (read_df df (Some c) check) w = (Ok df, w).
Proof.
  intros Hc Hn. unfold to_dataframe, collect. rewrite read_df_iter by done.
  cbn [yielded raised finished].
  pose proof (cut_nonempty df c Hc Hn) as Hne.
  pose proof (cut_cols df c) as Hcols.
  pose proof (cut_rows df c Hc) as Hrows. unfold all_rows in Hrows.
  destruct (cut df c) as [|first rest]; [done|].
  cbn [pandas_concat]. rewrite Hrows.
  apply Forall_cons in Hcols as [-> _]. by destruct df.
Qed.

(** X2. The chunks of [read_df] for a positive chunk size [c]: their number
    is the number of rows divided by [c], rounded up; chunk [k] has the
    columns of the dataframe and its rows [k * c], ..., and is never
    empty. *)
Theorem read_df_chunks df c check w :
  0 < c ->
  exists chunks,
    __iter__ (read_df df (Some c) check) w = (finished chunks, w) /\
    length chunks = chunk_count (nrows df) c /\
    forall k ch, chunks !! k = Some ch ->
      cols ch = cols df /\
      rows ch = take (Z.to_nat c) (drop (k * Z.to_nat c) (rows df)) /\
      (0 < nrows ch <= Z.to_nat c)%nat.
Proof.
  intros Hc. exists (cut df c). split; [by apply read_df_iter|]. split.
  - unfold cut, pieces. by rewrite !length_fmap, length_seq.
  - intros k ch Hk. unfold cut, pieces in Hk.
    rewrite <- list_fmap_compose in Hk.
    apply list_lookup_fmap_Some in Hk as (j & -> & Hj).
    apply lookup_seq in Hj as [Hjk Hj]. simpl in Hjk. subst j. simpl.
    split; [done|]. split; [done|].
    pose proof (chunk_count_tight (nrows df) c k Hc Hj).
    unfold nrows in *. cbn [rows]. rewrite length_take, length_drop. lia.
Qed.

Lemma read_df_zero_step df c check w :
  default (Z.of_nat (nrows df)) c = 0 ->
  __iter__ (read_df df c check) w
  = (fail_ (Raise ValueError "range() arg 3 must not be zero" []), w).
Proof.
  intros Hstep. unfold __iter__, read_df.
  cbn [iter_creation __init__ check_schema].
  unfold py_range. by rewrite Hstep.
Qed.

(** X3. Chunk sizes that are not positive.  The step of [range] is the
    chunk size, or the number of rows when [chunksize] is [None]: a step
    of zero makes the walk raise [ValueError], a negative one gives a
    walk without any chunk. *)
Theorem read_df_degenerate df c check w :
  let step := default (Z.of_nat (nrows df)) c in
  (step = 0 ->
   __iter__ (read_df df c check) w
   = (fail_ (Raise ValueError "range() arg 3 must not be zero" []), w)) /\
  (step < 0 -> __iter__ (read_df df c check) w = (finished [], w)).
Proof.
  intros step. split; intros Hstep.
  - by apply read_df_zero_step.
  - unfold __iter__, read_df. cbn [iter_creation __init__ check_schema].
    fold step. unfold py_range.
    assert ((step =? 0) = false) as -> by lia.
    assert ((0 <? step) = false) as -> by lia.
    assert (Z.to_nat ((0 - Z.of_nat (nrows df) - step - 1) `div` (- step)) = 0%nat)
      as ->; [|done].
    assert ((0 - Z.of_nat (nrows df) - step - 1) `div` (- step) < 1); [|lia].
    apply Z.div_lt_upper_bound; lia.
Qed.

(** X4. [iterrows] over [read_df]: the rows of the dataframe, in their
    order, whatever the chunk size. *)
Theorem iterrows_read_df df c check w :
  0 < c ->
  Accessors.iterrows (read_df df (Some c) check) w = (Trace (rows df) None, w).
Proof.
  intros Hc. unfold Accessors.iterrows. rewrite read_df_iter by done.
  cbn [yielded raised finished]. by rewrite <- (cut_rows df c Hc).
Qed.

Lemma shape_fold m (chunks : list DataFrame) a b :
  Forall (fun c => length (cols c) = m) chunks ->
  foldl (fun acc it => ((acc.1 + nrows it)%nat, Nat.max (length (cols it)) acc.2))
    (a, b) chunks
  = ((a + total_rows chunks)%nat,
     match chunks with [] => b | _ => Nat.max m b end).
Proof.
  intros H. revert a b. induction H as [|c chunks Hc _ IH]; intros a b.
  - cbn [foldl]. by rewrite total_rows_nil, Nat.add_0_r.
  - cbn [foldl fst snd]. rewrite IH, total_rows_cons, Hc, Nat.add_assoc.
    f_equal. destruct chunks; lia.
Qed.

(** X5. [shape] of a table whose chunks share their schema: the rows of all
    chunks, and the columns of one. *)
Theorem shape_of_table self first rest w :
  delivers self (first :: rest) -> same_schema first rest ->
  Accessors.shape self w
  = (Ok (total_rows (first :: rest), length (cols first)), w).
Proof.
  intros Hd Hs. unfold Accessors.shape, bind, collect.
  rewrite (iter_delivers self first rest) by done.
  cbn [yielded raised finished ret].
  rewrite (shape_fold (length (cols first))).
  - by rewrite Nat.add_0_l, Nat.max_0_r.
  - constructor; [done|]. eapply Forall_impl; [exact Hs|].
    intros c [Hn _]. unfold columns in Hn.
    by rewrite <- (length_fmap fst (cols c)), Hn, length_fmap.
Qed.

(** * The walk of a table *)

Lemma iter_loop_unchecked sch n its fin :
  iter_loop false sch n its fin = Trace its fin.
Proof.
  revert sch n. induction its as [|it its IH]; intros sch n; [done|].
  cbn [iter_loop]. destruct sch as [[names types]|]; by rewrite IH.
Qed.

Lemma iter_unchecked self w :
  check_schema self = false -> __iter__ self w = iter_creation self w.
Proof.
  intros Hc. unfold __iter__. destruct (iter_creation self w) as [[its fin] w'].
  by rewrite Hc, iter_loop_unchecked.
Qed.

(** X6. Without [check_schema] a walk is what the factory delivers, whatever
    the columns of the chunks. *)
Theorem iter_without_check self w :
  check_schema self = false -> __iter__ self w = iter_creation self w.
Proof. apply iter_unchecked. Qed.

Lemma schema_diff_differs names types types' :
  Forall (fun x => x.1.2 <> x.2) (schema_diff names types types').
Proof. unfold schema_diff. apply Forall_forall. intros x Hx. by apply list_elem_of_filter in Hx as [? _]. Qed.

Lemma schema_diff_nonempty names types types' :
  length names = length types -> length types = length types' ->
  types <> types' -> schema_diff names types types' <> [].
Proof.
  revert types types'. induction names as [|s names IH];
    intros [|t types] [|t' types'] Hn Ht Hne; simplify_eq/=; try done.
  unfold schema_diff. cbn [zip zip_with]. rewrite filter_cons.
  destruct (decide ((s, t, t').1.2 <> (s, t, t').2)) as [|Heq]; [done|].
  apply dec_stable in Heq. simpl in Heq. subst t'.
  apply IH; [done..|]. congruence.
Qed.

(** X7. With [check_schema] enabled, the walk stops at the first chunk that
    has the names of the first chunk but other types: the chunks before it
    are yielded, and the exception carries the number of rows yielded and
    the columns whose type changed, of which there is at least one. *)
Theorem iter_types_mismatch_eager
    (self : StreamingDataFrame) (w w' : World)
    (first : DataFrame) (pre : list DataFrame) (bad : DataFrame)
    (post : list DataFrame) (fin : option exn) :
  check_schema self = true ->
  iter_creation self w = (Trace (first :: pre ++ bad :: post) fin, w') ->
  same_schema first pre ->
  columns bad = columns first ->
  dtypes bad <> dtypes first ->
  let diff := schema_diff (columns first) (dtypes first) (dtypes bad) in
  __iter__ self w =
    (Trace (first :: pre)
       (Some (Raise StreamingDataFrameSchemaError types_msg
                [FInt (Z.of_nat (total_rows (first :: pre))); FDiff diff])), w') /\
  diff <> [] /\
  Forall (fun x => x.1.2 <> x.2) diff.
Proof.
  intros Hcheck Hsrc Hpre Hnames Htypes diff. split; [|split].
  - unfold __iter__. rewrite Hsrc, Hcheck. cbn [yielded raised iter_loop].
    rewrite iter_loop_conform by exact Hpre.
    cbn [iter_loop]. rewrite bool_decide_eq_false_2 by (intros H; by apply H).
    rewrite bool_decide_eq_true_2 by exact Htypes.
    cbn. rewrite app_nil_r. reflexivity.
  - apply schema_diff_nonempty.
    + unfold columns, dtypes. by rewrite !length_fmap.
    + unfold columns, dtypes in *.
      rewrite !length_fmap, <- (length_fmap fst (cols first)), <- Hnames.
      by rewrite length_fmap.
    + congruence.
  - apply schema_diff_differs.
Qed.

(** What a walk yields, whatever its end. *)
Lemma iter_loop_prefix check sch n its fin :
  yielded (iter_loop check sch n its fin) `prefix_of` its.
Proof.
  revert sch n. induction its as [|it its IH]; intros sch n; [done|].
  cbn [iter_loop]. destruct sch as [[names types]|].
  - destruct check; [|apply prefix_cons, IH].
    repeat case_bool_decide; try apply prefix_nil. apply prefix_cons, IH.
  - apply prefix_cons, IH.
Qed.

Lemma iter_loop_conforms names types n its fin :
  Forall (fun c => columns c = names /\ dtypes c = types)
    (yielded (iter_loop true (Some (names, types)) n its fin)).
Proof.
  revert n. induction its as [|it its IH]; intros n; [constructor|].
  cbn [iter_loop]. repeat case_bool_decide; try constructor.
  - done.
  - apply IH.
Qed.

Lemma iter_loop_complete check sch n its fin :
  raised (iter_loop check sch n its fin) = None ->
  yielded (iter_loop check sch n its fin) = its /\ fin = None.
Proof.
  revert sch n. induction its as [|it its IH]; intros sch n; [done|].
  cbn [iter_loop]. destruct sch as [[names types]|].
  - destruct check.
    + repeat case_bool_decide; try done. cbn. intros Hr.
      destruct (IH _ _ Hr) as [-> ->]. done.
    + cbn. intros Hr. destruct (IH _ _ Hr) as [-> ->]. done.
  - cbn. intros Hr. destruct (IH _ _ Hr) as [-> ->]. done.
Qed.

(** X8. What holds of every walk: the chunks yielded are a prefix of those
    of the factory; with [check_schema] they all have the schema of the
    first one; a walk that ends without exception has yielded them all. *)
Theorem iter_schema_invariant self w :
  let src := (iter_creation self w).1 in
  let tr := (__iter__ self w).1 in
  yielded tr `prefix_of` yielded src /\
  (check_schema self = true ->
   forall first rest, yielded tr = first :: rest -> same_schema first rest) /\
  (raised tr = None -> yielded tr = yielded src /\ raised src = None).
Proof.
  unfold __iter__. destruct (iter_creation self w) as [[its fin] w']. cbn.
  split; [apply iter_loop_prefix|]. split; [|apply iter_loop_complete].
  intros Hc first rest. rewrite Hc. destruct its as [|it its]; [done|].
  cbn [iter_loop yield_ yielded]. intros [= <- <-].
  apply iter_loop_conforms.
Qed.

(** * Stability, tables without a chunk, composition *)

Lemma stable_loop_same n fin l : forall i,
  match n with Some n => (i <= n)%nat | None => True end ->
  Accessors.stable_loop n i l fin l fin
  = match fin with
    | Some e =>
        if match n with Some n => (n <? i + length l)%nat | None => false end
        then Ok true else Error e
    | None => Ok true
    end.
Proof.
  induction l as [|a l IH]; intros i Hi; cbn [Accessors.stable_loop length].
  - destruct fin as [e|]; [|done]. destruct n as [n|]; [|done].
    rewrite Nat.add_0_r. by destruct (Nat.ltb_spec n i); [lia|].
  - destruct n as [n|].
    + destruct (Nat.leb_spec n i) as [Hle|Hlt].
      * destruct fin; [|done]. by destruct (Nat.ltb_spec n (i + S (length l))); [|lia].
      * rewrite bool_decide_eq_true_2 by done. rewrite IH by lia.
        by replace (S i + length l)%nat with (i + S (length l))%nat by lia.
    + rewrite bool_decide_eq_true_2 by done. by rewrite IH.
Qed.

(** X9. [is_stable] on a source whose walks are the same every time.
    Without [do_check] the flag is returned.  With [do_check] the answer
    is never [False]: it is [True] when the walk ends normally or yields
    more than [n] chunks before it raises ([n] counts chunks), and the
    exception of the walk otherwise. *)
Theorem is_stable_reproducible self n l fin w :
  (forall w, __iter__ self w = (Trace l fin, w)) ->
  Accessors.is_stable self false n w = (Ok (stable self), w) /\
  Accessors.is_stable self true n w
  = (match fin with
     | Some e =>
         if match n with Some n => (n <? length l)%nat | None => false end
         then Ok true else Error e
     | None => Ok true
     end, w).
Proof.
  intros H. split; [done|]. unfold Accessors.is_stable. rewrite !H.
  cbn [yielded raised]. rewrite stable_loop_same; [done|].
  destruct n; [lia|done].
Qed.

(** X10. A table without any chunk: [head] returns [None], [tail] raises
    [UnboundLocalError], [to_dataframe] raises the [ValueError] of
    [pandas.concat], [shape] is [(0, 0)], [columns] and [dtypes] return
    [None]. *)
Theorem table_without_chunk self n w :
  delivers self [] ->
  head self n w = (Ok None, w) /\
  tail self n w
    = (Error (Raise UnboundLocalError
                "local variable 'h' referenced before assignment" []), w) /\
  to_dataframe self w
    = (Error (Raise ValueError "No objects to concatenate" []), w) /\
  Accessors.shape self w = (Ok (0%nat, 0%nat), w) /\
  Accessors.columns self w = (Ok None, w) /\
  Accessors.dtypes self w = (Ok None, w).
Proof.
  intros Hd.
  assert (Hiter : __iter__ self w = (finished [], w))
    by (by rewrite (iter_of_delivers self [])).
  unfold head, tail, to_dataframe, Accessors.shape, Accessors.columns,
    Accessors.dtypes, Accessors.of_first, bind, collect.
  rewrite !Hiter. repeat split.
Qed.

Lemma map_loop_compose f g its fin :
  map_loop g (yielded (map_loop f its fin)) (raised (map_loop f its fin))
  = map_loop (then_ f g) its fin.
Proof.
  induction its as [|df its IH]; [done|].
  cbn [map_loop]. unfold then_ at 1.
  destruct (f df) as [d|e]; [|done].
  cbn [yield_ yielded raised map_loop]. destruct (g d); [|done].
  by rewrite IH.
Qed.

(** X11. Without [check_schema], two chunk-wise transformations in a row walk
    like their composition applied once. *)
Theorem apply_compose self f g w :
  check_schema self = false ->
  __iter__ (apply (apply self f) g) w = __iter__ (apply self (then_ f g)) w /\
  __iter__ (applymap (applymap self f) g) w
    = __iter__ (applymap self (then_ f g)) w /\
  __iter__ (where_ (where_ self f) g) w = __iter__ (where_ self (then_ f g)) w.
Proof.
  intros Hc.
  assert (H : forall op, __iter__ (apply (apply self f) op) w
                         = __iter__ (apply self (then_ f op)) w).
  { intros op. unfold apply, get_kwargs.
    rewrite !iter_unchecked by (cbn; exact Hc).
    cbn [iter_creation __init__]. unfold walking.
    rewrite (iter_unchecked (Build_StreamingDataFrame _ _ _))
      by (cbn; exact Hc).
    cbn [iter_creation].
    destruct (__iter__ self w) as [[its fin] w'].
    cbn [yielded raised]. by rewrite map_loop_compose. }
  repeat split; apply H.
Qed.

(** * Concatenation *)

Lemma concat_obj_after sch i l fin : concat_obj sch false i l fin = Trace l fin.
Proof.
  revert i. induction l as [|d l IH]; intros i; [done|].
  cbn [concat_obj]. by rewrite IH.
Qed.

Lemma concat_obj_conform first l fin :
  same_schema first l ->
  concat_obj (Some (columns first, dtypes first)) true 0 l fin = Trace l fin.
Proof.
  intros H. destruct H as [|d l [Hn Ht] _]; [done|].
  cbn [concat_obj]. rewrite !bool_decide_eq_false_2 by (intros ?; congruence).
  by rewrite concat_obj_after.
Qed.

Lemma same_schema_trans first d l :
  columns d = columns first -> dtypes d = dtypes first ->
  same_schema first l -> same_schema d l.
Proof.
  intros Hn Ht H. unfold same_schema in *.
  eapply Forall_impl; [exact H|]. intros c [? ?]. split; congruence.
Qed.

Lemma iter_same_schema self first l w :
  delivers self l -> same_schema first l ->
  __iter__ self w = (finished l, w).
Proof.
  intros Hd Hs. destruct l as [|d l].
  - unfold __iter__. by rewrite Hd.
  - apply Forall_cons in Hs as [[Hn Ht] Hs].
    apply iter_delivers; [done|]. by apply (same_schema_trans first).
Qed.

Lemma concat_others_conform first objs ls w :
  Forall2 (fun obj l => delivers obj l /\ same_schema first l) objs ls ->
  concat_others (Some (columns first, dtypes first)) objs w
  = (finished (mjoin ls), w).
Proof.
  intros H. induction H as [|obj l objs ls [Hd Hs] _ IH]; [done|].
  cbn [concat_others]. rewrite (iter_same_schema obj first l) by done.
  cbn [yielded raised finished]. rewrite concat_obj_conform by done.
  cbn [raised yielded]. by rewrite IH.
Qed.

Lemma concat_others_mismatch first objs ls bad b bs post w :
  Forall2 (fun obj l => delivers obj l /\ same_schema first l) objs ls ->
  delivers bad (b :: bs) -> same_schema b bs ->
  columns b <> columns first \/ dtypes b <> dtypes first ->
  concat_others (Some (columns first, dtypes first)) (objs ++ bad :: post) w
  = (Trace (mjoin ls)
       (Some (Raise ValueError
                (if bool_decide (columns b <> columns first)
                 then names_differ else types_differ) [FInt 0])), w).
Proof.
  intros H Hb Hbs Hdiff.
  induction H as [|obj l objs ls [Hd Hs] _ IH].
  - cbn [app concat_others]. rewrite (iter_delivers bad b bs) by done.
    cbn [yielded raised finished concat_obj].
    destruct (decide (columns b = columns first)) as [Hn|Hn].
    + rewrite (bool_decide_eq_false_2 (columns first <> _)) by (intros ?; congruence).
      rewrite (bool_decide_eq_false_2 (columns b <> _)) by (intros ?; congruence).
      destruct Hdiff as [|Ht]; [done|].
      rewrite bool_decide_eq_true_2 by congruence. done.
    + rewrite (bool_decide_eq_true_2 (columns first <> _)) by congruence.
      by rewrite bool_decide_eq_true_2.
  - cbn [app concat_others]. rewrite (iter_same_schema obj first l) by done.
    cbn [yielded raised finished]. rewrite concat_obj_conform by done.
    cbn [raised yielded]. by rewrite IH.
Qed.

Lemma same_schema_app first l1 l2 :
  same_schema first l1 -> same_schema first l2 -> same_schema first (l1 ++ l2).
Proof. apply Forall_app_2. Qed.

Lemma same_schema_join first ls :
  Forall (same_schema first) ls -> same_schema first (mjoin ls).
Proof.
  induction 1 as [|l ls Hl _ IH]; [constructor|].
  cbn [mjoin list_join]. by apply same_schema_app.
Qed.

Lemma operands_schema {A} first (P : A -> list DataFrame -> Prop) ts ls :
  Forall2 (fun t l => P t l /\ same_schema first l) ts ls ->
  Forall (same_schema first) ls.
Proof. induction 1 as [|???? [_ ?]]; by constructor. Qed.

(** X12. Vertical concatenation of tables that share their schema: the walk
    yields the chunks of [self], then those of every operand in order, a
    dataframe operand being one chunk. *)
Theorem concatv_appends self others first rest ls w :
  delivers self (first :: rest) -> same_schema first rest ->
  Forall2 (fun t l => delivers (change_type t) l /\ same_schema first l)
    (as_list others) ls ->
  __iter__ (_concatv self others) w
  = (finished (first :: rest ++ mjoin ls), w).
Proof.
  intros Hd Hs Hops.
  apply (iter_same_schema _ first).
  - intros w0. unfold _concatv. cbn [iter_creation __init__].
    unfold iterator_concat. rewrite (iter_delivers self first rest) by done.
    cbn [raised yielded finished lookup list_lookup fmap option_fmap option_map].
    rewrite (concat_others_conform first _ ls).
    + done.
    + clear -Hops. induction Hops; constructor; auto.
  - constructor; [done|]. apply same_schema_app; [done|].
    apply same_schema_join.
    by apply (operands_schema first (fun t l => delivers (change_type t) l)
                (as_list others)).
Qed.

(** X13. The first chunk of every operand is compared with the first chunk
    of [self]; when an operand differs, the chunks of [self] and of the
    operands before it have been yielded, and the message holds [0]
    whatever the position of the operand. *)
Theorem concatv_mismatch self pre bad post first rest ls b bs w :
  delivers self (first :: rest) -> same_schema first rest ->
  Forall2 (fun t l => delivers (change_type t) l /\ same_schema first l) pre ls ->
  delivers (change_type bad) (b :: bs) -> same_schema b bs ->
  columns b <> columns first \/ dtypes b <> dtypes first ->
  __iter__ (_concatv self (Several (pre ++ bad :: post))) w
  = (Trace (first :: rest ++ mjoin ls)
       (Some (Raise ValueError
                (if bool_decide (columns b <> columns first)
                 then names_differ else types_differ) [FInt 0])), w).
Proof.
  intros Hd Hs Hops Hb Hbs Hdiff.
  unfold __iter__, _concatv. cbn [iter_creation __init__ check_schema as_list].
  unfold iterator_concat. rewrite (iter_delivers self first rest) by done.
  cbn [raised yielded finished lookup list_lookup fmap option_fmap option_map].
  rewrite fmap_app, fmap_cons.
  rewrite (concat_others_mismatch first _ ls _ b bs).
  - cbn [yielded raised]. rewrite <- app_comm_cons. cbn [iter_loop].
    rewrite <- (app_nil_r (rest ++ mjoin ls)) at 1.
    rewrite iter_loop_conform.
    + cbn [iter_loop yield_ yielded raised]. by rewrite app_nil_r.
    + apply same_schema_app; [done|].
      apply same_schema_join.
      by apply (operands_schema first (fun t l => delivers (change_type t) l) pre).
  - clear -Hops. induction Hops; constructor; auto.
  - done.
  - done.
  - done.
Qed.

(** X14. Two operands without rows.  When [self] yields no chunk, the
    schema to compare with is [None] and the first chunk of an operand
    raises [TypeError]; a dataframe operand without rows is read with
    [chunksize = 0], so that its [range] raises once the chunks of [self]
    have been yielded. *)
Theorem concatv_without_rows self t df b bs first rest w :
  (delivers self [] -> delivers (change_type t) (b :: bs) -> same_schema b bs ->
   __iter__ (_concatv self (One t)) w
   = (fail_ (Raise TypeError "'NoneType' object is not iterable" []), w)) /\
  (delivers self (first :: rest) -> same_schema first rest -> nrows df = 0%nat ->
   __iter__ (_concatv self (One (InMemory df))) w
   = (Trace (first :: rest)
        (Some (Raise ValueError "range() arg 3 must not be zero" [])), w)).
Proof.
  split.
  - intros Hd Hb Hbs.
    unfold __iter__, _concatv. cbn [iter_creation __init__ check_schema as_list].
    unfold iterator_concat. rewrite (iter_of_delivers self []) by done.
    cbn [iter_loop raised yielded lookup list_lookup fmap option_fmap option_map
         list_fmap concat_others].
    rewrite (iter_delivers _ b bs) by done. done.
  - intros Hd Hs Hn.
    unfold __iter__, _concatv. cbn [iter_creation __init__ check_schema as_list].
    unfold iterator_concat. rewrite (iter_delivers self first rest) by done.
    cbn [raised yielded finished lookup list_lookup fmap option_fmap option_map
         list_fmap concat_others change_type].
    rewrite read_df_zero_step by (cbn; lia).
    cbn [fail_ yielded raised concat_obj].
    rewrite <- app_comm_cons. cbn [iter_loop].
    rewrite iter_loop_conform by done.
    cbn [iter_loop yield_ yielded raised]. by rewrite app_nil_r.
Qed.

(** * Horizontal concatenation *)

Lemma same_labels_nrows p : same_labels p -> nrows p.1 = nrows p.2.
Proof.
  unfold same_labels, nrows. intros H.
  apply (f_equal length) in H. by rewrite !length_fmap in H.
Qed.

Lemma concath_step_pair a b :
  concath_step [inl a; inl b]
  = if bool_decide (nrows a = nrows b) then Ok (beside a b)
    else Error different_size.
Proof.
  unfold concath_step. cbn.
  case_bool_decide as H1; case_bool_decide as H2; try done; lia.
Qed.

Lemma iterateh_pairs l1 fin1 : forall l2 fin2 pre a b post,
  zip l1 l2 = pre ++ (a, b) :: post ->
  Forall same_labels pre -> nrows a <> nrows b ->
  iterateh (inl <$> l1) fin1 [Trace (inl <$> l2) fin2]
  = Trace (uncurry beside <$> pre) (Some different_size).
Proof.
  induction l1 as [|x l1 IH]; intros l2 fin2 pre a b post Hz Hpre Hab.
  - by destruct pre.
  - destruct l2 as [|y l2]; [by destruct pre|].
    cbn [fmap list_fmap iterateh zip_next yielded raised].
    rewrite concath_step_pair. cbn [zip zip_with] in Hz.
    destruct pre as [|p pre]; simplify_eq/=.
    + by rewrite bool_decide_eq_false_2.
    + apply Forall_cons in Hpre as [Hp Hpre].
      rewrite bool_decide_eq_true_2 by (by apply (same_labels_nrows (x, y))).
      by erewrite IH.
Qed.

Lemma iterateh_all l1 : forall l2,
  Forall same_labels (zip l1 l2) ->
  iterateh (inl <$> l1) None [Trace (inl <$> l2) None]
  = finished (zip_with beside l1 l2).
Proof.
  induction l1 as [|x l1 IH]; intros l2 H; [done|].
  destruct l2 as [|y l2]; [done|].
  cbn [fmap list_fmap iterateh zip_next yielded raised].
  rewrite concath_step_pair. cbn [zip zip_with] in H.
  apply Forall_cons in H as [Hp H].
  rewrite bool_decide_eq_true_2 by (by apply (same_labels_nrows (x, y))).
  by rewrite IH.
Qed.

Lemma zip_with_cols (s1 s2 : list (string * dtype)) l1 l2 :
  Forall (fun c => cols c = s1) l1 -> Forall (fun c => cols c = s2) l2 ->
  Forall (fun c => cols c = s1 ++ s2) (zip_with beside l1 l2).
Proof.
  intros H1. revert l2. induction H1 as [|a l1 Ha _ IH]; intros l2 H2; [constructor|].
  destruct H2 as [|b l2 Hb H2]; [constructor|].
  cbn [zip_with]. constructor; [|by apply IH].
  cbn. by rewrite Ha, Hb.
Qed.

(** X15. [concat(axis=1)] of two tables whose chunks come with the same row
    labels pairs them in order, as many pairs as the shorter table has
    chunks.  At the first pair with different numbers of rows the walk
    raises [RuntimeError], the pairs before it having been yielded. *)
Theorem concath_pairs self other l1 l2 s1 s2 w :
  delivers self l1 -> Forall (fun c => cols c = s1) l1 ->
  delivers other l2 -> Forall (fun c => cols c = s2) l2 ->
  (Forall same_labels (zip l1 l2) ->
   __iter__ (_concath self (One (Streamed other))) w
   = (finished (zip_with beside l1 l2), w)) /\
  (forall pre a b post,
     zip l1 l2 = pre ++ (a, b) :: post ->
     Forall same_labels pre -> nrows a <> nrows b ->
     __iter__ (_concath self (One (Streamed other))) w
     = (Trace (uncurry beside <$> pre) (Some different_size), w)).
Proof.
  intros Hd1 Hs1 Hd2 Hs2.
  assert (Hsrc : forall w0, iter_creation (_concath self (One (Streamed other))) w0
            = (iterateh (inl <$> l1) None [Trace (inl <$> l2) None], w0)).
  { intros w0. unfold _concath. cbn [iter_creation __init__ as_list zipped zipped_all].
    rewrite (iter_uniform self l1 s1), (iter_uniform other l2 s2) by done.
    done. }
  split.
  - intros H. apply (iter_uniform _ _ (s1 ++ s2)).
    + intros w0. by rewrite Hsrc, iterateh_all.
    + by apply zip_with_cols.
  - intros pre a b post Hz Hpre Hab.
    unfold __iter__. rewrite Hsrc, (iterateh_pairs _ _ _ _ pre a b post) by done.
    cbn [yielded raised].
    assert (Hcols : Forall (fun c => cols c = s1 ++ s2) (uncurry beside <$> pre)).
    { assert (Hsub : uncurry beside <$> pre
                     = take (length pre) (zip_with beside l1 l2)).
      { rewrite (zip_with_zip beside), Hz, fmap_app.
        rewrite take_app_length'; [done|]. by rewrite length_fmap. }
      rewrite Hsub. apply Forall_take. by apply zip_with_cols. }
    destruct (uncurry beside <$> pre) as [|c cs]; [done|].
    apply Forall_cons in Hcols as [Hc Hcs].
    cbn [iter_loop]. rewrite <- (app_nil_r cs) at 1.
    rewrite iter_loop_conform by (by eapply same_cols_schema).
    cbn [iter_loop yield_ yielded raised]. by rewrite app_nil_r.
Qed.

(** X16. A dataframe among the operands of [concat(axis=1)] is iterated by
    [zip] over its column labels: with a chunk in [self] and a column in
    the dataframe the walk raises [AttributeError] before it yields
    anything; a dataframe without a column ends the walk at once. *)
Theorem concath_dataframe self first rest df w :
  delivers self (first :: rest) -> same_schema first rest ->
  __iter__ (_concath self (One (InMemory df))) w
  = (match columns df with
     | [] => finished []
     | _ => fail_ (Raise AttributeError
                     "'str' object has no attribute 'shape'" [])
     end, w).
Proof.
  intros Hd Hs. unfold __iter__, _concath.
  cbn [iter_creation __init__ as_list zipped zipped_all check_schema].
  rewrite (iter_delivers self first rest) by done.
  cbn [yielded raised finished fmap list_fmap iterateh zip_next].
  destruct (columns df) as [|c cs]; done.
Qed.

(** * Columns: selection and addition *)

Lemma index_of_spec name names i :
  index_of name names = Some i <->
  names !! i = Some name /\ forall j, (j < i)%nat -> names !! j <> Some name.
Proof.
  unfold index_of. split.
  - intros H. apply fmap_Some in H as ([i' x] & Hf & ->).
    apply list_find_Some in Hf as (Hi & -> & Hlt). split; [done|].
    intros j Hj Hjx. by apply (Hlt j name).
  - intros [Hi Hlt]. apply fmap_Some. exists (i, name). split; [|done].
    apply list_find_Some. split; [done|]. split; [done|].
    intros j y Hy Hj ->. by apply (Hlt j).
Qed.

Lemma index_of_elem name names :
  name ∈ names -> exists i, index_of name names = Some i.
Proof.
  intros H. unfold index_of.
  destruct (list_find_elem_of (fun x => x = name) names name H eq_refl)
    as [[i x] Hf].
  exists i. by rewrite Hf.
Qed.

Lemma index_of_None name names : name ∉ names -> index_of name names = None.
Proof.
  intros H. unfold index_of.
  destruct (list_find _ names) as [[i x]|] eqn:Hf; [|done].
  apply list_find_Some in Hf as (Hi & -> & _).
  destruct H. by eapply list_elem_of_lookup_2.
Qed.

Lemma index_of_snoc_new name names :
  name ∉ names -> index_of name (names ++ [name]) = Some (length names).
Proof.
  intros H. apply index_of_spec. split.
  - by rewrite lookup_app_r, Nat.sub_diag.
  - intros j Hj Hjn. rewrite lookup_app_l in Hjn by done.
    destruct H. by eapply list_elem_of_lookup_2.
Qed.

Lemma index_of_snoc_other name col names :
  name <> col -> index_of name (names ++ [col]) = index_of name names.
Proof.
  intros Hne. destruct (index_of name names) as [i|] eqn:Hi.
  - apply index_of_spec in Hi as [Hi Hlt]. apply index_of_spec.
    pose proof (lookup_lt_Some _ _ _ Hi) as Hlen. split.
    + by rewrite lookup_app_l.
    + intros j Hj. rewrite lookup_app_l by lia. by apply Hlt.
  - apply index_of_None. intros Hin.
    apply elem_of_app in Hin as [Hin|Hin].
    + apply index_of_elem in Hin as [i Hi']. congruence.
    + apply list_elem_of_singleton in Hin. done.
Qed.

(** A walk that applies a total operation whose columns are settled by
    those of its argument. *)
Lemma iter_mapped self first rest (op : DataFrame -> DataFrame) w :
  delivers self (first :: rest) -> same_schema first rest ->
  (forall a b, cols a = cols b -> cols (op a) = cols (op b)) ->
  __iter__ (__init__ (inl (walking self (map_loop (fun df => Ok (op df)))))
              (get_kwargs self) true) w
  = (finished (op <$> first :: rest), w).
Proof.
  intros Hd Hs Hop. apply (iter_uniform _ _ (cols (op first))).
  - intros w0. cbn [iter_creation __init__]. unfold walking.
    rewrite (iter_delivers self first rest) by done.
    cbn [yielded raised finished]. f_equal.
    generalize (first :: rest). induction l as [|d l IH]; [done|].
    cbn [map_loop fmap list_fmap]. by rewrite IH.
  - apply Forall_fmap. constructor; [done|].
    eapply Forall_impl; [exact (same_schema_cols _ _ Hs)|].
    intros c Hc. cbn. by apply Hop.
Qed.

Lemma set_column_cols col z a b :
  cols a = cols b -> cols (set_column col z a) = cols (set_column col z b).
Proof.
  intros H. unfold set_column, columns. rewrite H.
  by destruct (index_of col (cols b).*1).
Qed.

Lemma set_column_cell col z df k r :
  rows df !! k = Some r -> length (cells r) = length (cols df) ->
  exists r', rows (set_column col z df) !! k = Some r' /\
    label r' = label r /\
    cell (cols (set_column col z df)) col r' = Some z /\
    forall name, name <> col ->
      cell (cols (set_column col z df)) name r' = cell (cols df) name r.
Proof.
  intros Hk Hlen. unfold set_column, cell.
  destruct (index_of col (columns df)) as [i|] eqn:Hi.
  - cbn [cols rows]. rewrite list_lookup_fmap, Hk. cbn [fmap option_fmap option_map].
    eexists. split; [done|]. cbn [label cells]. split; [done|].
    assert (Hcols : (<[i := (col, int64)]> (cols df)).*1 = (cols df).*1).
    { rewrite list_fmap_insert. cbn [fst]. apply list_insert_id.
      by apply index_of_spec in Hi as [Hi _]. }
    rewrite Hcols. fold (columns df). split.
    + rewrite Hi. cbn. apply list_lookup_insert_eq.
      apply index_of_spec in Hi as [Hi _]. apply lookup_lt_Some in Hi.
      unfold columns in Hi. rewrite length_fmap in Hi. lia.
    + intros name Hne. destruct (index_of name (columns df)) as [j|] eqn:Hj; [|done].
      cbn. apply list_lookup_insert_ne. intros ->.
      apply index_of_spec in Hi as [Hi _]. apply index_of_spec in Hj as [Hj _].
      congruence.
  - cbn [cols rows]. rewrite list_lookup_fmap, Hk. cbn [fmap option_fmap option_map].
    eexists. split; [done|]. cbn [label cells]. split; [done|].
    rewrite fmap_app. cbn [fmap list_fmap fst]. fold (columns df).
    assert (Hnew : col ∉ columns df).
    { intros Hin. apply index_of_elem in Hin as [i Hi']. congruence. }
    split.
    + rewrite index_of_snoc_new by done. cbn.
      unfold columns. rewrite length_fmap, <- Hlen.
      by rewrite lookup_app_r, Nat.sub_diag.
    + intros name Hne. rewrite index_of_snoc_other by done.
      destruct (index_of name (columns df)) as [j|] eqn:Hj; [|done].
      cbn. apply lookup_app_l.
      apply index_of_spec in Hj as [Hj _]. apply lookup_lt_Some in Hj.
      unfold columns in Hj. rewrite length_fmap in Hj. lia.
Qed.

(** X17. [add_column] with a constant: chunk after chunk, the column called
    [col] is overwritten or appended as the last one; every row then
    holds the constant in that column and keeps its label and its other
    cells. *)
Theorem add_column_constant self first rest col z w :
  delivers self (first :: rest) -> same_schema first rest ->
  exists t,
    add_column self (PStr col) (ByConstant z) = Ok t /\
    __iter__ t w = (finished (set_column col z <$> first :: rest), w) /\
    forall d k r,
      d ∈ first :: rest -> rows d !! k = Some r ->
      length (cells r) = length (cols d) ->
      exists r', rows (set_column col z d) !! k = Some r' /\
        label r' = label r /\
        cell (cols (set_column col z d)) col r' = Some z /\
        forall name, name <> col ->
          cell (cols (set_column col z d)) name r' = cell (cols d) name r.
Proof.
  intros Hd Hs. eexists. split; [reflexivity|]. split.
  - apply iter_mapped; [done..|]. apply set_column_cols.
  - intros d k r _. apply set_column_cell.
Qed.

Lemma map_loop_fails op first rest fin e :
  op first = Error e -> map_loop op (first :: rest) fin = fail_ e.
Proof. intros H. cbn [map_loop]. by rewrite H. Qed.

Lemma insert_last_new col f df :
  col ∉ columns df -> insert_last col f df = Ok (extended col f df).
Proof. intros H. unfold insert_last. by rewrite bool_decide_eq_false_2. Qed.

Lemma map_loop_ok op (g : DataFrame -> DataFrame) l :
  Forall (fun d => op d = Ok (g d)) l -> map_loop op l None = finished (g <$> l).
Proof.
  induction 1 as [|d l Hd _ IH]; [done|].
  cbn [map_loop]. by rewrite Hd, IH.
Qed.

(** X18. [add_column] with a function inserts a new last column computed
    row by row; unlike the constant, it refuses a name that is already a
    column: the walk then raises [ValueError] at the first chunk. *)
Theorem add_column_function self first rest col f w :
  delivers self (first :: rest) -> same_schema first rest ->
  exists t,
    add_column self (PStr col) (ByFunction f) = Ok t /\
    (col ∈ columns first ->
     __iter__ t w
     = (fail_ (Raise ValueError "cannot insert {0}, already exists"
                 [FNames [col]]), w)) /\
    (col ∉ columns first ->
     __iter__ t w = (finished (extended col f <$> first :: rest), w)).
Proof.
  intros Hd Hs. eexists. split; [reflexivity|].
  pose proof (same_schema_cols _ _ Hs) as Hcols.
  split; intros Hcol.
  - unfold __iter__. cbn [iter_creation __init__ check_schema]. unfold walking.
    rewrite (iter_delivers self first rest) by done.
    cbn [yielded raised finished].
    rewrite (map_loop_fails _ _ _ _
               (Raise ValueError "cannot insert {0}, already exists" [FNames [col]])).
    + done.
    + unfold insert_last. by rewrite bool_decide_eq_true_2.
  - apply (iter_uniform _ _ (cols first ++ [(col, int64)])).
    + intros w0. cbn [iter_creation __init__]. unfold walking.
      rewrite (iter_delivers self first rest) by done.
      cbn [yielded raised finished]. f_equal. apply map_loop_ok.
      constructor; [by apply insert_last_new|].
      eapply Forall_impl; [exact Hcols|]. intros c Hc. cbn in Hc.
      apply insert_last_new. unfold columns. by rewrite Hc.
    + apply Forall_fmap. constructor; [done|].
      eapply Forall_impl; [exact Hcols|]. intros c Hc. cbn in *. by rewrite Hc.
Qed.

Lemma select_at names idx df :
  Forall2 (fun s i => index_of s (columns df) = Some i) names idx ->
  select names df = Ok (selected idx df).
Proof.
  intros Hidx. unfold select. by rewrite (proj2 (mapM_Some _ _ _) Hidx).
Qed.

Lemma select_found names df :
  Forall (fun s => s ∈ columns df) names ->
  exists idx,
    Forall2 (fun s i => index_of s (columns df) = Some i) names idx /\
    select names df = Ok (selected idx df).
Proof.
  intros H.
  assert (exists idx, Forall2 (fun s i => index_of s (columns df) = Some i) names idx)
    as [idx Hidx].
  { induction H as [|s names Hs _ [idx IH]]; [by exists []|].
    apply index_of_elem in Hs as [i Hi]. exists (i :: idx). by constructor. }
  exists idx. split; [done|]. by apply select_at.
Qed.

Lemma select_missing names df name :
  name ∈ names -> name ∉ columns df ->
  select names df = Error (Raise KeyError "{0} not in index" [FNames names]).
Proof.
  intros Hin Hout. unfold select.
  destruct (mapM _ names) as [idx|] eqn:Hm; [|done].
  apply mapM_Some in Hm.
  apply list_elem_of_lookup in Hin as [j Hj].
  destruct (Forall2_lookup_l _ _ _ _ _ Hm Hj) as (i & _ & Hi).
  by rewrite index_of_None in Hi.
Qed.

Lemma selected_columns names idx df :
  Forall2 (fun s i => index_of s (columns df) = Some i) names idx ->
  columns (selected idx df) = names.
Proof.
  unfold columns, selected. cbn [cols].
  induction 1 as [|s i names idx Hi _ IH]; [done|].
  apply index_of_spec in Hi as [Hi _]. unfold columns in Hi.
  rewrite list_lookup_fmap in Hi.
  destruct (cols df !! i) as [[s' t]|] eqn:Hc; [|done].
  cbn in Hi. injection Hi as ->.
  cbn [omap list_omap]. rewrite Hc. cbn. by rewrite IH.
Qed.

Lemma omap_lookup_total {A B} (f : A -> option B) l j :
  Forall (fun a => is_Some (f a)) l -> omap f l !! j = l !! j ≫= f.
Proof.
  intros H. revert j. induction H as [|a l [b Hb] _ IH]; intros j; [done|].
  cbn [omap list_omap]. rewrite Hb. destruct j as [|j]; [by cbn|]. apply IH.
Qed.

Lemma selected_cell names idx df r name :
  Forall2 (fun s i => index_of s (columns df) = Some i) names idx ->
  length (cells r) = length (cols df) -> name ∈ names ->
  cell (cols (selected idx df)) name
    {| label := label r; cells := omap (fun i => cells r !! i) idx |}
  = cell (cols df) name r.
Proof.
  intros Hidx Hlen Hin. unfold cell.
  fold (columns (selected idx df)). rewrite (selected_columns names) by done.
  fold (columns df).
  apply index_of_elem in Hin as [j Hj]. rewrite Hj. cbn [mbind option_bind cells].
  apply index_of_spec in Hj as [Hj _].
  destruct (Forall2_lookup_l _ _ _ _ _ Hidx Hj) as (i & Hij & Hi).
  rewrite Hi. cbn [mbind option_bind].
  rewrite omap_lookup_total.
  - by rewrite Hij.
  - apply Forall_forall. intros i' Hi'.
    apply list_elem_of_lookup in Hi' as [j' Hj'].
    destruct (Forall2_lookup_r _ _ _ _ _ Hidx Hj') as (s & _ & Hs).
    apply index_of_spec in Hs as [Hs _]. apply lookup_lt_Some in Hs.
    unfold columns in Hs. rewrite length_fmap in Hs.
    apply lookup_lt_is_Some. lia.
Qed.

(** X19. [sdf[names]] with names that are all columns: the walk yields one
    chunk per chunk of [self], with exactly the columns [names] in that
    order; every row keeps its label and the cells of the selected
    columns.  The [columns] of the result are [names]. *)
Theorem getitem_selects self first rest names w :
  delivers self (first :: rest) -> same_schema first rest ->
  Forall (fun s => s ∈ columns first) names ->
  exists t out,
    __getitem__ self [ItemList names] = Ok t /\
    __iter__ t w = (finished out, w) /\
    Accessors.columns t w = (Ok (Some names), w) /\
    Forall2 (fun d o =>
               columns o = names /\
               Forall2 (fun r r' =>
                          label r' = label r /\
                          (length (cells r) = length (cols d) ->
                           forall name, name ∈ names ->
                             cell (cols o) name r' = cell (cols d) name r))
                 (rows d) (rows o))
      (first :: rest) out.
Proof.
  intros Hd Hs Hnames.
  destruct (select_found names first Hnames) as (idx & Hidx & Hsel).
  pose proof (same_schema_cols _ _ Hs) as Hcols.
  assert (Hall : Forall (fun d => cols d = cols first) (first :: rest))
    by (by constructor).
  assert (Hiter : forall w0,
            __iter__ (__init__ (inl (walking self (map_loop (select names))))
                        (get_kwargs self) true) w0
            = (finished (selected idx <$> first :: rest), w0)).
  { intros w0.
    apply (iter_uniform _ _ (omap (fun i => cols first !! i) idx)).
    - intros w1. cbn [iter_creation __init__]. unfold walking.
      rewrite (iter_delivers self first rest) by done.
      cbn [yielded raised finished]. f_equal. apply map_loop_ok.
      eapply Forall_impl; [exact Hall|]. intros d Hc. cbn in Hc.
      apply select_at. unfold columns. by rewrite Hc.
    - apply Forall_fmap. eapply Forall_impl; [exact Hall|].
      intros d Hc. cbn in *. by rewrite Hc. }
  eexists _, _. split; [reflexivity|]. split; [apply Hiter|]. split.
  - unfold Accessors.columns, Accessors.of_first. rewrite Hiter.
    cbn [yielded raised finished fmap list_fmap]. do 2 f_equal.
    f_equal. by apply selected_columns.
  - apply Forall2_fmap_r, Forall_Forall2_diag.
    eapply Forall_impl; [exact Hall|]. intros d Hc. cbn in Hc.
    assert (Hidx' : Forall2 (fun s i => index_of s (columns d) = Some i) names idx).
    { unfold columns. by rewrite Hc. }
    split; [by apply selected_columns|].
    cbn [selected rows]. apply Forall2_fmap_r, Forall_Forall2_diag.
    apply Forall_forall. intros r _. split; [done|].
    intros Hlen name Hin. by apply (selected_cell names).
Qed.

(** X20. What [__getitem__] refuses: anything but one list of names at the
    call, and a name that is no column at the first chunk of the walk,
    with a [KeyError]. *)
Theorem getitem_refuses self first rest names name args w :
  ((forall l, args <> [ItemList l]) ->
   __getitem__ self args
   = Error (Raise NotImplementedError
              "Only a list of columns is supported." [])) /\
  (delivers self (first :: rest) -> same_schema first rest ->
   name ∈ names -> name ∉ columns first ->
   exists t msg fargs,
     __getitem__ self [ItemList names] = Ok t /\
     __iter__ t w = (fail_ (Raise KeyError msg fargs), w)).
Proof.
  split.
  - intros H. destruct args as [|[l|v] [|b args]]; try done.
    by destruct (H l).
  - intros Hd Hs Hin Hout. eexists _, _, _. split; [reflexivity|].
    unfold __iter__. cbn [iter_creation __init__ check_schema]. unfold walking.
    rewrite (iter_delivers self first rest) by done.
    cbn [yielded raised finished].
    by erewrite map_loop_fails; [|by eapply select_missing].
Qed.

(** * Group by: the streaming strategies *)

Lemma first_cell_idemp t a : first_cell t (first_cell t a) = first_cell t a.
Proof. destruct t; cbn; try done; apply wrap64_idemp. Qed.

Lemma first_add_cell t a b : first_cell t (add_cell t a b) = add_cell t a b.
Proof. destruct t; cbn; try done; apply wrap64_idemp. Qed.

Lemma vfirst_idemp types v : vfirst types (vfirst types v) = vfirst types v.
Proof.
  revert types. induction v as [|a v IH]; intros types; [done|].
  cbn [vfirst]. by rewrite first_cell_idemp, IH.
Qed.

Lemma vfirst_vadd types u v :
  vfirst types (vadd_typed types u v) = vadd_typed types u v.
Proof.
  revert types v. induction u as [|a u IH]; intros types [|b v]; try done.
  cbn [vadd_typed vfirst]. by rewrite first_add_cell, IH.
Qed.

(** The keys of the groups after one more row. *)
Lemma agg_insert_typed_keys (Q : Z -> Prop) types k v acc :
  Q k -> Forall (fun x : Z * list Z => Q x.1) acc ->
  Forall (fun x : Z * list Z => Q x.1) (agg_insert_typed types k v acc).
Proof.
  intros Hk. induction 1 as [|[k' v'] acc Hk' Hacc IH]; cbn [agg_insert_typed].
  - by repeat constructor.
  - destruct (k <? k'); [by repeat constructor|].
    destruct (k =? k'); by constructor.
Qed.

Lemma agg_insert_typed_ascending types k v acc :
  ascending acc -> ascending (agg_insert_typed types k v acc).
Proof.
  induction acc as [|[k' v'] acc IH]; intros Hacc; cbn [agg_insert_typed].
  - by repeat constructor.
  - destruct Hacc as [Hlt Hacc].
    destruct (Z.ltb_spec k k') as [Hk|Hk].
    + split; [|by split]. constructor; [done|].
      eapply Forall_impl; [exact Hlt|]. intros x Hx. cbn in *. lia.
    + destruct (Z.eqb_spec k k') as [->|Hne].
      * by split.
      * split; [|by apply IH].
        apply (agg_insert_typed_keys (fun z => k' < z)); [cbn; lia|done].
Qed.

Lemma agg_insert_typed_normal types k v acc :
  Forall (fun x : Z * list Z => vfirst types x.2 = x.2) acc ->
  Forall (fun x : Z * list Z => vfirst types x.2 = x.2)
    (agg_insert_typed types k v acc).
Proof.
  induction 1 as [|[k' v'] acc Hk' Hacc IH]; cbn [agg_insert_typed].
  - constructor; [apply vfirst_idemp|done].
  - destruct (k <? k').
    + constructor; [apply vfirst_idemp|by constructor].
    + destruct (k =? k'); constructor; try done. apply vfirst_vadd.
Qed.

Lemma group_sums_typed_sorted types ki l :
  ascending (group_sums_typed types ki l) /\
  Forall (fun x : Z * list Z => vfirst types x.2 = x.2)
    (group_sums_typed types ki l).
Proof.
  unfold group_sums_typed.
  assert (H : ascending [] /\
              Forall (fun x : Z * list Z => vfirst types x.2 = x.2) [])
    by (split; constructor).
  revert H. generalize (@nil (Z * list Z)).
  induction l as [|r l IH]; intros acc [Ha Hn]; [done|].
  cbn [fold_left]. apply IH. split.
  - by apply agg_insert_typed_ascending.
  - by apply agg_insert_typed_normal.
Qed.

(** A key above all the others opens a group at the end. *)
Lemma agg_insert_typed_last types k v acc :
  Forall (fun x : Z * list Z => x.1 < k) acc ->
  agg_insert_typed types k v acc = acc ++ [(k, vfirst types v)].
Proof.
  induction 1 as [|[k' v'] acc Hk' Hacc IH]; [done|].
  cbn [agg_insert_typed]. cbn [fst] in Hk'.
  destruct (Z.ltb_spec k k'); [lia|]. destruct (Z.eqb_spec k k'); [lia|].
  by rewrite IH.
Qed.

Lemma regroup_sorted types groups : forall acc,
  ascending groups ->
  Forall (fun x : Z * list Z => vfirst types x.2 = x.2) groups ->
  Forall (fun a : Z * list Z =>
            Forall (fun b : Z * list Z => a.1 < b.1) groups) acc ->
  fold_left (fun acc kv => agg_insert_typed types kv.1 kv.2 acc) groups acc
  = acc ++ groups.
Proof.
  induction groups as [|[k v] groups IH]; intros acc Ha Hn Hacc.
  - by rewrite app_nil_r.
  - destruct Ha as [Hlt Ha]. apply Forall_cons in Hn as [Hv Hn].
    cbn [fold_left fst snd] in *.
    rewrite agg_insert_typed_last.
    + rewrite Hv, IH, <- app_assoc; [done..|].
      apply Forall_app. split; [|by repeat constructor].
      eapply Forall_impl; [exact Hacc|]. intros a Hall.
      by apply Forall_cons in Hall as [_ ?].
    + eapply Forall_impl; [exact Hacc|]. intros a Hall.
      by apply Forall_cons in Hall as [? _].
Qed.

Lemma group_sums_typed_fold types ki l :
  group_sums_typed types ki l
  = fold_left (fun acc kv => agg_insert_typed types kv.1 kv.2 acc)
      (keyed ki <$> l) [].
Proof.
  unfold group_sums_typed. generalize (@nil (Z * list Z)).
  induction l as [|r l IH]; intros acc; [done|]. cbn. apply IH.
Qed.

(** Grouping the groups again changes nothing. *)
Lemma regroup_numbered types ki l :
  group_sums_typed types 0 (numbered_rows (group_sums_typed types ki l))
  = group_sums_typed types ki l.
Proof.
  destruct (group_sums_typed_sorted types ki l) as [Ha Hn].
  rewrite (group_sums_typed_fold types 0), keyed_numbered_rows.
  by rewrite regroup_sorted.
Qed.

(** Grouping an aggregate again gives the aggregate. *)
Lemma grouped_partial by_ ki c :
  grouped (or_sum None) by_ false (partial by_ ki c) = Ok (partial by_ ki c).
Proof.
  rewrite partial_summed at 1. cbn [summed]. rewrite grouped_sum_keyed.
  by rewrite regroup_numbered, partial_summed.
Qed.

Lemma iterate_streaming_all by_ ki first its :
  Forall (fun c => columns c = columns first) its ->
  index_of by_ (columns first) = Some ki ->
  iterate_streaming (or_sum None) by_ false its None
  = finished (partial by_ ki <$> its).
Proof.
  intros Hits Hki. unfold iterate_streaming.
  induction Hits as [|c its Hc _ IH]; [done|].
  cbn [map_loop]. rewrite (grouped_sum_found _ _ ki) by (by rewrite Hc).
  fold (partial by_ ki c). by rewrite grouped_partial, IH.
Qed.

Lemma partial_cols by_ ki a b : cols a = cols b ->
  cols (partial by_ ki a) = cols (partial by_ ki b).
Proof.
  intros H. rewrite !partial_summed. unfold dtypes. rewrite H. apply cols_summed.
Qed.

(** X21. The strategy ['streaming'] with [as_index=False] yields the
    aggregate of every chunk on its own; concatenating these and grouping
    them once more gives what [groupby] returns for the whole table. *)
Theorem groupby_streaming_regroup self first rest by_ as_index ki w :
  delivers self (first :: rest) -> same_schema first rest ->
  index_of by_ (columns first) = Some ki ->
  exists st,
    groupby_streaming self by_ None None true "streaming" false = Ok st /\
    __iter__ st w = (finished (partial by_ ki <$> first :: rest), w) /\
    single_pass st by_ as_index w = groupby self by_ None None true as_index w.
Proof.
  intros Hd Hs Hki. eexists. split; [reflexivity|].
  pose proof (same_schema_columns _ _ Hs) as Hcolumns.
  assert (Hiter : forall w0,
    __iter__ (__init__ (inl (walking self
                               (iterate_streaming (or_sum None) by_ false)))
                (get_kwargs self) true) w0
    = (finished (partial by_ ki <$> first :: rest), w0)).
  { intros w0. apply (iter_uniform _ _ (cols (partial by_ ki first))).
    - intros w1. cbn [iter_creation __init__]. unfold walking.
      rewrite (iter_delivers self first rest) by done.
      cbn [yielded raised finished].
      rewrite (iterate_streaming_all by_ ki first); [done| by constructor | done].
    - apply Forall_fmap. constructor; [done|].
      eapply Forall_impl; [exact (same_schema_cols _ _ Hs)|].
      intros c Hc. cbn. by apply partial_cols. }
  split; [apply Hiter|].
  rewrite (groupby_two_levels self first rest by_ as_index ki) by done.
  unfold single_pass, bind, to_dataframe, collect. rewrite Hiter.
  cbn [yielded raised finished fmap list_fmap pandas_concat].
  rewrite (partial_summed by_ ki first) at 1. cbn [summed cols].
  by rewrite grouped_sum_keyed.
Qed.

(** X22. The strategy ['cum'] yields one chunk per chunk of the table, and
    chunk [k] is what [groupby] returns for the table made of the first
    [k + 1] chunks: the running state of the group by. *)
Theorem groupby_cum_running self first rest by_ as_index ki w :
  delivers self (first :: rest) -> same_schema first rest ->
  index_of by_ (columns first) = Some ki ->
  exists cum outs,
    groupby_streaming self by_ None None true "cum" as_index = Ok cum /\
    __iter__ cum w = (finished outs, w) /\
    length outs = length (first :: rest) /\
    forall k, (k < length (first :: rest))%nat ->
      exists r, outs !! k = Some r /\
        groupby (of_chunks (take (S k) (first :: rest)) true)
          by_ None None true as_index w = (Ok r, w).
Proof.
  intros Hd Hs Hki. eexists _, _. split; [reflexivity|].
  split; [by apply (groupby_cum_walk self first rest by_ as_index ki)|].
  split; [by rewrite length_fmap, length_seq|].
  intros k Hk. eexists. split.
  - rewrite list_lookup_fmap, lookup_seq_lt by done. reflexivity.
  - cbn [take plus].
    apply (groupby_two_levels _ first (take k rest) by_ as_index ki); [done| |done].
    by apply Forall_take.
Qed.

(** X23. Grouping by a name that is no column: [groupby] raises the
    [KeyError] of pandas, and the walk of either streaming strategy
    raises it at the first chunk, before it yields anything. *)
Theorem groupby_missing_key self first rest by_ strategy as_index w :
  delivers self (first :: rest) -> same_schema first rest ->
  by_ ∉ columns first ->
  strategy = "cum"%string \/ strategy = "streaming"%string ->
  groupby self by_ None None true as_index w
  = (Error (Raise KeyError "{0}" [FNames [by_]]), w) /\
  exists st,
    groupby_streaming self by_ None None true strategy as_index = Ok st /\
    __iter__ st w = (fail_ (Raise KeyError "{0}" [FNames [by_]]), w).
Proof.
  intros Hd Hs Hby Hst.
  assert (Hg : grouped (or_sum None) by_ false first
               = Error (Raise KeyError "{0}" [FNames [by_]])).
  { unfold grouped, Frame.groupby.
    destruct (index_of by_ (columns first)) as [i|] eqn:Hi; [|done].
    apply fmap_Some in Hi as ([i' x] & Hf & _).
    apply list_find_Some in Hf as (Hi & -> & _).
    destruct Hby. by eapply list_elem_of_lookup_2. }
  split.
  - unfold groupby. cbn [negb].
    rewrite (iter_delivers self first rest) by done.
    cbn [yielded raised finished groupby_loop]. by rewrite Hg.
  - destruct Hst as [-> | ->]; (eexists; split; [reflexivity|]);
      unfold __iter__; cbn [iter_creation __init__ check_schema]; unfold walking;
      rewrite (iter_delivers self first rest) by done;
      cbn [yielded raised finished iterate_cum iterate_streaming map_loop];
      by rewrite Hg.
Qed.

(** * Merge with a dataframe *)

Lemma cut_whole df :
  (0 < nrows df)%nat -> cut df (Z.of_nat (nrows df)) = [df].
Proof.
  intros Hn. unfold cut, pieces, chunk_count.
  assert ((Z.of_nat (nrows df) + Z.of_nat (nrows df) - 1)
            `div` Z.of_nat (nrows df) = 1) as ->.
  { symmetry. apply (Z.div_unique _ _ 1 (Z.of_nat (nrows df) - 1)); lia. }
  change (Z.to_nat 1) with 1%nat. cbn [seq fmap list_fmap].
  rewrite Nat2Z.id, drop_0. unfold nrows. rewrite firstn_all.
  by destruct df.
Qed.

Lemma read_df_whole df w :
  (0 < nrows df)%nat ->
  __iter__ (read_df df (Some (Z.of_nat (nrows df))) true) w = (finished [df], w).
Proof. intros Hn. rewrite read_df_iter by lia. by rewrite cut_whole. Qed.

(** X24. Merging with a dataframe that has rows: the dataframe is one
    chunk, the walk yields one merged chunk per chunk of [self], and the
    rows it yields are, up to their order, the rows of [A.merge(B, on=key)],
    [A] being the table that [self] cuts. *)
Theorem merge_dataframe
    (self : StreamingDataFrame) (A B : DataFrame)
    (chunksA : list DataFrame) (key : string) (joined : DataFrame) (w : World) :
  delivers self chunksA -> chunking A chunksA -> (0 < nrows B)%nat ->
  Frame.merge key A B = Ok joined ->
  exists out,
    __iter__ (merge self (InMemory B) key) w = (finished out, w) /\
    Forall2 (fun a o => Frame.merge key a B = Ok o) chunksA out /\
    cells <$> all_rows out ≡ₚ cells <$> rows joined.
Proof.
  intros HdA [HcA HrA] HB HAB.
  unfold Frame.merge in HAB.
  destruct (index_of key (columns A)) as [k1|] eqn:H1; [|discriminate].
  destruct (index_of key (columns B)) as [k2|] eqn:H2; [|discriminate].
  injection HAB as <-.
  exists (chunksA ≫= fun a => merged key k1 k2 (cols A) (cols B) a <$> [B]).
  split; [|split].
  - apply (iter_uniform _ _ (cols (merged key k1 k2 (cols A) (cols B) A B))).
    + intros w0. cbn [merge iter_creation __init__]. unfold iterator_merge.
      rewrite (iter_uniform self chunksA (cols A)) by done.
      cbn [yielded raised finished].
      apply merge_outer_all; try done.
      * by constructor.
      * intros w1. by apply read_df_whole.
    + apply Forall_bind. apply Forall_forall. intros a _.
      apply Forall_fmap, Forall_forall. intros b _. reflexivity.
  - clear HdA HrA. induction HcA as [|a chunksA Ha _ IH]; [constructor|].
    rewrite bind_cons. cbn [fmap list_fmap app]. constructor; [|exact IH].
    rewrite (merge_found key k1 k2); [by rewrite Ha| |done].
    unfold columns. by rewrite Ha.
  - rewrite merged_cells. cbn [merged rows]. rewrite cells_imap.
    rewrite <- HrA, <- join_rows_chunks_l.
    apply bind_pointwise_perm. intros a.
    by rewrite bind_cons, app_nil_r.
Qed.

(** X25. Merging with a dataframe without rows: the dataframe is read with
    [chunksize = 0], and the walk raises the [ValueError] of [range] at
    the first chunk of [self] instead of yielding empty chunks. *)
Theorem merge_empty_dataframe self first rest B key w :
  delivers self (first :: rest) -> same_schema first rest ->
  nrows B = 0%nat ->
  __iter__ (merge self (InMemory B) key) w
  = (fail_ (Raise ValueError "range() arg 3 must not be zero" []), w).
Proof.
  intros Hd Hs HB. unfold __iter__, merge.
  cbn [iter_creation __init__ check_schema]. unfold iterator_merge.
  rewrite (iter_delivers self first rest) by done.
  cbn [yielded raised finished merge_outer].
  rewrite read_df_zero_step by (cbn; lia).
  done.
Qed.

(** * Reservoir sampling: the selection *)

Lemma reservoir_rows_visit n i rws : forall ir st w,
  reservoir_rows n i ir rws st w
  = visit_all n ((fun k => (i, k)) <$> seq ir (length rws)) st w.
Proof.
  induction rws as [|r rws IH]; intros ir st w; [done|].
  cbn [reservoir_rows length seq fmap list_fmap visit_all fst snd].
  unfold bind. destruct (reservoir_visit n i ir st w) as [[st'|e] w']; [|done].
  apply IH.
Qed.

Lemma visit_all_app n l1 l2 : forall st w,
  visit_all n (l1 ++ l2) st w
  = bind (visit_all n l1 st) (visit_all n l2) w.
Proof.
  induction l1 as [|id l1 IH]; intros st w; [done|].
  cbn [app visit_all]. unfold bind in *.
  destruct (reservoir_visit n id.1 id.2 st w) as [[st'|e] w']; [|done].
  apply IH.
Qed.

Lemma reservoir_chunks_visit n its : forall i st w,
  reservoir_chunks n i its None st w = visit_all n (identifiers i its) st w.
Proof.
  induction its as [|c its IH]; intros i st w; [done|].
  cbn [reservoir_chunks identifiers]. rewrite visit_all_app.
  unfold bind. rewrite reservoir_rows_visit. fold (nrows c).
  destruct (visit_all n _ st w) as [[st'|e] w']; [|done].
  apply IH.
Qed.

Lemma identifiers_length i its : length (identifiers i its) = total_rows its.
Proof.
  revert i. induction its as [|c its IH]; intros i; [done|].
  cbn [identifiers]. rewrite length_app, length_fmap, length_seq, IH.
  by rewrite total_rows_cons.
Qed.

Lemma random_below w : exists x w',
  Numpy.random w = (Ok x, w') /\ 0 <= x < Numpy.resolution.
Proof.
  unfold Numpy.random. destruct (draw w) as [e w']. eexists _, _.
  split; [reflexivity|]. apply Z.mod_pos_bound. reflexivity.
Qed.

Lemma NoDup_insert_new {A} (l : list A) k x :
  NoDup l -> x ∉ l -> NoDup (<[k := x]> l).
Proof.
  intros Hl Hx. destruct (decide (k < length l)%nat) as [Hk|Hk].
  - rewrite insert_take_drop by done.
    destruct (lookup_lt_is_Some_2 l k Hk) as [y Hy].
    rewrite <- (take_drop k l), (drop_S _ y) in Hl by done.
    apply NoDup_app in Hl as (Ht & Hd & Hdr).
    apply NoDup_cons in Hdr as [_ Hdr].
    apply NoDup_app. split; [done|]. split.
    + intros z Hz Hz'. apply elem_of_cons in Hz' as [->|Hz'].
      * by apply Hx, (subseteq_take k l).
      * apply (Hd z Hz). by right.
    + apply NoDup_cons. split; [|done].
      intros Hin. by apply Hx, (subseteq_drop (S k) l).
  - by rewrite list_insert_ge by lia.
Qed.

Lemma elem_of_insert_inv {A} (l : list A) k x y :
  y ∈ <[k := x]> l -> y ∈ l \/ y = x.
Proof.
  intros Hy. apply list_elem_of_lookup in Hy as [j Hj].
  destruct (decide (j = k)) as [->|Hne].
  - destruct (decide (k < length l)%nat).
    + rewrite list_lookup_insert_eq in Hj by done. right. congruence.
    + rewrite list_insert_ge in Hj by lia. left. by eapply list_elem_of_lookup_2.
  - rewrite list_lookup_insert_ne in Hj by done.
    left. by eapply list_elem_of_lookup_2.
Qed.

(** One row seen once the reservoir is full. *)
Lemma reservoir_visit_replace (n : nat) i ir indices seen w :
  (2 <= n)%nat -> length indices = n ->
  exists indices' w',
    reservoir_visit (PInt (Z.of_nat n)) i ir (indices, seen) w
    = (Ok (indices', seen + 1), w') /\
    length indices' = n /\
    (forall y, y ∈ indices' -> y ∈ indices \/ y = (i, ir)) /\
    (NoDup indices -> (i, ir) ∉ indices -> NoDup indices') /\
    (Z.of_nat n <= seen + 1 - Z.of_nat n -> (i, ir) ∈ indices').
Proof.
  intros Hn Hlen.
  rewrite reservoir_visit_full by (apply Z.ltb_ge; lia).
  unfold bind.
  destruct (random_below w) as (x & w1 & -> & Hx).
  destruct (x * Z.of_nat n <? (seen + 1 - Z.of_nat n) * Numpy.resolution) eqn:Hc.
  - destruct (Numpy.randint 0 (Z.of_nat (length indices) - 1) w1)
      as [[k|e] w2] eqn:Hk.
    + pose proof (randint_range _ _ _ _ _ Hk) as Hrange.
      eexists _, _. split; [reflexivity|]. rewrite length_insert.
      split; [done|]. split; [apply elem_of_insert_inv|]. split.
      * apply NoDup_insert_new.
      * intros _. apply list_elem_of_insert. lia.
    + unfold Numpy.randint in Hk.
      destruct (Z.of_nat (length indices) - 1 <=? 0) eqn:Hle; [lia|].
      by destruct (draw w1).
  - eexists _, _. split; [reflexivity|]. split; [done|].
    split; [by left|]. split; [done|].
    intros Hfull. apply Z.ltb_ge in Hc. nia.
Qed.

Lemma visit_all_spec (n : nat) ids :
  (2 <= n)%nat ->
  forall p indices w,
    NoDup (p ++ ids) ->
    length indices = (n `min` length p)%nat -> NoDup indices ->
    (forall y, y ∈ indices -> y ∈ p) ->
    exists indices' w',
      visit_all (PInt (Z.of_nat n)) ids (indices, Z.of_nat (length p)) w
      = (Ok (indices', Z.of_nat (length (p ++ ids))), w') /\
      length indices' = (n `min` length (p ++ ids))%nat /\
      NoDup indices' /\
      (forall y, y ∈ indices' -> y ∈ p ++ ids) /\
      (ids = [] -> indices' = indices) /\
      ((length (p ++ ids) <= n)%nat -> indices' = indices ++ ids /\ w' = w) /\
      (forall x, last ids = Some x -> (2 * n <= length (p ++ ids))%nat ->
                 x ∈ indices').
Proof.
  intros Hn. induction ids as [|[i ir] ids IH]; intros p indices w Hnd Hlen Hind Hsub.
  - exists indices, w. rewrite app_nil_r. cbn [visit_all].
    split; [done|]. split; [done|]. split; [done|]. split; [done|].
    split; [done|]. split; [|done]. intros _. by rewrite app_nil_r.
  - assert (Hnew : (i, ir) ∉ indices).
    { intros Hin. apply Hsub in Hin. apply NoDup_app in Hnd as (_ & Hd & _).
      apply (Hd _ Hin). by left. }
    assert (Happ : (p ++ [(i, ir)]) ++ ids = p ++ (i, ir) :: ids)
      by (by rewrite <- app_assoc).
    assert (Hp1 : Z.of_nat (length p) + 1 = Z.of_nat (length (p ++ [(i, ir)])))
      by (rewrite length_app; simpl; lia).
    cbn [visit_all fst snd]. unfold bind.
    destruct (decide (length p < n)%nat) as [Hroom|Hfull].
    + rewrite reservoir_visit_fill by (apply Z.ltb_lt; lia).
      destruct (IH (p ++ [(i, ir)]) (indices ++ [(i, ir)]) w)
        as (indices' & w' & Hrun & Hlen' & Hnd' & Hsub' & Hnil & Hall & Hlast).
      { by rewrite Happ. }
      { rewrite !length_app. simpl. lia. }
      { apply NoDup_app. split; [done|]. split; [|apply NoDup_singleton].
        intros y Hy Hy'. apply list_elem_of_singleton in Hy'. by subst y. }
      { intros y Hy. apply elem_of_app in Hy as [Hy|Hy]; apply elem_of_app; auto. }
      rewrite Happ in Hrun, Hlen', Hsub', Hall, Hlast. rewrite Hp1.
      exists indices', w'.
      split; [exact Hrun|]. split; [exact Hlen'|]. split; [exact Hnd'|].
      split; [exact Hsub'|]. split; [discriminate|]. split.
      * intros H. destruct (Hall H) as [-> ->]. by rewrite <- app_assoc.
      * intros x Hx H2. destruct ids as [|id ids].
        -- rewrite length_app in H2. simpl in H2. lia.
        -- apply Hlast; [|done]. by rewrite last_cons_cons in Hx.
    + destruct (reservoir_visit_replace n i ir indices (Z.of_nat (length p)) w Hn)
        as (indices1 & w1 & -> & Hlen1 & Hsub1 & Hnd1' & Hin1); [lia|].
      destruct (IH (p ++ [(i, ir)]) indices1 w1)
        as (indices' & w' & Hrun & Hlen' & Hnd' & Hsub' & Hnil & Hall & Hlast).
      { by rewrite Happ. }
      { rewrite length_app. simpl. lia. }
      { by apply Hnd1'. }
      { intros y Hy. apply elem_of_app. destruct (Hsub1 y Hy) as [Hy'| ->].
        - left. by apply Hsub.
        - right. by left. }
      rewrite Happ in Hrun, Hlen', Hsub', Hall, Hlast. rewrite Hp1.
      exists indices', w'.
      split; [exact Hrun|]. split; [exact Hlen'|]. split; [exact Hnd'|].
      split; [exact Hsub'|]. split; [discriminate|]. split.
      * intros H. rewrite length_app in H. simpl in H. lia.
      * intros x Hx H2. destruct ids as [|id ids].
        -- injection Hx as <-. rewrite (Hnil eq_refl). apply Hin1.
           rewrite length_app in H2. simpl in H2. lia.
        -- apply Hlast; [|done]. by rewrite last_cons_cons in Hx.
Qed.

Lemma identifiers_NoDup its : forall i,
  NoDup (identifiers i its) /\
  forall y, y ∈ identifiers i its -> (i <= y.1)%nat.
Proof.
  induction its as [|c its IH]; intros i.
  - split; [constructor|]. intros y Hy. by apply elem_of_nil in Hy.
  - destruct (IH (S i)) as [Hnd Hge]. cbn [identifiers]. split.
    + apply NoDup_app. split; [|split; [|done]].
      * apply NoDup_fmap_2; [|apply NoDup_seq]. by intros ?? [=].
      * intros y Hy Hy'. apply list_elem_of_fmap in Hy as (k & -> & _).
        apply Hge in Hy'. simpl in Hy'. lia.
    + intros y Hy. apply elem_of_app in Hy as [Hy|Hy].
      * apply list_elem_of_fmap in Hy as (k & -> & _). done.
      * apply Hge in Hy. lia.
Qed.

(** X26. Pass 1 of the reservoir sampling with [n >= 2], over a table of
    [L] rows: it never fails, and selects [min(n, L)] distinct rows of the
    table.  With [L <= n] all rows are selected and the random generator
    is left alone.  With [L >= 2 n] the last row of the table is always
    selected: from row [2 n] on, [x * n < seen - n] holds whatever [x]
    the generator gives. *)
Theorem reservoir_select_spec self chunks (s : list (string * dtype)) (n : nat) w :
  delivers self chunks -> Forall (fun c => cols c = s) chunks ->
  (2 <= n)%nat ->
  exists indices w',
    reservoir_select self (PInt (Z.of_nat n)) w = (Ok indices, w') /\
    length indices = (n `min` total_rows chunks)%nat /\
    NoDup indices /\
    (forall y, y ∈ indices -> y ∈ identifiers 0 chunks) /\
    ((total_rows chunks <= n)%nat ->
     indices = identifiers 0 chunks /\ w' = w) /\
    ((2 * n <= total_rows chunks)%nat ->
     forall x, last (identifiers 0 chunks) = Some x -> x ∈ indices).
Proof.
  intros Hd Hs Hn.
  destruct (visit_all_spec n (identifiers 0 chunks) Hn [] [] w)
    as (indices & w' & Hrun & Hlen & Hnd & Hsub & _ & Hall & Hlast).
  { apply identifiers_NoDup. }
  { simpl. lia. }
  { constructor. }
  { done. }
  cbn [app length] in *. rewrite identifiers_length in *.
  exists indices, w'.
  split; [|split; [exact Hlen|split; [exact Hnd|split; [exact Hsub|split]]]].
  - unfold reservoir_select. rewrite (iter_uniform self chunks s) by done.
    cbn [yielded raised finished]. rewrite reservoir_chunks_visit.
    change (0 : Z) with (Z.of_nat 0). by rewrite Hrun.
  - exact Hall.
  - intros H x Hx. by apply Hlast.
Qed.

Lemma picked_length (S : gset (nat * nat)) i rws : forall ir,
  length (picked S i ir rws)
  = length (filter (fun id => id ∈ S) ((fun k => (i, k)) <$> seq ir (length rws))).
Proof.
  induction rws as [|r rws IH]; intros ir; [done|].
  cbn [picked length seq fmap list_fmap]. rewrite filter_cons.
  case_bool_decide as H.
  - rewrite decide_True by done. cbn [length]. by rewrite IH.
  - rewrite decide_False by done. apply IH.
Qed.

Lemma picked_chunks_length (S : gset (nat * nat)) its : forall i,
  length (picked_chunks S i its)
  = length (filter (fun id => id ∈ S) (identifiers i its)).
Proof.
  induction its as [|c its IH]; intros i; [done|].
  cbn [picked_chunks identifiers].
  by rewrite filter_app, !length_app, picked_length, IH.
Qed.

Lemma filter_selected (ids indices : list (nat * nat)) :
  NoDup ids -> NoDup indices -> (forall y, y ∈ indices -> y ∈ ids) ->
  length (filter (fun id => id ∈ (list_to_set indices : gset (nat * nat))) ids)
  = length indices.
Proof.
  intros Hids Hind Hsub. apply Permutation_length, NoDup_Permutation.
  - by apply NoDup_filter.
  - done.
  - intros y. rewrite list_elem_of_filter, elem_of_list_to_set.
    split; [by intros [? _]|auto].
Qed.

(** X27. Reservoir sampling with [n >= 2] and [cache=True] over a table of
    [L] rows with one schema: the call succeeds, and every walk of the
    sample yields [min(n, L)] rows. *)
Theorem reservoir_sample_size self chunks (s : list (string * dtype)) (n : nat)
    random_state w :
  delivers self chunks -> Forall (fun c => cols c = s) chunks ->
  (2 <= n)%nat ->
  exists t w',
    _reservoir_sampling self true (PInt (Z.of_nat n)) random_state w = (Ok t, w') /\
    forall w1, exists out,
      __iter__ t w1 = (finished out, w1) /\
      total_rows out = (n `min` total_rows chunks)%nat.
Proof.
  intros Hd Hs Hn.
  destruct (visit_all_spec n (identifiers 0 chunks) Hn [] [] w)
    as (indices & w' & Hrun & Hlen & Hnd & Hsub & _ & _ & _).
  { apply identifiers_NoDup. }
  { simpl. lia. }
  { constructor. }
  { done. }
  cbn [app length] in *. rewrite identifiers_length in *.
  assert (Hsel : reservoir_select self (PInt (Z.of_nat n)) w = (Ok indices, w')).
  { unfold reservoir_select. rewrite (iter_uniform self chunks s) by done.
    cbn [yielded raised finished]. rewrite reservoir_chunks_visit.
    change (0 : Z) with (Z.of_nat 0). by rewrite Hrun. }
  unfold _reservoir_sampling, bind. cbn [negb]. rewrite Hsel.
  eexists _, _. split; [reflexivity|]. intros w1.
  rewrite reservoir_walk.
  rewrite (iter_uniform self chunks s) by done.
  cbn [fst snd yielded raised finished].
  destruct (reservoir_iterate_spec (list_to_set indices) 1000 chunks None
              ltac:(lia) 0%nat []) as (Hfin & _ & Hrows); [simpl; lia|].
  destruct (reservoir_iterate (list_to_set indices) 1000 0 [] chunks None)
    as [out fin]. cbn [yielded raised] in *. subst fin.
  exists out. split; [done|].
  rewrite Hrows by done. cbn [length Nat.add].
  rewrite picked_chunks_length, filter_selected; [done| |done|done].
  apply identifiers_NoDup.
Qed.

(** * Cached samples *)

(** X28. [sample(cache=True)] without [n]: the sample is drawn once, when
    the method is called, and kept as one dataframe.  The table returned
    is stable and every walk of it yields that dataframe as one chunk
    without touching the random generator; when the sample has no row,
    every walk raises the [ValueError] of [range] instead. *)
Theorem sample_cached
    (df_sample : gmap string pyvalue -> DataFrame -> M DataFrame)
    (self : StreamingDataFrame) (kwargs : gmap string pyvalue)
    (w w' : World) (t : StreamingDataFrame) :
  kwargs !! "n" = None ->
  sample df_sample self false true kwargs w = (Ok t, w') ->
  exists df,
    to_df (sample_iter df_sample self kwargs) w = (Ok df, w') /\
    stable t = true /\
    forall w1,
      __iter__ t w1
      = (if (nrows df =? 0)%nat
         then fail_ (Raise ValueError "range() arg 3 must not be zero" [])
         else finished [df], w1).
Proof.
  intros Hn. unfold sample. rewrite Hn.
  rewrite bool_decide_eq_false_2 by (intros [? ?]; discriminate).
  cbn [orb]. unfold bind.
  destruct (to_df (sample_iter df_sample self kwargs) w) as [[df|e] w1] eqn:Hdf;
    [|discriminate].
  intros [= <- <-]. exists df. split; [done|]. split; [done|].
  intros w2. destruct (Nat.eqb_spec (nrows df) 0) as [H0|H0].
  - apply read_df_zero_step. cbn. lia.
  - apply read_df_whole. lia.
Qed.

(** * Types of a dataframe *)
















(** * Writing a table as text *)

Lemma append_assoc (a b c : string) : (a +:+ b) +:+ c = a +:+ b +:+ c.
Proof.
  induction a as [|x a IH]; [done|].
  change (String x ((a +:+ b) +:+ c) = String x (a +:+ b +:+ c)). by f_equal.
Qed.

Lemma lines_app (row_line : Row -> string) (l1 l2 : list Row) :
  foldr (fun r s => row_line r +:+ s) ""%string (l1 ++ l2)
  = foldr (fun r s => row_line r +:+ s) ""%string l1
    +:+ foldr (fun r s => row_line r +:+ s) ""%string l2.
Proof.
  induction l1 as [|r l1 IH]; [done|]. cbn [app foldr].
  by rewrite IH, append_assoc.
Qed.

Lemma to_csv_loop_rows header_line row_line (s : list (string * dtype)) chunks :
  Forall (fun c => cols c = s) chunks ->
  Accessors.to_csv_loop header_line row_line false chunks
  = foldr (fun r t => row_line s r +:+ t) ""%string (all_rows chunks).
Proof.
  induction 1 as [|c chunks Hc _ IH]; [done|].
  cbn [Accessors.to_csv_loop]. unfold all_rows. rewrite bind_cons, lines_app.
  fold (all_rows chunks). rewrite IH. unfold Accessors.df_to_csv.
  by rewrite Hc.
Qed.

(** X30. [to_csv] writes the header once, before the rows of the first
    chunk: for a table with one schema the text is the one pandas writes
    for the whole dataframe [to_dataframe()].  A table without any chunk
    gives the empty text. *)
Theorem to_csv_whole header_line row_line self chunks header w :
  delivers self chunks ->
  (chunks = [] ->
   Accessors.to_csv header_line row_line self header w = (Ok ""%string, w)) /\
  (forall first rest, chunks = first :: rest -> same_schema first rest ->
   exists df,
     to_dataframe self w = (Ok df, w) /\
     Accessors.to_csv header_line row_line self header w
     = (Ok (Accessors.df_to_csv header_line row_line header df), w)).
Proof.
  intros Hd. split.
  - intros ->. unfold Accessors.to_csv, bind, collect.
    by rewrite (iter_of_delivers self []).
  - intros first rest -> Hs. eexists. split.
    + unfold to_dataframe, collect.
      rewrite (iter_delivers self first rest) by done. reflexivity.
    + unfold Accessors.to_csv, bind, collect.
      rewrite (iter_delivers self first rest) by done.
      cbn [yielded raised finished Accessors.to_csv_loop]. unfold ret.
      do 2 f_equal. unfold Accessors.df_to_csv. cbn [cols rows].
      rewrite (to_csv_loop_rows _ _ (cols first)) by (by apply same_schema_cols).
      rewrite bind_cons, lines_app. fold (all_rows rest).
      by rewrite append_assoc.
Qed.

(** * Examples *)

Lemma read_df_round_trip_witness :
  to_dataframe (read_df three_rows (Some 2) true) [] = (Ok three_rows, []).
Proof. apply read_df_round_trip; [lia|vm_compute; lia]. Defined.

Lemma read_df_chunks_witness :
  exists chunks,
    __iter__ (read_df five_rows (Some 2) true) [] = (finished chunks, []) /\
    length chunks = 3%nat /\
    forall k ch, chunks !! k = Some ch ->
      cols ch = AB /\ (0 < nrows ch <= 2)%nat.
Proof.
  destruct (read_df_chunks five_rows 2 true []) as (chunks & H1 & H2 & H3); [lia|].
  exists chunks. split; [exact H1|]. split; [exact H2|].
  intros k ch Hk. destruct (H3 k ch Hk) as (Hc & _ & Hn).
  split; [exact Hc|exact Hn].
Defined.

Lemma read_df_degenerate_witness :
  __iter__ (read_df three_rows (Some 0) true) []
  = (fail_ (Raise ValueError "range() arg 3 must not be zero" []), []) /\
  __iter__ (read_df three_rows (Some (-1)) true) [] = (finished [], []).
Proof.
  split.
  - apply (proj1 (read_df_degenerate three_rows (Some 0) true [])). reflexivity.
  - apply (proj2 (read_df_degenerate three_rows (Some (-1)) true [])). reflexivity.
Defined.

Lemma iterrows_read_df_witness :
  Accessors.iterrows (read_df three_rows (Some 2) true) []
  = (Trace (rows three_rows) None, []).
Proof. apply iterrows_read_df. lia. Defined.

Lemma shape_of_table_witness :
  Accessors.shape (of_chunks six_rows_by_two true) [] = (Ok (6%nat, 2%nat), []).
Proof.
  apply (shape_of_table (of_chunks six_rows_by_two true)
           (frame 0 AB [[1; 1]; [2; 2]])
           [frame 2 AB [[3; 3]; [4; 4]]; frame 4 AB [[5; 5]; [6; 6]]] []).
  - intros w. reflexivity.
  - repeat constructor.
Defined.

Lemma iter_without_check_witness :
  __iter__ (of_chunks c7_chunks false) [] = (finished c7_chunks, []).
Proof. apply (iter_without_check (of_chunks c7_chunks false) []). reflexivity. Defined.

Lemma iter_types_mismatch_eager_witness :
  __iter__ (of_chunks [frame 0 AB [[1; 2]];
                       frame 1 [("A"%string, int64); ("B"%string, float64)] [[3; 4]]]
              true) []
  = (Trace [frame 0 AB [[1; 2]]]
       (Some (Raise StreamingDataFrameSchemaError types_msg
                [FInt 1; FDiff [("B"%string, int64, float64)]])), []).
Proof.
  destruct (iter_types_mismatch_eager
              (of_chunks [frame 0 AB [[1; 2]];
                          frame 1 [("A"%string, int64); ("B"%string, float64)]
                            [[3; 4]]] true)
              [] [] (frame 0 AB [[1; 2]]) []
              (frame 1 [("A"%string, int64); ("B"%string, float64)] [[3; 4]])
              [] None) as [H _].
  - reflexivity.
  - reflexivity.
  - constructor.
  - reflexivity.
  - discriminate.
  - exact H.
Defined.

Lemma iter_schema_invariant_witness :
  yielded (__iter__ (of_chunks c7_chunks true) []).1 `prefix_of` c7_chunks /\
  same_schema (frame 0 AB [[1; 2]; [3; 4]]) [frame 2 AB [[5; 6]]].
Proof.
  destruct (iter_schema_invariant (of_chunks c7_chunks true) []) as (H1 & H2 & _).
  split; [exact H1|]. apply (H2 eq_refl). reflexivity.
Defined.

Lemma is_stable_reproducible_witness :
  Accessors.is_stable (of_chunks c7_chunks true) true (Some 1%nat) []
  = (Ok true, []) /\
  exists e,
    Accessors.is_stable (of_chunks c7_chunks true) true (Some 10%nat) []
    = (Error e, []).
Proof.
  pose proof (fun n => is_stable_reproducible (of_chunks c7_chunks true) n
              [frame 0 AB [[1; 2]; [3; 4]]; frame 2 AB [[5; 6]]]
              (Some (Raise StreamingDataFrameSchemaError names_msg
                       [FInt 3; FNames ["A"%string; "B"%string];
                        FNames ["B"%string; "A"%string]]))
              [] (fun w => eq_refl)) as H.
  split.
  - exact (proj2 (H (Some 1%nat))).
  - eexists. exact (proj2 (H (Some 10%nat))).
Defined.

Lemma table_without_chunk_witness :
  head (of_chunks [] true) 5 [] = (Ok None, []) /\
  to_dataframe (of_chunks [] true) []
  = (Error (Raise ValueError "No objects to concatenate" []), []).
Proof.
  destruct (table_without_chunk (of_chunks [] true) 5 [] (fun w => eq_refl))
    as (H1 & _ & H3 & _).
  split; [exact H1|exact H3].
Defined.

Lemma apply_compose_witness :
  __iter__ (apply (apply (of_chunks [three_rows] false)
                     (fun df => Ok (df_head 2 df)))
              (fun df => Ok (df_tail 1 df))) []
  = (finished [frame 1 AB [[4; 6]]], []).
Proof.
  rewrite (proj1 (apply_compose (of_chunks [three_rows] false)
                    (fun df => Ok (df_head 2 df)) (fun df => Ok (df_tail 1 df))
                    [] eq_refl)).
  reflexivity.
Defined.

Lemma concatv_appends_witness :
  __iter__ (_concatv c5_self
              (Several [Streamed c5_good; InMemory (frame 0 AB [[7; 8]])])) []
  = (finished [frame 0 AB [[1; 2]]; frame 0 AB [[3; 4]]; frame 0 AB [[7; 8]]], []).
Proof.
  apply (concatv_appends c5_self
           (Several [Streamed c5_good; InMemory (frame 0 AB [[7; 8]])])
           (frame 0 AB [[1; 2]]) []
           [[frame 0 AB [[3; 4]]]; [frame 0 AB [[7; 8]]]] []).
  - intros w. reflexivity.
  - constructor.
  - repeat constructor; intros w; reflexivity.
Defined.

Lemma concatv_mismatch_witness :
  __iter__ (_concatv c5_self
              (Several [Streamed c5_good; Streamed c5_good;
                        InMemory (frame 0 BA [[5; 6]]); Streamed c5_good])) []
  = (Trace [frame 0 AB [[1; 2]]; frame 0 AB [[3; 4]]; frame 0 AB [[3; 4]]]
       (Some (Raise ValueError names_differ [FInt 0])), []).
Proof.
  apply (concatv_mismatch c5_self [Streamed c5_good; Streamed c5_good]
           (InMemory (frame 0 BA [[5; 6]])) [Streamed c5_good]
           (frame 0 AB [[1; 2]]) []
           [[frame 0 AB [[3; 4]]]; [frame 0 AB [[3; 4]]]]
           (frame 0 BA [[5; 6]]) [] []).
  - intros w. reflexivity.
  - constructor.
  - repeat constructor; intros w; reflexivity.
  - intros w. reflexivity.
  - constructor.
  - left. discriminate.
Defined.

Lemma concatv_without_rows_witness :
  __iter__ (_concatv (of_chunks [] true) (One (Streamed c5_good))) []
  = (fail_ (Raise TypeError "'NoneType' object is not iterable" []), []) /\
  __iter__ (_concatv c5_self (One (InMemory (frame 0 AB [])))) []
  = (Trace [frame 0 AB [[1; 2]]]
       (Some (Raise ValueError "range() arg 3 must not be zero" [])), []).
Proof.
  split.
  - apply (proj1 (concatv_without_rows (of_chunks [] true) (Streamed c5_good)
                    three_rows (frame 0 AB [[3; 4]]) [] three_rows [] [])).
    + intros w. reflexivity.
    + intros w. reflexivity.
    + constructor.
  - apply (proj2 (concatv_without_rows c5_self (Streamed c5_good)
                    (frame 0 AB []) three_rows [] (frame 0 AB [[1; 2]]) [] [])).
    + intros w. reflexivity.
    + constructor.
    + reflexivity.
Defined.

Lemma concath_pairs_witness :
  __iter__ (_concath (of_chunks [frame 0 AB [[1; 2]]; frame 1 AB [[3; 4]]] true)
              (One (Streamed (of_chunks [frame 0 KX [[5; 6]];
                                         frame 1 KX [[7; 8]]] true)))) []
  = (finished [frame 0 (AB ++ KX) [[1; 2; 5; 6]];
               frame 1 (AB ++ KX) [[3; 4; 7; 8]]], []) /\
  __iter__ (_concath (of_chunks [frame 0 AB [[1; 2]]; frame 1 AB [[3; 4]]] true)
              (One (Streamed (of_chunks [frame 0 KX [[5; 6]];
                                         frame 1 KX [[7; 8]; [9; 10]]] true)))) []
  = (Trace [frame 0 (AB ++ KX) [[1; 2; 5; 6]]] (Some different_size), []).
Proof.
  split.
  - apply (proj1 (concath_pairs
                    (of_chunks [frame 0 AB [[1; 2]]; frame 1 AB [[3; 4]]] true)
                    (of_chunks [frame 0 KX [[5; 6]]; frame 1 KX [[7; 8]]] true)
                    [frame 0 AB [[1; 2]]; frame 1 AB [[3; 4]]]
                    [frame 0 KX [[5; 6]]; frame 1 KX [[7; 8]]] AB KX []
                    (fun w => eq_refl) ltac:(repeat constructor)
                    (fun w => eq_refl) ltac:(repeat constructor))).
    repeat constructor.
  - apply (proj2 (concath_pairs
                    (of_chunks [frame 0 AB [[1; 2]]; frame 1 AB [[3; 4]]] true)
                    (of_chunks [frame 0 KX [[5; 6]];
                                frame 1 KX [[7; 8]; [9; 10]]] true)
                    [frame 0 AB [[1; 2]]; frame 1 AB [[3; 4]]]
                    [frame 0 KX [[5; 6]]; frame 1 KX [[7; 8]; [9; 10]]] AB KX []
                    (fun w => eq_refl) ltac:(repeat constructor)
                    (fun w => eq_refl) ltac:(repeat constructor))
             [(frame 0 AB [[1; 2]], frame 0 KX [[5; 6]])]
             (frame 1 AB [[3; 4]]) (frame 1 KX [[7; 8]; [9; 10]]) []).
    + reflexivity.
    + repeat constructor.
    + vm_compute. lia.
Defined.

Lemma concath_dataframe_witness :
  __iter__ (_concath c5_self (One (InMemory three_rows))) []
  = (fail_ (Raise AttributeError "'str' object has no attribute 'shape'" []), []).
Proof.
  apply (concath_dataframe c5_self (frame 0 AB [[1; 2]]) [] three_rows []).
  - intros w. reflexivity.
  - constructor.
Defined.

Lemma add_column_constant_witness :
  exists t,
    add_column three_rows_sdf (PStr "B") (ByConstant 0) = Ok t /\
    __iter__ t [] = (finished [frame 0 AB [[3; 0]; [4; 0]; [3; 0]]], []).
Proof.
  destruct (add_column_constant three_rows_sdf three_rows [] "B" 0 [])
    as (t & H1 & H2 & _).
  - intros w. reflexivity.
  - constructor.
  - exists t. split; [exact H1|exact H2].
Defined.

Lemma add_column_function_witness :
  (exists t,
     add_column three_rows_sdf (PStr "A") (ByFunction (fun r => label r)) = Ok t /\
     __iter__ t []
     = (fail_ (Raise ValueError "cannot insert {0}, already exists"
                 [FNames ["A"%string]]), [])) /\
  (exists t,
     add_column three_rows_sdf (PStr "C") (ByFunction (fun r => label r)) = Ok t /\
     __iter__ t []
     = (finished [frame 0 (AB ++ [("C"%string, int64)])
                    [[3; 5; 0]; [4; 6; 1]; [3; 7; 2]]], [])).
Proof.
  split.
  - destruct (add_column_function three_rows_sdf three_rows [] "A"
                (fun r => label r) []) as (t & H1 & H2 & _).
    + intros w. reflexivity.
    + constructor.
    + exists t. split; [exact H1|]. apply H2.
      apply (bool_decide_unpack _). vm_compute. exact I.
  - destruct (add_column_function three_rows_sdf three_rows [] "C"
                (fun r => label r) []) as (t & H1 & _ & H3).
    + intros w. reflexivity.
    + constructor.
    + exists t. split; [exact H1|]. apply H3.
      apply (bool_decide_unpack _). vm_compute. exact I.
Defined.

Lemma getitem_selects_witness :
  exists t out,
    __getitem__ three_rows_sdf [ItemList ["B"%string]] = Ok t /\
    __iter__ t [] = (finished out, []) /\
    Accessors.columns t [] = (Ok (Some ["B"%string]), []).
Proof.
  destruct (getitem_selects three_rows_sdf three_rows [] ["B"%string] [])
    as (t & out & H1 & H2 & H3 & _).
  - intros w. reflexivity.
  - constructor.
  - repeat constructor.
  - exists t, out. split; [exact H1|]. split; [exact H2|exact H3].
Defined.

Lemma getitem_refuses_witness :
  __getitem__ three_rows_sdf []
  = Error (Raise NotImplementedError "Only a list of columns is supported." []) /\
  exists t msg fargs,
    __getitem__ three_rows_sdf [ItemList ["Z"%string]] = Ok t /\
    __iter__ t [] = (fail_ (Raise KeyError msg fargs), []).
Proof.
  split.
  - apply (proj1 (getitem_refuses three_rows_sdf three_rows [] [] "Z" [] [])).
    discriminate.
  - apply (proj2 (getitem_refuses three_rows_sdf three_rows [] ["Z"%string] "Z"
                    [] [])).
    + intros w. reflexivity.
    + constructor.
    + by left.
    + apply (bool_decide_unpack _). vm_compute. exact I.
Defined.

Lemma groupby_streaming_regroup_witness :
  exists st,
    groupby_streaming
      (of_chunks [frame 0 AB [[3; 5]; [4; 6]]; frame 2 AB [[3; 7]]] true)
      "A" None None true "streaming" false = Ok st /\
    __iter__ st []
    = (finished [frame 0 AB [[3; 5]; [4; 6]]; frame 0 AB [[3; 7]]], []) /\
    single_pass st "A" true []
    = groupby (of_chunks [frame 0 AB [[3; 5]; [4; 6]]; frame 2 AB [[3; 7]]] true)
        "A" None None true true [].
Proof.
  destruct (groupby_streaming_regroup
              (of_chunks [frame 0 AB [[3; 5]; [4; 6]]; frame 2 AB [[3; 7]]] true)
              (frame 0 AB [[3; 5]; [4; 6]]) [frame 2 AB [[3; 7]]] "A" true 0%nat [])
    as (st & H1 & H2 & H3).
  - intros w. reflexivity.
  - repeat constructor.
  - reflexivity.
  - exists st. split; [exact H1|]. split; [exact H2|exact H3].
Defined.

Lemma groupby_cum_running_witness :
  exists cum outs,
    groupby_streaming
      (of_chunks [frame 0 AB [[3; 5]; [4; 6]]; frame 2 AB [[3; 7]]] true)
      "A" None None true "cum" false = Ok cum /\
    __iter__ cum [] = (finished outs, []) /\
    outs !! 0%nat = Some (frame 0 AB [[3; 5]; [4; 6]]) /\
    outs !! 1%nat = Some (frame 0 AB [[3; 12]; [4; 6]]).
Proof.
  destruct (groupby_cum_running
              (of_chunks [frame 0 AB [[3; 5]; [4; 6]]; frame 2 AB [[3; 7]]] true)
              (frame 0 AB [[3; 5]; [4; 6]]) [frame 2 AB [[3; 7]]] "A" false 0%nat [])
    as (cum & outs & H1 & H2 & _ & H4).
  - intros w. reflexivity.
  - repeat constructor.
  - reflexivity.
  - exists cum, outs. split; [exact H1|]. split; [exact H2|].
    destruct (H4 0%nat ltac:(simpl; lia)) as (r0 & Hr0 & Hg0).
    destruct (H4 1%nat ltac:(simpl; lia)) as (r1 & Hr1 & Hg1).
    vm_compute in Hg0. vm_compute in Hg1.
    injection Hg0 as <-. injection Hg1 as <-.
    split; [exact Hr0|exact Hr1].
Defined.

Lemma groupby_missing_key_witness :
  groupby three_rows_sdf "Z" None None true true []
  = (Error (Raise KeyError "{0}" [FNames ["Z"%string]]), []) /\
  exists st,
    groupby_streaming three_rows_sdf "Z" None None true "cum" true = Ok st /\
    __iter__ st [] = (fail_ (Raise KeyError "{0}" [FNames ["Z"%string]]), []).
Proof.
  apply (groupby_missing_key three_rows_sdf three_rows [] "Z" "cum" true []).
  - intros w. reflexivity.
  - constructor.
  - apply (bool_decide_unpack _). vm_compute. exact I.
  - by left.
Defined.

Lemma merge_dataframe_witness :
  exists out,
    __iter__ (merge (of_chunks left_chunks true) (InMemory right_table) "K") []
    = (finished out, []) /\
    length out = 2%nat /\
    cells <$> all_rows out
    ≡ₚ [[1; 10; 7]; [1; 10; 6]; [1; 30; 7]; [1; 30; 6]; [2; 20; 9]].
Proof.
  assert (exists joined, Frame.merge "K" left_table right_table = Ok joined)
    as [joined Hj] by (eexists; reflexivity).
  destruct (merge_dataframe (of_chunks left_chunks true) left_table right_table
              left_chunks "K" joined []) as (out & H1 & H2 & H3).
  - intros w. reflexivity.
  - split; [repeat constructor|reflexivity].
  - vm_compute. lia.
  - exact Hj.
  - exists out. split; [exact H1|]. split.
    + apply Forall2_length in H2. by rewrite <- H2.
    + rewrite H3. vm_compute in Hj. injection Hj as <-. reflexivity.
Defined.

Lemma merge_empty_dataframe_witness :
  __iter__ (merge (of_chunks left_chunks true) (InMemory (frame 0 KY [])) "K") []
  = (fail_ (Raise ValueError "range() arg 3 must not be zero" []), []).
Proof.
  apply (merge_empty_dataframe (of_chunks left_chunks true)
           (frame 0 KX [[1; 10]; [2; 20]]) [frame 2 KX [[1; 30]]]).
  - intros w. reflexivity.
  - repeat constructor.
  - reflexivity.
Defined.

Lemma reservoir_select_spec_witness :
  exists indices w',
    reservoir_select (of_chunks [five_rows] true) (PInt 2) [7; 3; 1]%nat
    = (Ok indices, w') /\
    length indices = 2%nat /\ (0%nat, 4%nat) ∈ indices.
Proof.
  destruct (reservoir_select_spec (of_chunks [five_rows] true) [five_rows] AB
              2 [7; 3; 1]%nat)
    as (indices & w' & H1 & H2 & _ & _ & _ & H6).
  - intros w. reflexivity.
  - repeat constructor.
  - lia.
  - exists indices, w'. split; [exact H1|]. split; [exact H2|].
    apply H6; [vm_compute; lia|reflexivity].
Defined.

Lemma reservoir_sample_size_witness :
  exists t w',
    _reservoir_sampling (of_chunks [five_rows] true) true (PInt 2) None
      [7; 3; 1]%nat = (Ok t, w') /\
    forall w1, exists out,
      __iter__ t w1 = (finished out, w1) /\ total_rows out = 2%nat.
Proof.
  destruct (reservoir_sample_size (of_chunks [five_rows] true) [five_rows] AB
              2 None [7; 3; 1]%nat)
    as (t & w' & H1 & H2).
  - intros w. reflexivity.
  - repeat constructor.
  - lia.
  - exists t, w'. split; [exact H1|exact H2].
Defined.

Lemma sample_cached_witness :
  exists t w' df,
    sample coin_sample three_rows_sdf false true ∅ [0; 1; 2]%nat = (Ok t, w') /\
    to_df (sample_iter coin_sample three_rows_sdf ∅) [0; 1; 2]%nat = (Ok df, w') /\
    nrows df = 2%nat /\ stable t = true /\
    __iter__ t [5]%nat = (finished [df], [5]%nat).
Proof.
  assert (Hn : (∅ : gmap string pyvalue) !! "n" = None)
    by (vm_compute; reflexivity).
  assert (exists t w',
            sample coin_sample three_rows_sdf false true ∅ [0; 1; 2]%nat
            = (Ok t, w')) as (t & w' & Hs).
  { unfold sample. rewrite Hn.
    rewrite bool_decide_eq_false_2 by (intros [? ?]; discriminate).
    eexists _, _. reflexivity. }
  destruct (sample_cached coin_sample three_rows_sdf ∅ [0; 1; 2]%nat w' t Hn Hs)
    as (df & Hdf & Hst & Hit).
  exists t, w', df. split; [exact Hs|]. split; [exact Hdf|].
  specialize (Hit [5]%nat).
  vm_compute in Hdf. injection Hdf as <- <-.
  split; [reflexivity|]. split; [exact Hst|exact Hit].
Defined.


Lemma to_csv_whole_witness :
  exists df,
    to_dataframe (of_chunks six_rows_by_two true) [] = (Ok df, []) /\
    Accessors.to_csv (fun _ => "h"%string) (fun _ _ => "r"%string)
      (of_chunks six_rows_by_two true) true []
    = (Ok "hrrrrrr"%string, []).
Proof.
  destruct (to_csv_whole (fun _ => "h"%string) (fun _ _ => "r"%string)
              (of_chunks six_rows_by_two true) six_rows_by_two true []
              (fun w => eq_refl)) as [_ H].
  destruct (H _ _ eq_refl) as (df & H1 & H2).
  - repeat constructor.
  - exists df. split; [exact H1|]. rewrite H2.
    vm_compute in H1. injection H1 as <-. reflexivity.
Defined.
